(** * ShadertoyVR (Example_10_Shaderfun.cpp): shader build, channel textures,
      uniform lambdas and the UI-texture hand-off

    A shallow embedding of the render-side logic of
    [examples/cpp/qt/Example_10_Shaderfun.cpp]: the classes
    [ShadertoyRenderer] and [ShadertoyWindow] become records, their member
    functions become functions on those records, and everything the file
    obtains from outside (the GL driver, Qt, the bundled resources, the
    constants of Shadertoy.h) is a field of the class [Platform]; clock
    readings and fence states are arguments of the functions that read
    them.  [ShadertoyFetcher] is a record of its own, with the requests in
    flight and the files it writes; what it takes from outside is the class
    [FetchEnv]. *)

From Stdlib Require Import ZArith NArith List String Ascii Bool Lia.
From Stdlib Require Floats.SpecFloat.
From stdpp Require Import base option gmap gmultiset strings list pretty sorting.
Import SpecFloat.

Open Scope Z_scope.
Open Scope string_scope.

(** ** Scalars

    [float] and [double] are IEEE-754 binary32 and binary64, as specified by
    the Standard Library's [SpecFloat] (round to nearest, ties to even).
    Operations of one format are the [SpecFloat] operations at that format's
    precision and exponent range. *)

Abbreviation float := spec_float (only parsing).
Abbreviation double := spec_float (only parsing).

Definition f32_prec : Z := 24.
Definition f32_emax : Z := 128.
Definition f64_prec : Z := 53.
Definition f64_emax : Z := 1024.

Definition f32_add : float -> float -> float := SFadd f32_prec f32_emax.
Definition f32_sub : float -> float -> float := SFsub f32_prec f32_emax.
Definition f32_mul : float -> float -> float := SFmul f32_prec f32_emax.
Definition f64_mul : double -> double -> double := SFmul f64_prec f64_emax.

(** C++ [a < b], [a == b], [a != b] on floating-point operands. *)
Definition f_lt (a b : float) : bool := SFltb a b.
Definition f_le (a b : float) : bool := SFleb a b.
Definition f_eq (a b : float) : bool := SFeqb a b.
Definition f_ne (a b : float) : bool := negb (SFeqb a b).

(** The usual arithmetic conversion [float -> double] (exact) and the
    narrowing conversion [double -> float] (rounds). *)
Definition f32_to_f64 (a : float) : double :=
  match a with
  | S754_finite s m e => binary_round f64_prec f64_emax s m e
  | _ => a
  end.

Definition f64_to_f32 (a : double) : float :=
  match a with
  | S754_finite s m e => binary_round f32_prec f32_emax s m e
  | _ => a
  end.

(** [std::min(a, b)] is [(b < a) ? b : a]; [std::max(a, b)] is
    [(a < b) ? b : a]. *)
Definition std_min (a b : float) : float := if f_lt b a then b else a.
Definition std_max (a b : float) : float := if f_lt a b then b else a.

(** The literals [0.0f], [0.1f] (0x3DCCCCCD) and [1.0f]. *)
Definition f32_zero : float := S754_zero false.
Definition f32_0_1 : float := S754_finite false 13421773 (-27).
Definition f32_1_0 : float := S754_finite false 8388608 (-23).


(** Conversion [float -> unsigned] truncates toward zero; it is undefined
    (here [None]) when the truncated value is not representable. *)
Definition f32_to_u32 (a : float) : option N :=
  match a with
  | S754_zero _ => Some 0%N
  | S754_finite s m e =>
      let t := if (0 <=? e)%Z then Z.shiftl (Zpos m) e
               else Z.shiftr (Zpos m) (- e) in
      if (t =? 0)%Z then Some 0%N
      else if s then None
      else if (t <? 2 ^ 32)%Z then Some (Z.to_N t) else None
  | _ => None
  end.

(** Conversion [unsigned -> float]. *)
Definition u32_to_f32 (n : N) : float :=
  binary_normalize f32_prec f32_emax (Z.of_N n) 0 false.

Record vec2 := mk_vec2 { v2x : float; v2y : float }.
Record vec3 := mk_vec3 { v3x : float; v3y : float; v3z : float }.

(** [vec3()] *)
Definition vec3_zero : vec3 := mk_vec3 f32_zero f32_zero f32_zero.

Definition vec3_add (a b : vec3) : vec3 :=
  mk_vec3 (f32_add (v3x a) (v3x b)) (f32_add (v3y a) (v3y b))
          (f32_add (v3z a) (v3z b)).

Definition vec3_scale (a : vec3) (k : float) : vec3 :=
  mk_vec3 (f32_mul (v3x a) k) (f32_mul (v3y a) k) (f32_mul (v3z a) k).

(** ** GL objects and Qt values

    [GLuint] texture names and [GLsync] fence objects are numbers (0 is the
    null name and the null fence); [QUrl] and [QString] are strings, and
    [QUrl()] is the empty string.  A [TexturePtr] is a shared pointer to a
    texture object: [None] is the null pointer. *)

Abbreviation GLuint := N (only parsing).
Abbreviation GLsync := N (only parsing).
Abbreviation QUrl := string (only parsing).
Abbreviation QString := string (only parsing).
Abbreviation TexturePtr := (option N) (only parsing).

Definition QUrl_empty : QUrl := "".

(** [oglplus::Texture::Target], restricted to the targets the file uses. *)
Inductive TextureTarget := Target_2D | Target_CubeMap | Target_Other.

(** [shadertoy::ChannelInputType] *)
Inductive ChannelInputType := TEXTURE | CUBEMAP | VIDEO | AUDIO.

(** [struct Channel]; the [resolution] member is never read or written in
    this file and is left out. *)
Record Channel := mkChannel {
  target : TextureTarget;
  texture : TexturePtr
}.

(** [struct TextureData] *)
Record TextureData := mkTextureData {
  tex : TexturePtr;
  size : N * N
}.

(** The outcome of an oglplus build step: it either succeeds or throws a
    [ProgramBuildError] ([CompileError], [LinkError]) carrying the driver's
    info log. *)
Inductive BuildResult (A : Type) :=
  | Built (a : A)
  | BuildError (log : string).
Arguments Built {A} a.
Arguments BuildError {A} log.

Inductive ShaderKind := VertexKind | FragmentKind.

Record VertexShader := mkVertexShader {
  vs_source : string;
  vs_compiled : bool
}.

Record FragmentShader := mkFragmentShader {
  fs_source : string
}.

(** A linked program: its active uniforms ([oria::getActiveUniforms], name to
    location) and the integer values stored at uniform locations by
    [glUniform1i]. *)
Record Program := mkProgram {
  prog_vertex : VertexShader;
  prog_fragment : FragmentShader;
  activeUniforms : gmap string N;
  uniformInts : gmap N Z
}.

(** The closures pushed on [uniformLambdas], one constructor per lambda
    expression of [updateUniforms].  The first three capture [this] by
    reference and nothing else; the channel lambda captures [this] and, by
    value, the loop index [i]. *)
Inductive UniformLambda :=
  | LambdaGlobalTime
  | LambdaResolution
  | LambdaPosition
  | LambdaChannel (i : nat).

(** The GL calls a lambda issues when it runs. *)
Inductive GLCall :=
  | GlUniform1f (name : string) (v : float)
  | GlUniform3f (name : string) (v : vec3)
  | GlActiveTexture (unit : nat)
  | GlBindTexture (tgt : TextureTarget) (t : N).

(** Qt signals of [ShadertoyRenderer]. *)
Inductive Signal :=
  | compileSuccess
  | compileError (log : QString).

(** The part of the GL context the model tracks: the next unused texture
    name and the number of texture images uploaded so far. *)
Record GLContext := mkGL {
  nextTexture : N;
  uploads : nat
}.

(** [glClientWaitSync] results. *)
Inductive WaitResult :=
  | GL_ALREADY_SIGNALED
  | GL_TIMEOUT_EXPIRED
  | GL_CONDITION_SATISFIED
  | GL_WAIT_FAILED.

(** [shadertoy::Shader], as far as this file reads it. *)
Record Shader := mkShader {
  channelTypes : list ChannelInputType;
  channelTextures : list string;
  fragmentSource : string
}.

(** ** class ShadertoyRenderer

    The member arrays [channels[4]] and [channelSources[4]] are lists; an
    index outside the list is an out-of-bounds access of the source. *)
Record ShadertoyRenderer := mkRenderer {
  canonicalUrlMap : gmap string string;
  textureCache : gmap string TextureData;
  channels : list Channel;
  channelSources : list string;
  vrMode : bool;
  texRes : float;
  eyePosScale : float;
  startTime : float;
  uniformLambdas : list UniformLambda;
  position : vec3;
  skybox : bool;
  vertexShader : option VertexShader;
  fragmentShader : option FragmentShader;
  shadertoyProgram : option Program;
  gl : GLContext
}.

Definition set_canonicalUrlMap (v : gmap string string) (r : ShadertoyRenderer) :=
  let 'mkRenderer cm tc ch cs vr tr es st ul po sk vs fs pr g := r in
  mkRenderer v tc ch cs vr tr es st ul po sk vs fs pr g.
Definition set_textureCache (v : gmap string TextureData) (r : ShadertoyRenderer) :=
  let 'mkRenderer cm tc ch cs vr tr es st ul po sk vs fs pr g := r in
  mkRenderer cm v ch cs vr tr es st ul po sk vs fs pr g.
Definition set_channels (v : list Channel) (r : ShadertoyRenderer) :=
  let 'mkRenderer cm tc ch cs vr tr es st ul po sk vs fs pr g := r in
  mkRenderer cm tc v cs vr tr es st ul po sk vs fs pr g.
Definition set_channelSources (v : list string) (r : ShadertoyRenderer) :=
  let 'mkRenderer cm tc ch cs vr tr es st ul po sk vs fs pr g := r in
  mkRenderer cm tc ch v vr tr es st ul po sk vs fs pr g.
Definition set_vrMode (v : bool) (r : ShadertoyRenderer) :=
  let 'mkRenderer cm tc ch cs vr tr es st ul po sk vs fs pr g := r in
  mkRenderer cm tc ch cs v tr es st ul po sk vs fs pr g.
Definition set_texRes (v : float) (r : ShadertoyRenderer) :=
  let 'mkRenderer cm tc ch cs vr tr es st ul po sk vs fs pr g := r in
  mkRenderer cm tc ch cs vr v es st ul po sk vs fs pr g.
Definition set_eyePosScale (v : float) (r : ShadertoyRenderer) :=
  let 'mkRenderer cm tc ch cs vr tr es st ul po sk vs fs pr g := r in
  mkRenderer cm tc ch cs vr tr v st ul po sk vs fs pr g.
Definition set_startTime (v : float) (r : ShadertoyRenderer) :=
  let 'mkRenderer cm tc ch cs vr tr es st ul po sk vs fs pr g := r in
  mkRenderer cm tc ch cs vr tr es v ul po sk vs fs pr g.
Definition set_uniformLambdas (v : list UniformLambda) (r : ShadertoyRenderer) :=
  let 'mkRenderer cm tc ch cs vr tr es st ul po sk vs fs pr g := r in
  mkRenderer cm tc ch cs vr tr es st v po sk vs fs pr g.
Definition set_position (v : vec3) (r : ShadertoyRenderer) :=
  let 'mkRenderer cm tc ch cs vr tr es st ul po sk vs fs pr g := r in
  mkRenderer cm tc ch cs vr tr es st ul v sk vs fs pr g.
Definition set_skybox (v : bool) (r : ShadertoyRenderer) :=
  let 'mkRenderer cm tc ch cs vr tr es st ul po sk vs fs pr g := r in
  mkRenderer cm tc ch cs vr tr es st ul po v vs fs pr g.
Definition set_vertexShader (v : option VertexShader) (r : ShadertoyRenderer) :=
  let 'mkRenderer cm tc ch cs vr tr es st ul po sk vs fs pr g := r in
  mkRenderer cm tc ch cs vr tr es st ul po sk v fs pr g.
Definition set_fragmentShader (v : option FragmentShader) (r : ShadertoyRenderer) :=
  let 'mkRenderer cm tc ch cs vr tr es st ul po sk vs fs pr g := r in
  mkRenderer cm tc ch cs vr tr es st ul po sk vs v pr g.
Definition set_shadertoyProgram (v : option Program) (r : ShadertoyRenderer) :=
  let 'mkRenderer cm tc ch cs vr tr es st ul po sk vs fs pr g := r in
  mkRenderer cm tc ch cs vr tr es st ul po sk vs fs v g.
Definition set_gl (v : GLContext) (r : ShadertoyRenderer) :=
  let 'mkRenderer cm tc ch cs vr tr es st ul po sk vs fs pr g := r in
  mkRenderer cm tc ch cs vr tr es st ul po sk vs fs pr v.

(** What a frame reads from outside the object: [Platform::elapsedSeconds()],
    [getEyePose().Position] and [textureSize()]. *)
Record FrameEnv := mkFrameEnv {
  elapsedSeconds : float;
  eyePosePosition : vec3;
  textureSize : vec2
}.

(** ** Text helpers *)

Definition newline : string := String (ascii_of_nat 10) "".

(** [%d] of a one-digit number. *)
Definition decimal_digit (i : nat) : string :=
  String (ascii_of_nat (48 + i)) "".

(** [QString::contains(needle)] *)
Fixpoint contains (needle hay : string) : bool :=
  if String.prefix needle hay then true
  else match hay with
       | EmptyString => false
       | String _ rest => contains needle rest
       end.

(** A word character of the regular expression class [\w] (ASCII). *)
Definition is_word_char (c : ascii) : bool :=
  let n := nat_of_ascii c in
  ((48 <=? n) && (n <=? 57) || (65 <=? n) && (n <=? 90)
   || (97 <=? n) && (n <=? 122) || (n =? 95))%nat.

Definition starts_with_word_char (s : string) : bool :=
  match s with
  | EmptyString => false
  | String c _ => is_word_char c
  end.

Fixpoint string_drop (n : nat) (s : string) : string :=
  match n, s with
  | O, _ => s
  | S k, EmptyString => EmptyString
  | S k, String _ rest => string_drop k rest
  end.

(** [s.replace(QRegExp("\bword\b"), by)] for a [word] made of word
    characters: every occurrence of [word] that is preceded and followed by a
    word boundary is replaced, scanning left to right.  [skip] counts the
    characters of the current match still to be dropped and [prev] tells
    whether the previous character was a word character. *)
Fixpoint replace_word_from (skip : nat) (prev : bool) (word by_ s : string)
  : string :=
  match s with
  | EmptyString => EmptyString
  | String c rest =>
      match skip with
      | S k => replace_word_from k (is_word_char c) word by_ rest
      | O =>
          if negb prev && String.prefix word s
             && negb (starts_with_word_char (string_drop (String.length word) s))
          then by_ ++ replace_word_from (String.length word - 1)
                        (is_word_char c) word by_ rest
          else String c (replace_word_from O (is_word_char c) word by_ rest)
      end
  end.

Definition replace_word (word by_ s : string) : string :=
  replace_word_from O false word by_ s.

(** [path.split("/").back()] *)
Fixpoint lastSegment (acc s : string) : string :=
  match s with
  | EmptyString => acc
  | String c rest =>
      if Ascii.eqb c "/" then lastSegment "" rest
      else lastSegment (acc ++ String c "") rest
  end.

(** [sprintf("%d", i)] and [sprintf("%02d", i)] *)
Definition printf_d (i : nat) : string := pretty i.
Definition printf_02d (i : nat) : string :=
  if (i <? 10)%nat then "0" ++ pretty i else pretty i.

(** ** The platform

    Everything the file takes from elsewhere: the constants of Shadertoy.h
    (with [TEXTURES] and [CUBEMAPS] given as the resource mnemonic of each
    entry, [None] for [NO_RESOURCE], and the pixel size of each image),
    the [USE_RIFT] build switch, the bundled vertex-shader text, the GL
    driver's compiler and linker (through oglplus), Qt's [QUrl::toLocalFile]
    and [QFile::readAll] (no bytes for a file that cannot be opened), whether
    the image decoder behind [oria::load2dTexture] accepts given bytes, and
    the value an uninitialised [Texture::Target] happens to hold. *)
Class Platform := {
  SHADER_HEADER : string;
  LINE_NUMBER_HEADER : string;
  UNIFORM_GLOBALTIME : string;
  UNIFORM_RESOLUTION : string;
  UNIFORM_POSITION : string;
  UNIFORM_CHANNELS : nat -> string;
  MAX_CHANNELS : nat;
  USE_RIFT : bool;
  TEXTURES : list (option string);
  CUBEMAPS : list (option string);
  resourceImageSize : string -> N * N;
  SHADERTOY_SHADERS_DEFAULT_VS : string;
  compileShader : ShaderKind -> string -> BuildResult unit;
  linkProgram : VertexShader -> FragmentShader -> BuildResult (gmap string N);
  toLocalFile : string -> string;
  readAll : string -> list Byte.byte;
  decodes : list Byte.byte -> bool;
  indeterminate : TextureTarget
}.

(** Modelled from the spec: [oria::load2dTexture(bytes)] is declared outside
    this file; per the spec the bytes are decoded as an image, uploaded to the
    GPU as a new texture object, and the handle returned - one call, one
    upload - while bytes that do not decode (a missing or damaged file) give
    no texture and no upload, and the slot that asked stays empty. *)
Definition load2dTexture `{P : Platform} (v : list Byte.byte) (g : GLContext)
  : option N * GLContext :=
  if decodes v
  then (Some (nextTexture g), mkGL (N.succ (nextTexture g)) (S (uploads g)))
  else (None, g).

(** Modelled from the spec: the overload [oria::load2dTexture(res, size)] for
    a bundled resource is declared outside this file; the bundled images are
    part of the build and decode, so the call is one upload of a new texture
    object. *)
Definition load2dTextureOfResource (g : GLContext) : option N * GLContext :=
  (Some (nextTexture g), mkGL (N.succ (nextTexture g)) (S (uploads g))).

(** Modelled from the spec: [oria::loadCubemapTexture] is declared outside
    this file; per the spec a cubemap is one texture object loaded as six
    ordered faces. *)
Definition loadCubemapTexture (g : GLContext) : option N * GLContext :=
  (Some (nextTexture g), mkGL (N.succ (nextTexture g)) (6 + uploads g)).

Section Renderer.
Context {P : Platform}.

(** *** initTextureCache *)

(** The three "backward compatibility" entries written for preset [i]. *)
Definition addAliases (scheme : string) (i : nat) (fileName url : string)
  (m : gmap string string) : gmap string string :=
  <["/presets/" ++ fileName := url]>
    (<[scheme ++ printf_02d i := url]>
       (<[scheme ++ printf_d i := url]> m)).

(** One iteration of the first loop; the texture comes from the overload
    [oria::load2dTexture(res, size)], which also reports the image size. *)
Definition initTexture (i : nat) (res : option string)
  (r : ShadertoyRenderer) : ShadertoyRenderer :=
  match res with
  | None => r
  | Some path =>
      let fileName := lastSegment "" path in
      let url := "qrc:/" ++ path in
      let '(t, g) := load2dTextureOfResource (gl r) in
      set_canonicalUrlMap
        (addAliases "preset://tex/" i fileName url (canonicalUrlMap r))
        (set_textureCache
           (<[url := mkTextureData t (resourceImageSize path)]> (textureCache r))
           (set_gl g r))
  end.

(** One iteration of the second loop. *)
Definition initCubemap (i : nat) (res : option string)
  (r : ShadertoyRenderer) : ShadertoyRenderer :=
  match res with
  | None => r
  | Some path =>
      let fileName := lastSegment "" path in
      let url := "qrc:/" ++ path in
      let '(t, g) := loadCubemapTexture (gl r) in
      set_canonicalUrlMap
        (addAliases "preset://cube/" i fileName url (canonicalUrlMap r))
        (set_textureCache
           (<[url := mkTextureData t (0%N, 0%N)]> (textureCache r))
           (set_gl g r))
  end.

Fixpoint initLoop (body : nat -> option string -> ShadertoyRenderer ->
                          ShadertoyRenderer)
  (i : nat) (table : list (option string)) (r : ShadertoyRenderer)
  : ShadertoyRenderer :=
  match table with
  | [] => r
  | res :: rest => initLoop body (S i) rest (body i res r)
  end.

Definition initTextureCache (r : ShadertoyRenderer) : ShadertoyRenderer :=
  initLoop initCubemap 0 CUBEMAPS (initLoop initTexture 0 TEXTURES r).

(** The object as its member initialisers leave it. *)
Definition newRenderer : ShadertoyRenderer :=
  {| canonicalUrlMap := ∅;
     textureCache := ∅;
     channels := replicate 4 (mkChannel indeterminate None);
     channelSources := replicate 4 QUrl_empty;
     vrMode := false;
     texRes := f32_1_0;
     eyePosScale := f32_1_0;
     startTime := f32_zero;
     uniformLambdas := [];
     position := vec3_zero;
     skybox := false;
     vertexShader := None;
     fragmentShader := None;
     shadertoyProgram := None;
     gl := mkGL 1 0 |}.

(** *** updateUniforms *)

(** The first loop: [glUniform1i(activeUniforms[name], i)] for every channel
    sampler that is active. *)
Definition bindSamplerUnits (active : gmap string N) (ints : gmap N Z)
  : gmap N Z :=
  foldl (fun acc i =>
           match active !! UNIFORM_CHANNELS i with
           | Some loc => <[loc := Z.of_nat i]> acc
           | None => acc
           end) ints (seq 0 4).

Definition hasTexture (chans : list Channel) (i : nat) : bool :=
  match chans !! i with
  | Some (mkChannel _ (Some _)) => true
  | _ => false
  end.

Definition isActive (active : gmap string N) (name : string) : bool :=
  bool_decide (is_Some (active !! name)).

(** The last loop: one lambda per channel whose sampler is active and whose
    slot holds a texture. *)
Definition channelLambdas (active : gmap string N) (chans : list Channel)
  : list UniformLambda :=
  flat_map (fun i =>
              if isActive active (UNIFORM_CHANNELS i) && hasTexture chans i
              then [LambdaChannel i] else []) (seq 0 4).

Definition buildLambdas (active : gmap string N) (chans : list Channel)
  : list UniformLambda :=
  (if isActive active UNIFORM_GLOBALTIME then [LambdaGlobalTime] else [])
  ++ (if isActive active UNIFORM_RESOLUTION then [LambdaResolution] else [])
  ++ (if USE_RIFT && isActive active UNIFORM_POSITION
      then [LambdaPosition] else [])
  ++ channelLambdas active chans.

(** [updateUniforms] with [shadertoyProgram] pointing to [p]. *)
Definition updateUniformsOf (p : Program) (r : ShadertoyRenderer)
  : ShadertoyRenderer :=
  let active := activeUniforms p in
  let p' := mkProgram (prog_vertex p) (prog_fragment p) active
                      (bindSamplerUnits active (uniformInts p)) in
  set_uniformLambdas (buildLambdas active (channels r))
    (set_shadertoyProgram (Some p') r).

(** [updateUniforms()]; dereferencing a null [shadertoyProgram] is undefined
    ([None]). *)
Definition updateUniforms (r : ShadertoyRenderer) : option ShadertoyRenderer :=
  match shadertoyProgram r with
  | Some p => Some (updateUniformsOf p r)
  | None => None
  end.

(** [renderSize()]: [uvec2(texRes * textureSize())]. *)
Definition renderSize (env : FrameEnv) (r : ShadertoyRenderer)
  : option (N * N) :=
  match f32_to_u32 (f32_mul (texRes r) (v2x (textureSize env))),
        f32_to_u32 (f32_mul (texRes r) (v2y (textureSize env))) with
  | Some w, Some h => Some (w, h)
  | _, _ => None
  end.

(** Running one lambda of [uniformLambdas] in the state [r] the object has at
    that moment: the GL calls it issues ([None]: undefined behaviour). *)
Definition runLambda (env : FrameEnv) (r : ShadertoyRenderer)
  (l : UniformLambda) : option (list GLCall) :=
  match l with
  | LambdaGlobalTime =>
      Some [GlUniform1f UNIFORM_GLOBALTIME
              (f32_sub (elapsedSeconds env) (startTime r))]
  | LambdaResolution =>
      match renderSize env r with
      | Some (w, h) =>
          Some [GlUniform3f UNIFORM_RESOLUTION
                  (mk_vec3 (u32_to_f32 w) (u32_to_f32 h) f32_zero)]
      | None => None
      end
  | LambdaPosition =>
      Some [GlUniform3f UNIFORM_POSITION
              (vec3_scale (vec3_add (eyePosePosition env) (position r))
                          (eyePosScale r))]
  | LambdaChannel i =>
      match channels r !! i with
      | Some ch =>
          match texture ch with
          | Some t => Some [GlActiveTexture i; GlBindTexture (target ch) t]
          | None => Some []
          end
      | None => None
      end
  end.

(** *** setShaderSourceInternal *)

Definition samplerLine (i : nat) (ch : Channel) : string :=
  "uniform sampler"
  ++ (match target ch with Target_CubeMap => "Cube" | _ => "2D" end)
  ++ " iChannel" ++ decimal_digit i ++ ";" ++ newline.

Definition shaderHeader (chans : list Channel) : string :=
  SHADER_HEADER ++ String.concat "" (imap samplerLine chans)
  ++ LINE_NUMBER_HEADER.

Definition rewriteSource (source : string) : string :=
  replace_word "textureCube" "texture"
    (replace_word "texture2D" "texture"
       (replace_word "gl_FragColor" "FragColor" source)).

(** The guarded block [if (!vertexShader) { ... }]: the pointer is assigned
    before [Compile()] can throw. *)
Definition ensureVertexShader (r : ShadertoyRenderer)
  : ShadertoyRenderer * BuildResult VertexShader :=
  match vertexShader r with
  | Some vs => (r, Built vs)
  | None =>
      match compileShader VertexKind SHADERTOY_SHADERS_DEFAULT_VS with
      | Built _ =>
          let vs := mkVertexShader SHADERTOY_SHADERS_DEFAULT_VS true in
          (set_vertexShader (Some vs) r, Built vs)
      | BuildError log =>
          let vs := mkVertexShader SHADERTOY_SHADERS_DEFAULT_VS false in
          (set_vertexShader (Some vs) r, BuildError log)
      end
  end.

(** [setShaderSourceInternal(source)]; [now] is what
    [Platform::elapsedSeconds()] returns in the success path.  The result is
    the returned [bool], the signal emitted and the object afterwards. *)
Definition setShaderSourceInternal (now : float) (source : QString)
  (r : ShadertoyRenderer) : bool * Signal * ShadertoyRenderer :=
  let r := set_position vec3_zero r in
  match ensureVertexShader r with
  | (r, BuildError log) => (false, compileError log, r)
  | (r, Built vs) =>
      let header := shaderHeader (channels r) in
      let r := set_vrMode (contains "#pragma vr" source) r in
      let fs := mkFragmentShader (header ++ rewriteSource source) in
      match compileShader FragmentKind (fs_source fs) with
      | BuildError log => (false, compileError log, r)
      | Built _ =>
          match linkProgram vs fs with
          | BuildError log => (false, compileError log, r)
          | Built active =>
              let p := mkProgram vs fs active ∅ in
              let r := set_shadertoyProgram (Some p) r in
              let r := set_skybox true r in
              let r := set_fragmentShader (Some fs) r in
              let r := updateUniformsOf p r in
              let r := set_startTime now r in
              (true, compileSuccess, r)
          end
      end
  end.

(** *** loadTexture *)

(** The loop [while (canonicalUrlMap.count(url)) url = canonicalUrlMap[url];]
    run for at most [fuel] iterations: [Some url] is the value of [url] when
    the loop exits, [None] means the loop is still running after [fuel]
    iterations. *)
Fixpoint resolveAlias (fuel : nat) (m : gmap string string) (url : string)
  : option string :=
  match m !! url with
  | None => Some url
  | Some next =>
      match fuel with
      | O => None
      | S k => resolveAlias k m next
      end
  end.

Definition loadTexture (fuel : nat) (source : QUrl) (r : ShadertoyRenderer)
  : option (option N * ShadertoyRenderer) :=
  match resolveAlias fuel (canonicalUrlMap r) source with
  | None => None
  | Some url =>
      match textureCache r !! url with
      | Some d => Some (tex d, r)
      | None =>
          let v := readAll (toLocalFile source) in
          let '(t, g) := load2dTexture v (gl r) in
          Some (t, set_gl g
                     (set_textureCache
                        (<[url := mkTextureData t (0%N, 0%N)]> (textureCache r))
                        r))
      end
  end.

(** *** setChannelTextureInternal

    [None] stands for an out-of-bounds [channel] or for an alias loop that has
    not finished within [fuel] iterations. *)
Definition setChannelTextureInternal (fuel : nat) (channel : nat)
  (type : ChannelInputType) (textureSource : QUrl) (r : ShadertoyRenderer)
  : option ShadertoyRenderer :=
  match channelSources r !! channel, channels r !! channel with
  | Some current, Some old =>
      if decide (textureSource = current) then Some r
      else
        let r := set_channelSources
                   (<[channel := textureSource]> (channelSources r)) r in
        if decide (QUrl_empty = textureSource) then
          Some (set_channels
                  (<[channel := mkChannel Target_2D None]> (channels r)) r)
        else
          match type with
          | TEXTURE =>
              match loadTexture fuel textureSource r with
              | Some (t, r) =>
                  Some (set_channels
                          (<[channel := mkChannel Target_2D t]> (channels r)) r)
              | None => None
              end
          | CUBEMAP =>
              match loadTexture fuel textureSource r with
              | Some (t, r) =>
                  Some (set_channels
                          (<[channel := mkChannel Target_CubeMap t]> (channels r))
                          r)
              | None => None
              end
          | VIDEO | AUDIO =>
              Some (set_channels
                      (<[channel := mkChannel indeterminate None]> (channels r))
                      r)
          end
  | _, _ => None
  end.

(** The loop of [setShaderInternal] over the channel indices [idx]. *)
Fixpoint setShaderChannels (fuel : nat) (idx : list nat) (shader : Shader)
  (r : ShadertoyRenderer) : option ShadertoyRenderer :=
  match idx with
  | [] => Some r
  | i :: rest =>
      match channelTypes shader !! i, channelTextures shader !! i with
      | Some ty, Some src =>
          match setChannelTextureInternal fuel i ty src r with
          | Some r => setShaderChannels fuel rest shader r
          | None => None
          end
      | _, _ => None
      end
  end.

(** [setShaderInternal(shader)] *)
Definition setShaderInternal (fuel : nat) (now : float) (shader : Shader)
  (r : ShadertoyRenderer) : option (bool * Signal * ShadertoyRenderer) :=
  match setShaderChannels fuel (seq 0 MAX_CHANNELS) shader r with
  | Some r => Some (setShaderSourceInternal now (fragmentSource shader) r)
  | None => None
  end.

End Renderer.

(** ** class ShadertoyWindow *)

(** The closures handed to [queueRenderThreadTask], one constructor per
    lambda expression, with the values each captures by copy. *)
Inductive Task :=
  | TaskChannelTextureChanged (channelIndex : nat)
      (channelType : ChannelInputType) (texturePath : QString)
  | TaskShaderSourceChanged (shaderSource : QString)
  | TaskLoadShader (shader : Shader)
  | TaskSetTexRes (newRes : float)
  | TaskSetEyePosScale (newPosScale : float)
  | TaskResetEyePosScale
  | TaskRestartShader
  | TaskSixDofMotion (tr : vec3).

(** The members of [ShadertoyWindow] that take part in the texture hand-off
    and in the queued updates.  [lastUiTexture] and [lastUiSync] are the
    function-local statics of [perFrameRender]; [tasks] is the queue behind
    [queueRenderThreadTask]; [nextSync] is the next fence object
    [glFenceSync] will return; [uiReleased] lists, oldest first, the textures
    given back through [uiWindow->releaseTexture].  The other calls into the
    offscreen UI ([setItemText], [setItemProperty], [lockTexture], [pause],
    [resume]) and the copy kept in [activeShader] do not feed back into these
    members and are left out. *)
Record ShadertoyWindow := mkWindow {
  renderer : ShadertoyRenderer;
  uiVisible : bool;
  savedEyePosScale : float;
  uiTexture : N;
  lastUiTexture : N;
  lastUiSync : N;
  textureTrash : list (N * N);
  textureDeleteQueue : list N;
  tasks : list Task;
  nextSync : N;
  uiReleased : list N
}.

Definition set_renderer (v : ShadertoyRenderer) (w : ShadertoyWindow) :=
  let 'mkWindow r vis sav ut lt ls trs dq tk ns rel := w in
  mkWindow v vis sav ut lt ls trs dq tk ns rel.
Definition set_uiVisible (v : bool) (w : ShadertoyWindow) :=
  let 'mkWindow r vis sav ut lt ls trs dq tk ns rel := w in
  mkWindow r v sav ut lt ls trs dq tk ns rel.
Definition set_savedEyePosScale (v : float) (w : ShadertoyWindow) :=
  let 'mkWindow r vis sav ut lt ls trs dq tk ns rel := w in
  mkWindow r vis v ut lt ls trs dq tk ns rel.
Definition set_uiTexture (v : N) (w : ShadertoyWindow) :=
  let 'mkWindow r vis sav ut lt ls trs dq tk ns rel := w in
  mkWindow r vis sav v lt ls trs dq tk ns rel.
Definition set_lastUiTexture (v : N) (w : ShadertoyWindow) :=
  let 'mkWindow r vis sav ut lt ls trs dq tk ns rel := w in
  mkWindow r vis sav ut v ls trs dq tk ns rel.
Definition set_lastUiSync (v : N) (w : ShadertoyWindow) :=
  let 'mkWindow r vis sav ut lt ls trs dq tk ns rel := w in
  mkWindow r vis sav ut lt v trs dq tk ns rel.
Definition set_textureTrash (v : list (N * N)) (w : ShadertoyWindow) :=
  let 'mkWindow r vis sav ut lt ls trs dq tk ns rel := w in
  mkWindow r vis sav ut lt ls v dq tk ns rel.
Definition set_textureDeleteQueue (v : list N) (w : ShadertoyWindow) :=
  let 'mkWindow r vis sav ut lt ls trs dq tk ns rel := w in
  mkWindow r vis sav ut lt ls trs v tk ns rel.
Definition set_tasks (v : list Task) (w : ShadertoyWindow) :=
  let 'mkWindow r vis sav ut lt ls trs dq tk ns rel := w in
  mkWindow r vis sav ut lt ls trs dq v ns rel.
Definition set_nextSync (v : N) (w : ShadertoyWindow) :=
  let 'mkWindow r vis sav ut lt ls trs dq tk ns rel := w in
  mkWindow r vis sav ut lt ls trs dq tk v rel.
Definition set_uiReleased (v : list N) (w : ShadertoyWindow) :=
  let 'mkWindow r vis sav ut lt ls trs dq tk ns rel := w in
  mkWindow r vis sav ut lt ls trs dq tk ns v.

(** What one call of [perFrameRender] did with the UI texture: the value
    [uiTexture.exchange(0)] returned (if the exchange ran) and the texture
    bound for compositing into [uiFramebuffer] (if any). *)
Record FrameReport := mkFrameReport {
  consumed : option N;
  composited : option N
}.

Definition queueRenderThreadTask (t : Task) (w : ShadertoyWindow)
  : ShadertoyWindow :=
  set_tasks (tasks w ++ [t]) w.

(** [uiTexture.exchange(v)]: stores [v] and returns the previous content, in
    one atomic step. *)
Definition exchangeUiTexture (newUiTexture : N) (w : ShadertoyWindow)
  : N * ShadertoyWindow :=
  (uiTexture w, set_uiTexture newUiTexture w).

(** The slot connected to [QOffscreenUi::textureUpdated]. *)
Definition onTextureUpdated (textureId : N) (w : ShadertoyWindow)
  : ShadertoyWindow :=
  let '(oldTexture, w) := exchangeUiTexture textureId w in
  if (oldTexture =? 0)%N then w
  else set_uiReleased (uiReleased w ++ [oldTexture]) w.

Definition onToggleUi (w : ShadertoyWindow) : ShadertoyWindow :=
  let w := set_uiVisible (negb (uiVisible w)) w in
  if uiVisible w then
    let w := set_savedEyePosScale (eyePosScale (renderer w)) w in
    set_renderer (set_eyePosScale f32_zero (renderer w)) w
  else
    set_renderer (set_eyePosScale (savedEyePosScale w) (renderer w)) w.

(** [float newRes = scale * texRes;] multiplies in [double] and narrows. *)
Definition scaledRes (scale : double) (res : float) : float :=
  f64_to_f32 (f64_mul scale (f32_to_f64 res)).

Definition clampRes (newRes : float) : float :=
  std_max f32_0_1 (std_min f32_1_0 newRes).

Definition onModifyTextureResolution (scale : double) (w : ShadertoyWindow)
  : ShadertoyWindow :=
  let newRes := clampRes (scaledRes scale (texRes (renderer w))) in
  if f_ne newRes (texRes (renderer w))
  then queueRenderThreadTask (TaskSetTexRes newRes) w
  else w.

Definition onModifyPositionScale (scale : double) (w : ShadertoyWindow)
  : ShadertoyWindow :=
  let newPosScale :=
    f64_to_f32 (f64_mul scale (f32_to_f64 (eyePosScale (renderer w)))) in
  queueRenderThreadTask (TaskSetEyePosScale newPosScale) w.

Definition onResetPositionScale (w : ShadertoyWindow) : ShadertoyWindow :=
  queueRenderThreadTask TaskResetEyePosScale w.

Definition onRestartShader (w : ShadertoyWindow) : ShadertoyWindow :=
  queueRenderThreadTask TaskRestartShader w.

Definition onChannelTextureChanged (channelIndex : nat)
  (channelType : ChannelInputType) (texturePath : QString)
  (w : ShadertoyWindow) : ShadertoyWindow :=
  queueRenderThreadTask
    (TaskChannelTextureChanged channelIndex channelType texturePath) w.

Definition onShaderSourceChanged (shaderSource : QString)
  (w : ShadertoyWindow) : ShadertoyWindow :=
  queueRenderThreadTask (TaskShaderSourceChanged shaderSource) w.

Definition onSixDofMotion (tr : vec3) (w : ShadertoyWindow)
  : ShadertoyWindow :=
  queueRenderThreadTask (TaskSixDofMotion tr) w.

(** [onTimer]: takes the whole delete queue and releases every texture. *)
Definition onTimer (w : ShadertoyWindow) : ShadertoyWindow :=
  let temp := textureDeleteQueue w in
  set_uiReleased (uiReleased w ++ temp) (set_textureDeleteQueue [] w).

(** The [if (uiVisible) { ... }] block of [perFrameRender]. *)
Definition consumeUiTexture (w : ShadertoyWindow)
  : FrameReport * ShadertoyWindow :=
  if uiVisible w then
    let '(exchanged, w) := exchangeUiTexture 0%N w in
    let '(currentUiTexture, w) :=
      if (exchanged =? 0)%N then (lastUiTexture w, w)
      else
        let w := if (lastUiTexture w =? 0)%N then w
                 else set_textureTrash
                        (textureTrash w ++ [(lastUiTexture w, lastUiSync w)]) w
        in (exchanged, set_lastUiTexture exchanged w) in
    if (currentUiTexture =? 0)%N
    then (mkFrameReport (Some exchanged) None, w)
    else (mkFrameReport (Some exchanged) (Some currentUiTexture),
          set_lastUiSync (nextSync w) (set_nextSync (N.succ (nextSync w)) w))
  else (mkFrameReport None None, w).

Definition signaled (result : WaitResult) : bool :=
  match result with
  | GL_ALREADY_SIGNALED | GL_CONDITION_SATISFIED => true
  | _ => false
  end.

(** The [while (!textureTrash.empty())] loop; [wait sync] is the result of
    [glClientWaitSync(sync, 0, 0)] during this call.  Returns
    [tempTextureDeleteQueue] and what stays in [textureTrash]. *)
Fixpoint drainTrash (wait : N -> WaitResult) (trash : list (N * N))
  : list N * list (N * N) :=
  match trash with
  | [] => ([], [])
  | (texture, sync) :: rest =>
      if signaled (wait sync)
      then let '(deleted, kept) := drainTrash wait rest in
           (texture :: deleted, kept)
      else ([], trash)
  end.

(** The second half of [perFrameRender]: one collection pass. *)
Definition collectTrash (wait : N -> WaitResult) (w : ShadertoyWindow)
  : ShadertoyWindow :=
  let '(tempTextureDeleteQueue, kept) := drainTrash wait (textureTrash w) in
  set_textureDeleteQueue (textureDeleteQueue w ++ tempTextureDeleteQueue)
    (set_textureTrash kept w).

Definition perFrameRender (wait : N -> WaitResult) (w : ShadertoyWindow)
  : FrameReport * ShadertoyWindow :=
  let '(report, w) := consumeUiTexture w in
  (report, collectTrash wait w).

(** The events the two threads produce, in the order in which their atomic
    steps take effect. *)
Inductive Event :=
  | EvTextureUpdated (textureId : N)
  | EvFrame (wait : N -> WaitResult)
  | EvToggleUi
  | EvTimer.

Definition step (e : Event) (w : ShadertoyWindow) : ShadertoyWindow :=
  match e with
  | EvTextureUpdated h => onTextureUpdated h w
  | EvFrame wait => snd (perFrameRender wait w)
  | EvToggleUi => onToggleUi w
  | EvTimer => onTimer w
  end.

Definition run (evs : list Event) (w : ShadertoyWindow) : ShadertoyWindow :=
  foldl (fun w e => step e w) w evs.

Section Tasks.
Context {P : Platform}.

Definition newWindow : ShadertoyWindow :=
  {| renderer := newRenderer;
     uiVisible := false;
     savedEyePosScale := f32_1_0;
     uiTexture := 0%N;
     lastUiTexture := 0%N;
     lastUiSync := 0%N;
     textureTrash := [];
     textureDeleteQueue := [];
     tasks := [];
     nextSync := 1%N;
     uiReleased := [] |}.

(** The body of each queued lambda; [now] is [Platform::elapsedSeconds()] at
    the time the task runs. *)
Definition runTask (fuel : nat) (now : float) (t : Task)
  (w : ShadertoyWindow) : option ShadertoyWindow :=
  let r := renderer w in
  match t with
  | TaskChannelTextureChanged channelIndex channelType texturePath =>
      match setChannelTextureInternal fuel channelIndex channelType
              texturePath r with
      | Some r =>
          match updateUniforms r with
          | Some r => Some (set_renderer r w)
          | None => None
          end
      | None => None
      end
  | TaskShaderSourceChanged shaderSource =>
      let '(_, _, r) := setShaderSourceInternal now shaderSource r in
      match updateUniforms r with
      | Some r => Some (set_renderer r w)
      | None => None
      end
  | TaskLoadShader shader =>
      match setShaderInternal fuel now shader r with
      | Some (_, _, r) =>
          match updateUniforms r with
          | Some r => Some (set_renderer r w)
          | None => None
          end
      | None => None
      end
  | TaskSetTexRes newRes => Some (set_renderer (set_texRes newRes r) w)
  | TaskSetEyePosScale newPosScale =>
      Some (set_renderer (set_eyePosScale newPosScale r) w)
  | TaskResetEyePosScale =>
      Some (set_renderer (set_eyePosScale f32_1_0 r) w)
  | TaskRestartShader => Some (set_renderer (set_startTime now r) w)
  | TaskSixDofMotion tr =>
      Some (set_renderer (set_position (vec3_add (position r) tr) r) w)
  end.

(** Modelled from the spec: the loop of [QRiftWindow] that runs the queued
    tasks is outside this file; per the spec the queued tasks are applied, in
    queue order, at the start of a frame. *)
Fixpoint runTasks (fuel : nat) (now : float) (ts : list Task)
  (w : ShadertoyWindow) : option ShadertoyWindow :=
  match ts with
  | [] => Some w
  | t :: rest =>
      match runTask fuel now t w with
      | Some w => runTasks fuel now rest w
      | None => None
      end
  end.

Definition drainTasks (fuel : nat) (now : float) (w : ShadertoyWindow)
  : option ShadertoyWindow :=
  runTasks fuel now (tasks w) (set_tasks [] w).

End Tasks.

(** ** Properties used in the statements *)

(** [0.1f <= x <= 1.0f] *)
Definition resInRange (x : float) : Prop :=
  f_le f32_0_1 x = true /\ f_le x f32_1_0 = true.

Definition texResTask (t : Task) : Prop :=
  match t with
  | TaskSetTexRes v => resInRange v
  | _ => True
  end.

(** The resolution scale, and every value queued for it, is in range. *)
Definition texResInv (w : ShadertoyWindow) : Prop :=
  resInRange (texRes (renderer w)) /\ Forall texResTask (tasks w).

(** Fences complete in submission order: in the queue, every entry in front
    of an entry whose fence has signaled has a signaled fence too. *)
Definition completesInOrder (wait : N -> WaitResult) (trash : list (N * N))
  : Prop :=
  forall pre p post,
    trash = (pre ++ p :: post)%list ->
    signaled (wait p.2) = true ->
    Forall (fun q => signaled (wait q.2) = true) pre.

(** [AliasChain m source url n]: following the alias table from [source]
    reaches, after [n] hops, the identifier [url], which is not an alias. *)
Inductive AliasChain (m : gmap string string) : string -> string -> nat -> Prop :=
  | chain_end url : m !! url = None -> AliasChain m url url 0
  | chain_hop source next url n :
      m !! source = Some next -> AliasChain m next url n ->
      AliasChain m source url (S n).

(** No alias target is itself an alias. *)
Definition aliasFlat (m : gmap string string) : Prop :=
  forall k v, m !! k = Some v -> m !! v = None.

Definition firstChar (s : string) : option ascii :=
  match s with
  | EmptyString => None
  | String c _ => Some c
  end.

(** Every alias target starts with the [q] of [qrc:/]; no alias does. *)
Definition aliasesPointToQrc (m : gmap string string) : Prop :=
  forall k v, m !! k = Some v ->
    firstChar v = Some "q"%char /\ firstChar k <> Some "q"%char.

(** ** A concrete platform, for examples *)

Definition demoCompile (k : ShaderKind) (src : string) : BuildResult unit :=
  if contains "#error" src
  then BuildError "0(1) : error C0000: #error directive"
  else Built tt.

Definition demoUniforms : list (string * N) :=
  [("iGlobalTime", 0%N); ("iResolution", 1%N); ("iPosition", 2%N);
   ("iChannel0", 3%N); ("iChannel1", 4%N); ("iChannel2", 5%N);
   ("iChannel3", 6%N)].

(** A uniform is active when the fragment text uses it as an argument. *)
Definition demoLink (vs : VertexShader) (fs : FragmentShader)
  : BuildResult (gmap string N) :=
  if negb (vs_compiled vs)
  then BuildError "error: vertex shader is not compiled"
  else if contains "undefined_function(" (fs_source fs)
  then BuildError "error: unresolved external undefined_function"
  else Built (list_to_map
                (List.filter (fun u => contains ("(" ++ u.1) (fs_source fs))
                   demoUniforms)).

Definition demoPlatform : Platform :=
  {| SHADER_HEADER := "#version 330" ++ newline;
     LINE_NUMBER_HEADER := "#line 1" ++ newline;
     UNIFORM_GLOBALTIME := "iGlobalTime";
     UNIFORM_RESOLUTION := "iResolution";
     UNIFORM_POSITION := "iPosition";
     UNIFORM_CHANNELS := fun i => "iChannel" ++ decimal_digit i;
     MAX_CHANNELS := 4;
     USE_RIFT := true;
     TEXTURES := [Some "textures/tex00.png"; None; Some "textures/tex02.png"];
     CUBEMAPS := [Some "cubemaps/cube00_0.png"];
     resourceImageSize := fun _ => (512%N, 512%N);
     SHADERTOY_SHADERS_DEFAULT_VS := "void main() { }";
     compileShader := demoCompile;
     linkProgram := demoLink;
     toLocalFile := fun url => url;
     readAll := fun path =>
       if String.eqb path "/home/me/wood.png"
       then [Byte.x89; Byte.x50; Byte.x4e; Byte.x47] else [];
     decodes := fun v => match v with [] => false | _ :: _ => true end;
     indeterminate := Target_Other |}.

(** An alias table with a cycle: [a -> b -> a]. *)
Definition cyclicAliases : gmap string string :=
  {[ "preset://a" := "preset://b"; "preset://b" := "preset://a" ]}.

Definition cyclicRenderer : ShadertoyRenderer :=
  set_canonicalUrlMap cyclicAliases (@newRenderer demoPlatform).

Global Instance UniformLambda_eq_dec : EqDecision UniformLambda.
Proof. solve_decision. Defined.

Section BuildSpec.
Context {P : Platform}.

(** The fragment text handed to the compiler for [source] in state [r]. *)
Definition fragmentText (source : QString) (r : ShadertoyRenderer) : string :=
  shaderHeader (channels r) ++ rewriteSource source.

(** The vertex shader a build in state [r] attaches, if it gets that far:
    the one already there, or the bundled one compiled now. *)
Definition vertexShaderFor (r : ShadertoyRenderer) : option VertexShader :=
  match vertexShader r with
  | Some vs => Some vs
  | None =>
      match compileShader VertexKind SHADERTOY_SHADERS_DEFAULT_VS with
      | Built _ => Some (mkVertexShader SHADERTOY_SHADERS_DEFAULT_VS true)
      | BuildError _ => None
      end
  end.

(** Building [source] in state [r] fails with the driver log [log]: in the
    one-time vertex-shader compile, in the fragment compile, or in the
    link. *)
Inductive BuildFails (source : QString) (r : ShadertoyRenderer)
  (log : string) : Prop :=
  | VertexCompileFails :
      vertexShader r = None ->
      compileShader VertexKind SHADERTOY_SHADERS_DEFAULT_VS = BuildError log ->
      BuildFails source r log
  | FragmentCompileFails vs :
      vertexShaderFor r = Some vs ->
      compileShader FragmentKind (fragmentText source r) = BuildError log ->
      BuildFails source r log
  | LinkFails vs u :
      vertexShaderFor r = Some vs ->
      compileShader FragmentKind (fragmentText source r) = Built u ->
      linkProgram vs (mkFragmentShader (fragmentText source r))
        = BuildError log ->
      BuildFails source r log.

(** The driver never fails with an empty info log. *)
Definition driverLogsNonEmpty : Prop :=
  (forall k src log, compileShader k src = BuildError log -> log <> "")
  /\ (forall vs fs log, linkProgram vs fs = BuildError log -> log <> "").

End BuildSpec.

Definition isChannelLambda (l : UniformLambda) : bool :=
  match l with
  | LambdaChannel _ => true
  | _ => false
  end.

(** Every lambda [updateUniforms] can push, in the order it pushes them. *)
Definition allLambdas : list UniformLambda :=
  [LambdaGlobalTime; LambdaResolution; LambdaPosition;
   LambdaChannel 0; LambdaChannel 1; LambdaChannel 2; LambdaChannel 3].

Definition countOf (l : UniformLambda) (ls : list UniformLambda) : nat :=
  count_occ UniformLambda_eq_dec ls l.

Definition oneIf (b : bool) : nat := if b then 1%nat else 0%nat.

(** ** Concrete states, for examples *)

(** A clock reading of one second and of two seconds. *)
Definition demoNow : float := f32_1_0.
Definition demoLater : float := S754_finite false 8388608 (-22).

(** The factor [0.5] as a [double]. *)
Definition demoHalf : double := S754_finite false 4503599627370496 (-53).

Definition demoEnv : FrameEnv :=
  mkFrameEnv demoNow vec3_zero (mk_vec2 f32_1_0 f32_1_0).

(** The renderer after [initTextureCache]. *)
Definition demoStartup : ShadertoyRenderer :=
  @initTextureCache demoPlatform (@newRenderer demoPlatform).

Definition demoGoodSource : string :=
  "void main() { gl_FragColor = sin(iGlobalTime) * texture2D(iChannel0, uv); }".

Definition demoBadSource : string :=
  "#pragma vr" ++ newline ++ "#error broken".

(** The renderer after a first successful build. *)
Definition demoBuilt : ShadertoyRenderer :=
  (@setShaderSourceInternal demoPlatform demoNow demoGoodSource demoStartup).2.

(** Fences below [n] have signaled, the others have not. *)
Definition waitUpTo (n : N) (sync : N) : WaitResult :=
  if (sync <? n)%N then GL_ALREADY_SIGNALED else GL_TIMEOUT_EXPIRED.

(** A window whose retirement queue holds three textures. *)
Definition demoTrashWindow : ShadertoyWindow :=
  set_textureTrash [(21%N, 1%N); (22%N, 2%N); (23%N, 3%N)]
    (@newWindow demoPlatform).

(** A publish, a frame, a second publish of the same handle, seen by a
    window whose UI has been made visible. *)
Definition demoPre : list Event := [EvToggleUi; EvTextureUpdated 7%N].
Definition demoMid : list Event := [EvFrame (waitUpTo 0); EvTextureUpdated 7%N].

(** Slot 0 bound to the bundled texture [tex00], then a shader that samples
    it is built. *)
Definition demoBound : ShadertoyRenderer :=
  match @setChannelTextureInternal demoPlatform 1 0 TEXTURE "preset://tex/00"
          demoStartup with
  | Some r => (@setShaderSourceInternal demoPlatform demoNow demoGoodSource r).2
  | None => demoStartup
  end.

(** Then slot 0 is switched to the bundled cubemap, without a rebuild. *)
Definition demoSwapped : ShadertoyRenderer :=
  match @setChannelTextureInternal demoPlatform 1 0 CUBEMAP "preset://cube/0"
          demoBound with
  | Some r => r
  | None => demoBound
  end.

Definition demoProgram : Program :=
  match shadertoyProgram demoBound with
  | Some p => p
  | None => mkProgram (mkVertexShader "" false) (mkFragmentShader "") ∅ ∅
  end.





(** Scale-change events and runs of the task queue, in any order. *)
Inductive ResolutionStep :=
  | StepModifyResolution (scale : double)
  | StepRunTasks (now : float).

Section ResolutionSteps.
Context {P : Platform}.

Fixpoint runResolutionSteps (fuel : nat) (steps : list ResolutionStep)
  (w : ShadertoyWindow) : option ShadertoyWindow :=
  match steps with
  | [] => Some w
  | StepModifyResolution scale :: rest =>
      runResolutionSteps fuel rest (onModifyTextureResolution scale w)
  | StepRunTasks now :: rest =>
      match drainTasks fuel now w with
      | Some w => runResolutionSteps fuel rest w
      | None => None
      end
  end.

End ResolutionSteps.

(** ** Further definitions: where the UI textures are *)

(** A texture name as a multiset: nothing for the null name. *)
Definition named (h : N) : gmultiset N :=
  if (h =? 0)%N then ∅ else {[+ h +]}.

(** The textures the UI thread has published with the events [evs]. *)
Fixpoint publishedBy (evs : list Event) : gmultiset N :=
  match evs with
  | [] => ∅
  | EvTextureUpdated h :: rest => named h ⊎ publishedBy rest
  | _ :: rest => publishedBy rest
  end.

(** Every place a published texture can be: the exchange slot, the texture
    retained by [perFrameRender], the retirement queue, the delete queue,
    and the textures already given back to the UI. *)
Definition heldTextures (w : ShadertoyWindow) : gmultiset N :=
  named (uiTexture w) ⊎ named (lastUiTexture w)
  ⊎ list_to_set_disj (textureTrash w).*1
  ⊎ list_to_set_disj (textureDeleteQueue w)
  ⊎ list_to_set_disj (uiReleased w).

(** The fences of the retirement queue are real fence objects, listed in the
    order [glFenceSync] created them, and the fence kept for the retained
    texture is newer than all of them. *)
Definition fencesInOrder (w : ShadertoyWindow) : Prop :=
  (0 < nextSync w)%N
  /\ StronglySorted N.lt (textureTrash w).*2
  /\ Forall (fun s => (0 < s < nextSync w)%N) (textureTrash w).*2
  /\ (lastUiTexture w <> 0%N ->
      (0 < lastUiSync w < nextSync w)%N
      /\ Forall (fun s => (s < lastUiSync w)%N) (textureTrash w).*2).

(** The driver signals fences in creation order. *)
Definition signalsInOrder (wait : N -> WaitResult) : Prop :=
  forall a b, (a <= b)%N -> signaled (wait b) = true -> signaled (wait a) = true.

(** ** Further definitions: properties of the renderer *)

(** Everything of the renderer that a channel change has no business with:
    the alias table, the shaders, the program, the lambda list and the
    scalar settings. *)
Definition sameBuild (r1 r2 : ShadertoyRenderer) : Prop :=
  canonicalUrlMap r2 = canonicalUrlMap r1
  /\ vertexShader r2 = vertexShader r1
  /\ fragmentShader r2 = fragmentShader r1
  /\ shadertoyProgram r2 = shadertoyProgram r1
  /\ uniformLambdas r2 = uniformLambdas r1
  /\ skybox r2 = skybox r1
  /\ vrMode r2 = vrMode r1
  /\ position r2 = position r1
  /\ startTime r2 = startTime r1
  /\ texRes r2 = texRes r1
  /\ eyePosScale r2 = eyePosScale r1.

(** Every alias target is in the texture cache, with a texture. *)
Definition aliasTargetsCached (r : ShadertoyRenderer) : Prop :=
  forall k v, canonicalUrlMap r !! k = Some v ->
    exists d t, textureCache r !! v = Some d /\ tex d = Some t.

(** The number of line breaks of a text. *)
Fixpoint lineBreaks (s : string) : nat :=
  match s with
  | EmptyString => O
  | String c rest =>
      ((if Ascii.eqb c (ascii_of_nat 10) then 1 else 0) + lineBreaks rest)%nat
  end.

Section Setup.
Context {P : Platform}.

(** [setup()], after [QRiftWindow::setup()]; [defaultFs] is the text of the
    bundled fragment shader [SHADERTOY_SHADERS_DEFAULT_FS] and [None] the
    failed [assert(shadertoyProgram)]. *)
Definition setup (now : float) (defaultFs : QString) (r : ShadertoyRenderer)
  : option ShadertoyRenderer :=
  let r := initTextureCache r in
  let '(_, _, r) := setShaderSourceInternal now defaultFs r in
  match shadertoyProgram r with
  | Some _ => Some (set_skybox true r)
  | None => None
  end.


(** The state every queued task relies on: a flat alias table, a program to
    read the active uniforms from, and the two four-element arrays. *)
Definition rendererReady (r : ShadertoyRenderer) : Prop :=
  aliasFlat (canonicalUrlMap r)
  /\ is_Some (shadertoyProgram r)
  /\ length (channels r) = 4%nat
  /\ length (channelSources r) = 4%nat.

End Setup.

(** What the render thread's tasks never undo: the alias table is only read,
    the texture cache only grows, a vertex shader and a program, once
    there, stay. *)
Definition keptByTasks (r r' : ShadertoyRenderer) : Prop :=
  canonicalUrlMap r' = canonicalUrlMap r
  /\ textureCache r ⊆ textureCache r'
  /\ (forall vs, vertexShader r = Some vs -> vertexShader r' = Some vs)
  /\ (is_Some (shadertoyProgram r) -> is_Some (shadertoyProgram r'))
  /\ length (channels r') = length (channels r)
  /\ length (channelSources r') = length (channelSources r).

(** The value a press of a resolution key asks for, and whether it is
    queued. *)
Definition requestedRes (res : float) (scale : double) : float :=
  clampRes (scaledRes scale res).

Definition queuedRes (res : float) (scales : list double) : list float :=
  List.filter (fun v => f_ne v res) (map (requestedRes res) scales).

(** The properties the handlers of [compileSuccess] and [compileError] set:
    the height and visibility of [errorFrame], the text of [compileErrors]
    and the [errorMargin] of [shaderTextFrame] (the items being part of the
    QML document). *)
Record ErrorPanel := mkErrorPanel {
  errorFrameHeight : Z;
  errorFrameVisible : bool;
  compileErrorsText : QString;
  errorMargin : Z
}.

Definition onCompileSignal (sig : Signal) (panel : ErrorPanel) : ErrorPanel :=
  match sig with
  | compileSuccess => mkErrorPanel 0 false "" 0
  | compileError errors => mkErrorPanel 128 true errors 8
  end.

(** ** ShadertoyFetcher *)

Definition SHADERTOY_API_URL : string :=
  "https://www.shadertoy.com/api/v1/shaders".
Definition SHADERTOY_MEDIA_URL : string :=
  "https://www.shadertoy.com/media/shaders/".

(** The range of [int]. *)
Definition INT_MAX : Z := 2147483647.
Definition INT_MIN : Z := -2147483648.

(** What the fetcher takes from outside: whether [SHADERTOY_API_KEY] is
    defined, and to what; [CONFIG_DIR.absoluteFilePath]; the strings
    [shaders.at(i).toString()] of the ["Results"] array of a reply; whether
    [QFile::open(WriteOnly)] succeeds on a path. *)
Class FetchEnv := {
  SHADERTOY_API_KEY : option string;
  absoluteFilePath : string -> string;
  resultsOf : string -> list QString;
  opensForWriting : string -> bool
}.

(** The callback [f] handed to [fetchUrl]: the file-writing lambda of
    [fetchFile] and [fetchNextShader], or the list-parsing lambda of
    [fetchNetworkShaders]. *)
Inductive ReplyHandler :=
  | SaveTo (path : QString)
  | QueueShaderIds.

(** A [QNetworkReply] whose [finished] signal has not fired yet. *)
Record NetworkReply := mkReply {
  reply_url : QUrl;
  reply_handler : ReplyHandler
}.

(** The members of [ShadertoyFetcher]; [timerActive] is the state of [timer],
    [replies] are the requests [qnam] has in flight and [files] the files of
    the file system, with their content. *)
Record ShadertoyFetcher := mkFetcher {
  shadersToFetch : list QString;
  currentNetworkRequests : Z;
  timerActive : bool;
  replies : list NetworkReply;
  files : gmap string string
}.

Definition set_shadersToFetch (q : list QString) (s : ShadertoyFetcher)
  : ShadertoyFetcher :=
  let 'mkFetcher _ n t rs fs := s in mkFetcher q n t rs fs.
Definition set_currentNetworkRequests (n : Z) (s : ShadertoyFetcher)
  : ShadertoyFetcher :=
  let 'mkFetcher q _ t rs fs := s in mkFetcher q n t rs fs.
Definition set_timerActive (t : bool) (s : ShadertoyFetcher)
  : ShadertoyFetcher :=
  let 'mkFetcher q n _ rs fs := s in mkFetcher q n t rs fs.
Definition set_replies (rs : list NetworkReply) (s : ShadertoyFetcher)
  : ShadertoyFetcher :=
  let 'mkFetcher q n t _ fs := s in mkFetcher q n t rs fs.
Definition set_files (fs : gmap string string) (s : ShadertoyFetcher)
  : ShadertoyFetcher :=
  let 'mkFetcher q n t rs _ := s in mkFetcher q n t rs fs.

(** The fetcher as its member initialisers leave it, on the file system
    [fs]. *)
Definition newFetcher (fs : gmap string string) : ShadertoyFetcher :=
  mkFetcher [] 0 false [] fs.

(** [QFile(path).exists()] *)
Definition fileExists (path : string) (s : ShadertoyFetcher) : bool :=
  bool_decide (is_Some (files s !! path)).

(** [fetchUrl(url, f)]: [++currentNetworkRequests] on an [int] ([None]: the
    increment overflows), then the request is handed to [qnam]. *)
Definition fetchUrl (url : QUrl) (f : ReplyHandler) (s : ShadertoyFetcher)
  : option ShadertoyFetcher :=
  if decide (currentNetworkRequests s = INT_MAX) then None
  else
    let s := set_currentNetworkRequests (currentNetworkRequests s + 1) s in
    Some (set_replies (replies s ++ [mkReply url f]) s).

Definition fetchFile (url : QUrl) (path : QString) (s : ShadertoyFetcher)
  : option ShadertoyFetcher :=
  fetchUrl url (SaveTo path) s.

Section Fetcher.
Context {E : FetchEnv}.

Definition shaderFileOf (nextShaderId : QString) : QString :=
  absoluteFilePath ("shadertoy/" ++ nextShaderId ++ ".json").
Definition shaderPreviewFileOf (nextShaderId : QString) : QString :=
  absoluteFilePath ("shadertoy/" ++ nextShaderId ++ ".jpg").

(** The body of the loop of [fetchNextShader] after [pop_front()]. *)
Definition fetchShader (key : string) (nextShaderId : QString)
  (s : ShadertoyFetcher) : option ShadertoyFetcher :=
  let shaderFile := shaderFileOf nextShaderId in
  let shaderPreviewFile := shaderPreviewFileOf nextShaderId in
  if fileExists shaderFile s && fileExists shaderPreviewFile s then Some s
  else
    match (if negb (fileExists shaderFile s)
           then fetchUrl (SHADERTOY_API_URL ++ "/" ++ nextShaderId
                          ++ "?key=" ++ key) (SaveTo shaderFile) s
           else Some s) with
    | Some s =>
        if negb (fileExists shaderPreviewFile s)
        then fetchFile (SHADERTOY_MEDIA_URL ++ nextShaderId ++ ".jpg")
               shaderPreviewFile s
        else Some s
    | None => None
    end.

(** The loop [while (!shadersToFetch.empty() && currentNetworkRequests <= 4)];
    [queue] is [shadersToFetch] at the loop head. *)
Fixpoint fetchLoop (key : string) (queue : list QString)
  (s : ShadertoyFetcher) : option ShadertoyFetcher :=
  match queue with
  | [] => Some s
  | nextShaderId :: rest =>
      if (currentNetworkRequests s <=? 4)%Z then
        match fetchShader key nextShaderId (set_shadersToFetch rest s) with
        | Some s => fetchLoop key rest s
        | None => None
        end
      else Some s
  end.

(** [fetchNextShader()]; without [SHADERTOY_API_KEY] its body is empty. *)
Definition fetchNextShader (s : ShadertoyFetcher) : option ShadertoyFetcher :=
  match SHADERTOY_API_KEY with
  | Some key =>
      match fetchLoop key (shadersToFetch s) s with
      | Some s =>
          Some (match shadersToFetch s with
                | [] => set_timerActive false s
                | _ :: _ => s
                end)
      | None => None
      end
  | None => Some s
  end.

(** [fetchNetworkShaders()] *)
Definition fetchNetworkShaders (s : ShadertoyFetcher)
  : option ShadertoyFetcher :=
  match SHADERTOY_API_KEY with
  | Some key =>
      fetchUrl (SHADERTOY_API_URL ++ "?key=" ++ key) QueueShaderIds s
  | None => Some s
  end.

(** The callbacks, run on the reply's bytes. *)
Definition runHandler (f : ReplyHandler) (replyBuffer : string)
  (s : ShadertoyFetcher) : ShadertoyFetcher :=
  match f with
  | SaveTo path =>
      if opensForWriting path
      then set_files (<[path := replyBuffer]> (files s)) s
      else s
  | QueueShaderIds =>
      set_timerActive true
        (set_shadersToFetch (shadersToFetch s ++ resultsOf replyBuffer) s)
  end.

(** The lambda connected to [QNetworkReply::finished] for the [i]-th request
    in flight, whose reply holds [replyBuffer]: [--currentNetworkRequests]
    ([None]: the decrement overflows), then the callback. *)
Definition onFinished (i : nat) (replyBuffer : string) (s : ShadertoyFetcher)
  : option ShadertoyFetcher :=
  match replies s !! i with
  | None => Some s
  | Some reply =>
      if decide (currentNetworkRequests s = INT_MIN) then None
      else
        let s := set_currentNetworkRequests (currentNetworkRequests s - 1) s in
        let s := set_replies (delete i (replies s)) s in
        Some (runHandler (reply_handler reply) replyBuffer s)
  end.

(** What happens to a fetcher: a call of [fetchNetworkShaders], a timeout of
    [timer] (which fires only while the timer runs), a reply that finishes. *)
Inductive FetcherEvent :=
  | EvFetchNetworkShaders
  | EvTimeout
  | EvFinished (i : nat) (replyBuffer : string).

Definition fetcherStep (e : FetcherEvent) (s : ShadertoyFetcher)
  : option ShadertoyFetcher :=
  match e with
  | EvFetchNetworkShaders => fetchNetworkShaders s
  | EvTimeout => if timerActive s then fetchNextShader s else Some s
  | EvFinished i replyBuffer => onFinished i replyBuffer s
  end.

Fixpoint fetcherRun (evs : list FetcherEvent) (s : ShadertoyFetcher)
  : option ShadertoyFetcher :=
  match evs with
  | [] => Some s
  | e :: rest =>
      match fetcherStep e s with
      | Some s => fetcherRun rest s
      | None => None
      end
  end.

(** The requests [fetchNextShader] issues for one shader id: one per missing
    file, the shader before its preview. *)
Definition requestsFor (key : string) (fs : gmap string string)
  (nextShaderId : QString) : list NetworkReply :=
  (if bool_decide (is_Some (fs !! shaderFileOf nextShaderId)) then []
   else [mkReply (SHADERTOY_API_URL ++ "/" ++ nextShaderId ++ "?key=" ++ key)
           (SaveTo (shaderFileOf nextShaderId))])
  ++ (if bool_decide (is_Some (fs !! shaderPreviewFileOf nextShaderId)) then []
      else [mkReply (SHADERTOY_MEDIA_URL ++ nextShaderId ++ ".jpg")
              (SaveTo (shaderPreviewFileOf nextShaderId))]).

End Fetcher.

(** [currentNetworkRequests] is the number of requests in flight. *)
Definition counterMatches (s : ShadertoyFetcher) : Prop :=
  currentNetworkRequests s = Z.of_nat (length (replies s)).

(** The calls of [fetchNetworkShaders] among the events. *)
Definition listRequests (evs : list FetcherEvent) : Z :=
  Z.of_nat (length (List.filter (fun e => match e with
                                          | EvFetchNetworkShaders => true
                                          | _ => false
                                          end) evs)).

(** A fetcher environment: a key, files under [/cfg/], the ids of a reply
    one per line, every file writable. *)
Fixpoint linesOf (acc s : string) : list string :=
  match s with
  | EmptyString => if decide (acc = "") then [] else [acc]
  | String c rest =>
      if Ascii.eqb c (ascii_of_nat 10) then acc :: linesOf "" rest
      else linesOf (acc ++ String c "") rest
  end.

Definition demoFetchEnv : FetchEnv :=
  {| SHADERTOY_API_KEY := Some "k3y";
     absoluteFilePath := fun p => "/cfg/" ++ p;
     resultsOf := linesOf "";
     opensForWriting := fun _ => true |}.

(** Two ids queued, the shader file of the first already there, four
    requests in flight. *)
Definition demoFetcher : ShadertoyFetcher :=
  mkFetcher ["Xs1"; "Md2"; "4dX"] 4 true
    [mkReply "u1" QueueShaderIds; mkReply "u2" (SaveTo "/cfg/a");
     mkReply "u3" (SaveTo "/cfg/b"); mkReply "u4" (SaveTo "/cfg/c")]
    {[ "/cfg/shadertoy/Xs1.json" := "{}" ]}.

(** ** Further concrete states *)

(** Slot 0 of the start-up renderer set through a legacy identifier. *)
Definition demoLegacySet : ShadertoyRenderer :=
  match @setChannelTextureInternal demoPlatform 1 0 TEXTURE "preset://tex/00"
          demoStartup with
  | Some r => r
  | None => demoStartup
  end.

(** The same change on the renderer that has a program: the lambda list is
    stale until [updateUniforms] runs. *)
Definition demoStale : ShadertoyRenderer :=
  match @setChannelTextureInternal demoPlatform 1 0 TEXTURE "preset://tex/00"
          demoBuilt with
  | Some r => r
  | None => demoBuilt
  end.

Definition demoRefreshed : ShadertoyRenderer :=
  match @updateUniforms demoPlatform demoStale with
  | Some r => r
  | None => demoStale
  end.

(** A shader with a texture, a cubemap and two unset channels. *)
Definition demoShader : Shader :=
  {| channelTypes := [TEXTURE; CUBEMAP; TEXTURE; TEXTURE];
     channelTextures := ["preset://tex/00"; "preset://cube/00"; ""; ""];
     fragmentSource := demoGoodSource |}.

Definition demoLoaded : bool * Signal * ShadertoyRenderer :=
  match @setShaderInternal demoPlatform 1 demoNow demoShader demoStartup with
  | Some result => result
  | None => (false, compileSuccess, demoStartup)
  end.

(** A window whose renderer has been set up, and a queue of tasks. *)
Definition demoReadyWindow : ShadertoyWindow :=
  set_renderer demoBuilt (@newWindow demoPlatform).

Definition demoTasks : list Task :=
  [TaskChannelTextureChanged 0 TEXTURE "preset://tex/00";
   TaskShaderSourceChanged demoBadSource;
   TaskSetTexRes f32_0_1;
   TaskLoadShader demoShader;
   TaskRestartShader].

Definition demoAfterTasks : ShadertoyWindow :=
  match @runTasks demoPlatform 1 demoLater demoTasks demoReadyWindow with
  | Some w => w
  | None => demoReadyWindow
  end.

(** Three textures published to a visible UI, a frame after each. *)
Definition demoFrames : list Event :=
  [EvToggleUi; EvTextureUpdated 7; EvFrame (waitUpTo 0);
   EvTextureUpdated 8; EvFrame (waitUpTo 0);
   EvTextureUpdated 9; EvFrame (waitUpTo 0)].

(** A list request, a tick, the list reply, two more ticks. *)
Definition demoFetchEvents : list FetcherEvent :=
  [EvFetchNetworkShaders; EvTimeout;
   EvFinished 4 ("ldX" ++ newline ++ "Xs1"); EvTimeout;
   EvFinished 0 ""; EvFinished 0 "{}"; EvTimeout].

Definition demoFetched : ShadertoyFetcher :=
  match @fetcherRun demoFetchEnv demoFetchEvents demoFetcher with
  | Some s => s
  | None => demoFetcher
  end.

(** After the frame that consumed a texture: a frame and a timer tick, with
    nothing published. *)
Definition demoQuiet : list Event := [EvFrame (waitUpTo 0); EvTimer].

(** The concrete platform with another shader compiler. *)
Definition withCompiler (compile : ShaderKind -> string -> BuildResult unit)
  : Platform :=
  {| SHADER_HEADER := @SHADER_HEADER demoPlatform;
     LINE_NUMBER_HEADER := @LINE_NUMBER_HEADER demoPlatform;
     UNIFORM_GLOBALTIME := @UNIFORM_GLOBALTIME demoPlatform;
     UNIFORM_RESOLUTION := @UNIFORM_RESOLUTION demoPlatform;
     UNIFORM_POSITION := @UNIFORM_POSITION demoPlatform;
     UNIFORM_CHANNELS := @UNIFORM_CHANNELS demoPlatform;
     MAX_CHANNELS := @MAX_CHANNELS demoPlatform;
     USE_RIFT := @USE_RIFT demoPlatform;
     TEXTURES := @TEXTURES demoPlatform;
     CUBEMAPS := @CUBEMAPS demoPlatform;
     resourceImageSize := @resourceImageSize demoPlatform;
     SHADERTOY_SHADERS_DEFAULT_VS := @SHADERTOY_SHADERS_DEFAULT_VS demoPlatform;
     compileShader := compile;
     linkProgram := @linkProgram demoPlatform;
     toLocalFile := @toLocalFile demoPlatform;
     readAll := @readAll demoPlatform;
     decodes := @decodes demoPlatform;
     indeterminate := @indeterminate demoPlatform |}.

(** A driver that rejects what [demoCompile] rejects, with an empty info
    log. *)
Definition silentPlatform : Platform :=
  withCompiler (fun _ src =>
                  if contains "#error" src then BuildError "" else Built tt).

(** The renderer after start-up and a first successful build on that
    driver. *)
Definition silentBuilt : ShadertoyRenderer :=
  (@setShaderSourceInternal silentPlatform demoNow demoGoodSource
     (@initTextureCache silentPlatform (@newRenderer silentPlatform))).2.

(** A driver that does not compile the bundled vertex shader. *)
Definition noVertexPlatform : Platform :=
  withCompiler (fun kind src =>
                  match kind with
                  | VertexKind => BuildError "0(1) : error C0000: no vertex stage"
                  | FragmentKind => demoCompile kind src
                  end).

Definition noVertexStartup : ShadertoyRenderer :=
  @initTextureCache noVertexPlatform (@newRenderer noVertexPlatform).

(** A source that asks for the immersive mode. *)
Definition demoVrSource : string :=
  "#pragma vr" ++ newline ++ "void main() { gl_FragColor = vec4(1.0); }".

(** The built renderer after the viewer has moved. *)
Definition demoMoved : ShadertoyRenderer :=
  set_position (mk_vec3 f32_1_0 f32_zero f32_0_1) demoBuilt.

(** The window after one halving of the resolution scale has been applied. *)
Definition demoHalved : ShadertoyWindow :=
  match @drainTasks demoPlatform 1 demoNow
          (onModifyTextureResolution demoHalf (@newWindow demoPlatform)) with
  | Some w => w
  | None => @newWindow demoPlatform
  end.


Open Scope list_scope.

Section Handoff.

Lemma run_app evs1 evs2 w : run (evs1 ++ evs2) w = run evs2 (run evs1 w).
Proof. unfold run. apply foldl_app. Qed.

Lemma consumeUiTexture_consumed w :
  consumed (consumeUiTexture w).1
  = if uiVisible w then Some (uiTexture w) else None.
Proof.
  unfold consumeUiTexture, exchangeUiTexture. destruct w; cbn.
  repeat case_match; simplify_eq; done.
Qed.

Lemma perFrameRender_report wait w :
  (perFrameRender wait w).1 = (consumeUiTexture w).1.
Proof. unfold perFrameRender. by destruct (consumeUiTexture w). Qed.

Lemma collectTrash_frame wait w :
  uiTexture (collectTrash wait w) = uiTexture w
  /\ lastUiTexture (collectTrash wait w) = lastUiTexture w
  /\ uiVisible (collectTrash wait w) = uiVisible w.
Proof.
  unfold collectTrash. destruct (drainTrash wait (textureTrash w)).
  by destruct w.
Qed.

Lemma consumeUiTexture_slot w :
  uiTexture (consumeUiTexture w).2
  = if uiVisible w then 0%N else uiTexture w.
Proof.
  unfold consumeUiTexture, exchangeUiTexture. destruct w; cbn.
  repeat case_match; simplify_eq; done.
Qed.

(** The slot after one event. *)
Lemma step_uiTexture e w :
  uiTexture (step e w)
  = match e with
    | EvTextureUpdated h => h
    | EvFrame _ => if uiVisible w then 0%N else uiTexture w
    | _ => uiTexture w
    end.
Proof.
  destruct e as [h|wait| |]; cbn.
  - unfold onTextureUpdated, exchangeUiTexture. destruct w; cbn.
    by case_match.
  - unfold perFrameRender.
    pose proof (consumeUiTexture_slot w) as Hs.
    destruct (consumeUiTexture w) as [rep w1]; cbn in *.
    by rewrite (proj1 (collectTrash_frame wait w1)).
  - unfold onToggleUi. destruct w; cbn. by case_match.
  - unfold onTimer. by destruct w.
Qed.

(** Whatever the slot holds was either there at the start, or is the empty
    handle, or was published on the way. *)
Lemma run_uiTexture evs w :
  uiTexture (run evs w) = uiTexture w
  \/ uiTexture (run evs w) = 0%N
  \/ EvTextureUpdated (uiTexture (run evs w)) ∈ evs.
Proof.
  revert w. induction evs as [|e evs IH]; intros w; [by left|].
  change (run (e :: evs) w) with (run evs (step e w)).
  destruct (IH (step e w)) as [Heq|[Hz|Hin]].
  - rewrite Heq, step_uiTexture.
    destruct e; try (by left).
    + right; right. apply list_elem_of_here.
    + destruct (uiVisible w); [right; by left | by left].
  - right; by left.
  - right; right. by apply list_elem_of_further.
Qed.

Lemma perFrameRender_lastUiTexture wait w :
  lastUiTexture (perFrameRender wait w).2
  = lastUiTexture (consumeUiTexture w).2.
Proof.
  unfold perFrameRender. destruct (consumeUiTexture w) as [rep w1]. cbn.
  apply collectTrash_frame.
Qed.

(** A frame that finds a handle in the slot retains it and composites it. *)
Lemma perFrameRender_retains wait w h :
  uiVisible w = true -> uiTexture w = h -> h <> 0%N ->
  lastUiTexture (perFrameRender wait w).2 = h
  /\ composited (perFrameRender wait w).1 = Some h.
Proof.
  intros Hv Hh Hnz. apply N.eqb_neq in Hnz as Hb.
  rewrite perFrameRender_lastUiTexture, perFrameRender_report.
  unfold consumeUiTexture, exchangeUiTexture.
  destruct w as [r vis sav slot kept ls trs dq tk ns rel]; cbn in *.
  subst vis slot. cbn. rewrite Hb. destruct (kept =? 0)%N; cbn; by rewrite Hb.
Qed.

(** A frame that finds the slot empty keeps what it has retained. *)
Lemma perFrameRender_keeps wait w :
  uiVisible w = true -> uiTexture w = 0%N ->
  lastUiTexture (perFrameRender wait w).2 = lastUiTexture w
  /\ composited (perFrameRender wait w).1
     = if (lastUiTexture w =? 0)%N then None else Some (lastUiTexture w).
Proof.
  intros Hv Hz.
  rewrite perFrameRender_lastUiTexture, perFrameRender_report.
  unfold consumeUiTexture, exchangeUiTexture.
  destruct w as [r vis sav slot kept ls trs dq tk ns rel]; cbn in *.
  subst vis slot. cbn. by destruct (kept =? 0)%N.
Qed.

(** Without a publish the slot stays empty and the retained handle stays. *)
Lemma step_keeps_retained e w :
  (forall t, e <> EvTextureUpdated t) -> uiTexture w = 0%N ->
  uiTexture (step e w) = 0%N
  /\ lastUiTexture (step e w) = lastUiTexture w.
Proof.
  intros Hne Hz. split.
  - rewrite step_uiTexture. destruct e as [t|wait| |]; try done.
    + by destruct (Hne t).
    + by destruct (uiVisible w).
  - destruct e as [t|wait| |]; cbn.
    + by destruct (Hne t).
    + destruct (uiVisible w) eqn:Hv.
      * by apply perFrameRender_keeps.
      * rewrite perFrameRender_lastUiTexture.
        unfold consumeUiTexture. by rewrite Hv.
    + unfold onToggleUi. destruct w; cbn. by case_match.
    + unfold onTimer. by destruct w.
Qed.

Lemma run_keeps_retained evs w :
  (forall t, EvTextureUpdated t ∉ evs) -> uiTexture w = 0%N ->
  uiTexture (run evs w) = 0%N
  /\ lastUiTexture (run evs w) = lastUiTexture w.
Proof.
  revert w. induction evs as [|e evs IH]; intros w Hno Hz; [done|].
  change (run (e :: evs) w) with (run evs (step e w)).
  destruct (step_keeps_retained e w) as [Hz1 Hl1]; [|done|].
  { intros t ->. apply (Hno t), list_elem_of_here. }
  destruct (IH (step e w)) as [Hz2 Hl2]; [|done|].
  { intros t Hin. apply (Hno t). by apply list_elem_of_further. }
  split; [done | congruence].
Qed.

Lemma perFrameRender_consumed wait w :
  consumed (perFrameRender wait w).1
  = if uiVisible w then Some (uiTexture w) else None.
Proof. by rewrite perFrameRender_report, consumeUiTexture_consumed. Qed.

(** C1: the single-slot hand-off of the UI texture, for every interleaving
    [pre], frame, [mid], frame of publishes ([EvTextureUpdated], which calls
    [exchangeUiTexture]) and render frames starting from an empty slot.  A
    consume returns the empty handle or a handle published before it; a
    non-empty handle returned by two consumes was published again in
    between; a consume that yields the empty handle leaves the retained
    [lastUiTexture] as it is and composites that texture; a consume that
    yields a non-empty handle retains it as [lastUiTexture] and composites
    it; and as long as nothing is published after that, the renderer still
    retains that handle, and a later frame with the UI visible consumes the
    empty handle and composites the retained one. *)
Theorem ui_texture_handoff (w0 : ShadertoyWindow) (pre mid : list Event)
  (wait wait' : N -> WaitResult) (h : N) :
  uiTexture w0 = 0%N ->
  let w1 := run pre w0 in
  let w2 := run (pre ++ EvFrame wait :: mid) w0 in
  (consumed (perFrameRender wait w1).1 = Some h ->
     h = 0%N \/ EvTextureUpdated h ∈ pre)
  /\ (consumed (perFrameRender wait w1).1 = Some h ->
      consumed (perFrameRender wait' w2).1 = Some h ->
      h <> 0%N -> EvTextureUpdated h ∈ mid)
  /\ (consumed (perFrameRender wait w1).1 = Some 0%N ->
      lastUiTexture (perFrameRender wait w1).2 = lastUiTexture w1
      /\ composited (perFrameRender wait w1).1
         = if (lastUiTexture w1 =? 0)%N then None
           else Some (lastUiTexture w1))
  /\ (consumed (perFrameRender wait w1).1 = Some h -> h <> 0%N ->
      lastUiTexture (perFrameRender wait w1).2 = h
      /\ composited (perFrameRender wait w1).1 = Some h)
  /\ (consumed (perFrameRender wait w1).1 = Some h -> h <> 0%N ->
      (forall t, EvTextureUpdated t ∉ mid) ->
      lastUiTexture w2 = h
      /\ (uiVisible w2 = true ->
          consumed (perFrameRender wait' w2).1 = Some 0%N
          /\ composited (perFrameRender wait' w2).1 = Some h
          /\ lastUiTexture (perFrameRender wait' w2).2 = h)).
Proof.
  intros Hw0 w1 w2. rewrite !perFrameRender_consumed.
  split; [|split; [|split; [|split]]].
  - destruct (uiVisible w1); [|done]. intros [= <-].
    destruct (run_uiTexture pre w0) as [Heq|[Hz|Hin]]; subst w1.
    + left. congruence.
    + by left.
    + by right.
  - destruct (uiVisible w1) eqn:Hv1; [|done]. intros _.
    destruct (uiVisible w2); [|done]. intros [= <-] Hnz.
    subst w2. rewrite run_app in *.
    change (run (EvFrame wait :: mid) (run pre w0))
      with (run mid (step (EvFrame wait) w1)) in *.
    destruct (run_uiTexture mid (step (EvFrame wait) w1)) as [Heq|[Hz|Hin]].
    + rewrite step_uiTexture, Hv1 in Heq. done.
    + done.
    + done.
  - destruct (uiVisible w1) eqn:Hv1; [|done]. intros [= Hz].
    by apply perFrameRender_keeps.
  - destruct (uiVisible w1) eqn:Hv1; [|done]. intros [= Hh] Hnz.
    by apply perFrameRender_retains.
  - destruct (uiVisible w1) eqn:Hv1; [|done]. intros [= Hh] Hnz Hno.
    assert (Hw2 : w2 = run mid (step (EvFrame wait) w1)).
    { subst w2 w1. by rewrite run_app. }
    destruct (perFrameRender_retains wait w1 h Hv1 Hh Hnz) as [Hlast _].
    assert (Hslot : uiTexture (step (EvFrame wait) w1) = 0%N).
    { by rewrite step_uiTexture, Hv1. }
    destruct (run_keeps_retained mid _ Hno Hslot) as [Hz2 Hl2].
    rewrite <- Hw2 in Hz2, Hl2.
    assert (Hl : lastUiTexture w2 = h).
    { rewrite Hl2. exact Hlast. }
    split; [done|]. intros Hv2. rewrite Hv2, Hz2. split; [done|].
    destruct (perFrameRender_keeps wait' w2 Hv2 Hz2) as [Hk Hc].
    rewrite Hl in Hk, Hc. apply N.eqb_neq in Hnz. rewrite Hnz in Hc. done.
Qed.

End Handoff.



Section Trash.

Lemma drainTrash_prefix wait trash :
  trash.*1 = (drainTrash wait trash).1 ++ ((drainTrash wait trash).2).*1.
Proof.
  induction trash as [|[t s] rest IH]; cbn; [done|].
  destruct (signaled (wait s)); [|done].
  destruct (drainTrash wait rest) as [d k]; cbn in *. by rewrite IH.
Qed.

(** The loop stops at the first entry whose fence is still pending. *)
Lemma drainTrash_stops wait trash :
  match (drainTrash wait trash).2 with
  | [] => True
  | q :: _ => signaled (wait q.2) = false
  end.
Proof.
  induction trash as [|[t s] rest IH]; cbn; [done|].
  destruct (signaled (wait s)) eqn:Hs; [|done].
  by destruct (drainTrash wait rest).
Qed.

Lemma drainTrash_pending wait pre post h f :
  h ∉ pre.*1 -> signaled (wait f) = false ->
  (h ∉ (drainTrash wait (pre ++ (h, f) :: post)).1)
  /\ ((h, f) ∈ (drainTrash wait (pre ++ (h, f) :: post)).2).
Proof.
  intros Hpre Hf. induction pre as [|[t s] pre IH]; cbn.
  - rewrite Hf. cbn. split; [apply not_elem_of_nil | apply list_elem_of_here].
  - cbn in Hpre. apply not_elem_of_cons in Hpre as [Hne Hpre].
    destruct (signaled (wait s)); cbn.
    + destruct (drainTrash wait (pre ++ (h, f) :: post)) as [d k]; cbn in *.
      destruct (IH Hpre) as [Hd Hk]. split; [|done].
      apply not_elem_of_cons. done.
    + split; [apply not_elem_of_nil|].
      apply list_elem_of_further, elem_of_app. right. apply list_elem_of_here.
Qed.

Lemma drainTrash_signaled wait pre post h f :
  Forall (fun q => signaled (wait q.2) = true) pre ->
  signaled (wait f) = true ->
  drainTrash wait (pre ++ (h, f) :: post)
  = ((pre.*1 ++ h :: (drainTrash wait post).1)%list, (drainTrash wait post).2).
Proof.
  intros Hpre Hf. induction Hpre as [|[t s] pre Hs Hpre IH]; cbn in *.
  - rewrite Hf. by destruct (drainTrash wait post).
  - rewrite Hs, IH. done.
Qed.

Lemma count_occ_not_elem (l : list N) h : h ∉ l -> count_occ N.eq_dec l h = 0%nat.
Proof.
  intros Hn. apply count_occ_not_In. by rewrite <- list_elem_of_In.
Qed.

(** C2: one collection pass over the retirement queue.  The handles the pass
    appends to the delete queue are a front segment of the retirement queue,
    in queue order (a later-retired handle is never emitted without every
    earlier one in front of it), and the entry left at the head, if any, has
    a pending fence.  For a handle [h] queued once, with fence
    [f]: while [f] has not signaled the pass does not emit [h] and [h] stays
    queued; once [f] has signaled (fences completing in submission order)
    the pass emits [h] exactly once and [h] leaves the queue, so that no
    later pass emits it again. *)
Theorem trash_collection_is_fifo (wait : N -> WaitResult)
  (w : ShadertoyWindow) (pre post : list (N * N)) (h f : N) :
  textureTrash w = (pre ++ (h, f) :: post)%list ->
  h ∉ (pre ++ post).*1 ->
  let w' := collectTrash wait w in
  exists out : list N,
    textureDeleteQueue w' = (textureDeleteQueue w ++ out)%list
    /\ (textureTrash w).*1 = (out ++ (textureTrash w').*1)%list
    /\ match textureTrash w' with
       | [] => True
       | q :: _ => signaled (wait q.2) = false
       end
    /\ (signaled (wait f) = false ->
        (h ∉ out) /\ ((h, f) ∈ textureTrash w'))
    /\ (signaled (wait f) = true ->
        completesInOrder wait (textureTrash w) ->
        count_occ N.eq_dec out h = 1%nat
        /\ (h ∉ (textureTrash w').*1)
        /\ forall wait', h ∉ (drainTrash wait' (textureTrash w')).1).
Proof.
  intros Htrash Hfresh w'.
  rewrite fmap_app in Hfresh. apply not_elem_of_app in Hfresh as [Hpre Hpost].
  exists (drainTrash wait (textureTrash w)).1.
  assert (Hq : textureDeleteQueue w'
               = (textureDeleteQueue w ++ (drainTrash wait (textureTrash w)).1)%list
               /\ textureTrash w' = (drainTrash wait (textureTrash w)).2).
  { subst w'. unfold collectTrash.
    destruct (drainTrash wait (textureTrash w)) as [d k]. by destruct w. }
  destruct Hq as [Hq Hk]. rewrite Hk. split; [done|].
  split; [apply drainTrash_prefix|].
  split; [apply drainTrash_stops|].
  rewrite Htrash. split.
  - intros Hf. by apply drainTrash_pending.
  - intros Hf Hord.
    specialize (Hord pre (h, f) post eq_refl Hf).
    rewrite (drainTrash_signaled _ _ _ _ _ Hord Hf); cbn.
    pose proof (drainTrash_prefix wait post) as Hpp.
    assert (Hd : h ∉ (drainTrash wait post).1).
    { intros Hin. apply Hpost. rewrite Hpp. apply elem_of_app. by left. }
    assert (Hkk : h ∉ ((drainTrash wait post).2).*1).
    { intros Hin. apply Hpost. rewrite Hpp. apply elem_of_app. by right. }
    split_and!; [|done|].
    + rewrite count_occ_app, (count_occ_not_elem _ _ Hpre). cbn.
      destruct (N.eq_dec h h); [|done].
      by rewrite (count_occ_not_elem _ _ Hd).
    + intros wait' Hin. apply Hkk.
      rewrite (drainTrash_prefix wait'). apply elem_of_app. by left.
Qed.

End Trash.

Section Alias.
Context {P : Platform}.

(** When the loop exits, [url] is not an alias. *)
Lemma resolveAlias_fixed fuel m source url :
  resolveAlias fuel m source = Some url -> m !! url = None.
Proof.
  revert source. induction fuel as [|fuel IH]; intros source; cbn.
  - destruct (m !! source) eqn:Hs; [done|]. by intros [= <-].
  - destruct (m !! source) eqn:Hs; [apply IH|]. by intros [= <-].
Qed.

(** More iterations do not change an exit that was already reached. *)
Lemma resolveAlias_mono fuel fuel' m source url :
  resolveAlias fuel m source = Some url -> (fuel <= fuel')%nat ->
  resolveAlias fuel' m source = Some url.
Proof.
  revert fuel' source. induction fuel as [|fuel IH]; intros fuel' source.
  - cbn. destruct (m !! source) eqn:Hs; [done|]. intros [= <-] _.
    destruct fuel'; cbn; by rewrite Hs.
  - cbn. destruct (m !! source) eqn:Hs.
    + intros Hr Hle. destruct fuel' as [|fuel']; [lia|]. cbn. rewrite Hs.
      apply IH; [done|lia].
    + intros [= <-] _. destruct fuel'; cbn; by rewrite Hs.
Qed.

(** The loop exits within [fuel] iterations exactly when the alias chain
    from [source] ends within [fuel] hops. *)
Lemma resolveAlias_chain fuel m source url :
  resolveAlias fuel m source = Some url
  <-> exists n, (n <= fuel)%nat /\ AliasChain m source url n.
Proof.
  split.
  - revert source. induction fuel as [|fuel IH]; intros source; cbn;
      destruct (m !! source) as [next|] eqn:Hs; try done.
    + intros [= <-]. exists 0%nat. split; [lia | by constructor].
    + intros Hr. destruct (IH _ Hr) as (n & Hn & Hc).
      exists (S n). split; [lia | by econstructor].
    + intros [= <-]. exists 0%nat. split; [lia | by constructor].
  - intros (n & Hn & Hc). revert fuel Hn.
    induction Hc as [url Hu | source next url n Hs Hc IH]; intros fuel Hn.
    + destruct fuel; cbn; by rewrite Hu.
    + destruct fuel as [|fuel]; [lia|]. cbn. rewrite Hs. apply IH. lia.
Qed.

Lemma resolveAlias_flat m source :
  aliasFlat m ->
  exists url, resolveAlias 1 m source = Some url /\ m !! url = None
              /\ (url = source \/ m !! source = Some url).
Proof.
  intros Hflat. cbn. destruct (m !! source) as [next|] eqn:Hs.
  - exists next. rewrite (Hflat _ _ Hs). eauto.
  - exists source. eauto.
Qed.

Lemma aliasesPointToQrc_flat m : aliasesPointToQrc m -> aliasFlat m.
Proof.
  intros Hinv k v Hkv. destruct (m !! v) as [v'|] eqn:Hv; [|done].
  destruct (Hinv _ _ Hkv) as [Hq _]. destruct (Hinv _ _ Hv) as [_ Hnq]. done.
Qed.

Lemma addAliases_pointToQrc scheme i fileName path m :
  firstChar scheme <> Some "q"%char -> scheme <> "" ->
  aliasesPointToQrc m ->
  aliasesPointToQrc (addAliases scheme i fileName ("qrc:/" ++ path) m).
Proof.
  intros Hs Hne Hm k v. unfold addAliases.
  assert (Hk : forall rest, firstChar (scheme ++ rest) <> Some "q"%char).
  { intros rest. destruct scheme; [done|]. exact Hs. }
  rewrite !lookup_insert_Some.
  intros [[<- <-]|[_ [[<- <-]|[_ [[<- <-]|[_ Hkv]]]]]]; try by apply Hm.
  - split; [done|]. cbn. discriminate.
  - split; [done|]. apply Hk.
  - split; [done|]. apply Hk.
Qed.

Lemma initTexture_pointToQrc i res r :
  aliasesPointToQrc (canonicalUrlMap r) ->
  aliasesPointToQrc (canonicalUrlMap (initTexture i res r)).
Proof.
  intros Hr. unfold initTexture, load2dTextureOfResource.
  destruct res as [path|]; [|done].
  destruct r; cbn in *. apply addAliases_pointToQrc; [cbn; discriminate|done|done].
Qed.

Lemma initCubemap_pointToQrc i res r :
  aliasesPointToQrc (canonicalUrlMap r) ->
  aliasesPointToQrc (canonicalUrlMap (initCubemap i res r)).
Proof.
  intros Hr. unfold initCubemap, loadCubemapTexture.
  destruct res as [path|]; [|done].
  destruct r; cbn in *. apply addAliases_pointToQrc; [cbn; discriminate|done|done].
Qed.

Lemma initLoop_pointToQrc body i table r :
  (forall i res r, aliasesPointToQrc (canonicalUrlMap r) ->
                   aliasesPointToQrc (canonicalUrlMap (body i res r))) ->
  aliasesPointToQrc (canonicalUrlMap r) ->
  aliasesPointToQrc (canonicalUrlMap (initLoop body i table r)).
Proof.
  intros Hbody. revert i r. induction table as [|res rest IH]; intros i r Hr.
  - done.
  - cbn. apply IH, Hbody, Hr.
Qed.

(** The alias table [initTextureCache] builds maps legacy names to [qrc:/]
    URLs only, so it is flat. *)
Lemma initTextureCache_flat :
  aliasFlat (canonicalUrlMap (initTextureCache newRenderer)).
Proof.
  apply aliasesPointToQrc_flat. unfold initTextureCache.
  apply initLoop_pointToQrc; [apply initCubemap_pointToQrc|].
  apply initLoop_pointToQrc; [apply initTexture_pointToQrc|].
  intros k v. cbn. by rewrite lookup_empty.
Qed.

(** Only [initTextureCache] writes the alias table. *)
Lemma loadTexture_aliases fuel source r t r' :
  loadTexture fuel source r = Some (t, r') ->
  canonicalUrlMap r' = canonicalUrlMap r.
Proof.
  unfold loadTexture, load2dTexture. destruct r; cbn. intros Hl.
  repeat case_match; simplify_eq; done.
Qed.

(** C3, as the code has it: on an alias table in which no alias target is
    itself an alias - the table [initTextureCache] builds is one - the walk
    of [loadTexture] stops after at most one hop at an identifier that is
    not an alias, whatever the input, and [loadTexture] returns.  The loop
    has no hop bound, no cycle check and no failure result. *)
Theorem alias_walk_stops_on_flat_table (fuel : nat) (source : QUrl)
  (r : ShadertoyRenderer) :
  aliasFlat (canonicalUrlMap r) ->
  (1 <= fuel)%nat ->
  exists url t r',
    resolveAlias fuel (canonicalUrlMap r) source = Some url
    /\ canonicalUrlMap r !! url = None
    /\ (url = source \/ canonicalUrlMap r !! source = Some url)
    /\ loadTexture fuel source r = Some (t, r')
    /\ tex <$> textureCache r' !! url = Some t.
Proof.
  intros Hflat Hfuel.
  destruct (resolveAlias_flat _ source Hflat) as (url & Hres & Hfix & Hhop).
  apply (resolveAlias_mono _ fuel) in Hres; [|done].
  unfold loadTexture. rewrite Hres.
  destruct (textureCache r !! url) as [d|] eqn:Hc.
  - exists url, (tex d), r. split_and!; try done. by rewrite Hc.
  - destruct (load2dTexture (readAll (toLocalFile source)) (gl r))
      as [t g] eqn:Hload.
    eexists url, _, _. split_and!; try done.
    destruct r; cbn. by rewrite lookup_insert_eq.
Qed.

End Alias.

Section Build.
Context {P : Platform}.

Lemma ensureVertexShader_spec r :
  match vertexShaderFor r with
  | Some vs =>
      (ensureVertexShader r).2 = Built vs
      /\ vertexShader (ensureVertexShader r).1 = Some vs
  | None =>
      vertexShader r = None
      /\ exists log,
          compileShader VertexKind SHADERTOY_SHADERS_DEFAULT_VS = BuildError log
          /\ (ensureVertexShader r).2 = BuildError log
  end.
Proof.
  unfold vertexShaderFor, ensureVertexShader.
  destruct (vertexShader r) as [vs|] eqn:Hvs; [done|].
  destruct (compileShader VertexKind SHADERTOY_SHADERS_DEFAULT_VS) as [u|log];
    cbn; [by destruct r | eauto].
Qed.

Lemma ensureVertexShader_keeps r :
  let r' := (ensureVertexShader r).1 in
  channels r' = channels r /\ shadertoyProgram r' = shadertoyProgram r
  /\ uniformLambdas r' = uniformLambdas r
  /\ fragmentShader r' = fragmentShader r /\ startTime r' = startTime r
  /\ position r' = position r /\ vrMode r' = vrMode r.
Proof.
  unfold ensureVertexShader. destruct r; cbn. repeat case_match; cbn; done.
Qed.

Lemma vertexShaderFor_set_position v r :
  vertexShaderFor (set_position v r) = vertexShaderFor r.
Proof. by destruct r. Qed.

(** What a call does, by the outcome of the three driver steps. *)
Lemma setShaderSourceInternal_outcome now source r :
  let r0 := (ensureVertexShader (set_position vec3_zero r)).1 in
  let r1 := set_vrMode (contains "#pragma vr" source) r0 in
  let fs := mkFragmentShader (fragmentText source r) in
  match vertexShaderFor r with
  | None =>
      exists log,
        compileShader VertexKind SHADERTOY_SHADERS_DEFAULT_VS = BuildError log
        /\ vertexShader r = None
        /\ setShaderSourceInternal now source r = (false, compileError log, r0)
  | Some vs =>
      match compileShader FragmentKind (fs_source fs) with
      | BuildError log =>
          setShaderSourceInternal now source r = (false, compileError log, r1)
      | Built _ =>
          match linkProgram vs fs with
          | BuildError log =>
              setShaderSourceInternal now source r
              = (false, compileError log, r1)
          | Built active =>
              setShaderSourceInternal now source r
              = (true, compileSuccess,
                 set_startTime now
                   (updateUniformsOf (mkProgram vs fs active ∅)
                      (set_fragmentShader (Some fs)
                         (set_skybox true
                            (set_shadertoyProgram
                               (Some (mkProgram vs fs active ∅)) r1)))))
          end
      end
  end.
Proof.
  intros r0 r1 fs. unfold setShaderSourceInternal.
  pose proof (ensureVertexShader_spec (set_position vec3_zero r)) as Hv.
  pose proof (ensureVertexShader_keeps (set_position vec3_zero r)) as Hk.
  rewrite vertexShaderFor_set_position in Hv. cbn in Hk.
  destruct Hk as (Hch & _).
  assert (Hfs : (shaderHeader (channels r0) ++ rewriteSource source)%string
                = fs_source fs).
  { subst r0 fs. cbn. unfold fragmentText. rewrite Hch. by destruct r. }
  subst r1 r0. 
  destruct (ensureVertexShader (set_position vec3_zero r)) as [r0 res].
  cbn in *.
  destruct (vertexShaderFor r) as [vs|].
  - destruct Hv as [-> Hvs]. rewrite Hfs.
    subst fs; cbn in *.
    destruct (compileShader FragmentKind (fragmentText source r)) as [u|log];
      [|done].
    destruct (linkProgram vs _) as [active|log]; done.
  - destruct Hv as (Hnone & log & Hlog & ->). exists log.
    split; [done|]. split; [by destruct r | done].
Qed.

Lemma failed_build_state (source : string) r :
  let r0 := (ensureVertexShader (set_position vec3_zero r)).1 in
  let r1 := set_vrMode (contains "#pragma vr" source) r0 in
  forall r', r' = r0 \/ r' = r1 ->
  shadertoyProgram r' = shadertoyProgram r
  /\ uniformLambdas r' = uniformLambdas r
  /\ fragmentShader r' = fragmentShader r
  /\ startTime r' = startTime r
  /\ position r' = vec3_zero.
Proof.
  intros r0 r1 r' Hr'.
  pose proof (ensureVertexShader_keeps (set_position vec3_zero r)) as Hk.
  cbn in Hk. fold r0 in Hk. destruct Hk as (_ & Hp & Hu & Hf & Hs & Hpos & _).
  assert (Hr1 : shadertoyProgram r1 = shadertoyProgram r0
                /\ uniformLambdas r1 = uniformLambdas r0
                /\ fragmentShader r1 = fragmentShader r0
                /\ startTime r1 = startTime r0
                /\ position r1 = position r0).
  { subst r1. by destruct r0. }
  assert (Hr : shadertoyProgram (set_position vec3_zero r) = shadertoyProgram r
               /\ uniformLambdas (set_position vec3_zero r) = uniformLambdas r
               /\ fragmentShader (set_position vec3_zero r) = fragmentShader r
               /\ startTime (set_position vec3_zero r) = startTime r
               /\ position (set_position vec3_zero r) = vec3_zero).
  { by destruct r. }
  destruct Hr as (? & ? & ? & ? & ?), Hr1 as (? & ? & ? & ? & ?).
  destruct Hr' as [-> | ->]; split_and!; congruence.
Qed.

(** A build either succeeds or fails in one of the three driver steps. *)
Lemma build_succeeds_or_fails now source r :
  (exists r', setShaderSourceInternal now source r
              = (true, compileSuccess, r'))
  \/ (exists log r', BuildFails source r log
       /\ setShaderSourceInternal now source r
          = (false, compileError log, r')).
Proof.
  pose proof (setShaderSourceInternal_outcome now source r) as Ho. cbn in Ho.
  destruct (vertexShaderFor r) as [vs|] eqn:Hvs.
  - destruct (compileShader FragmentKind (fragmentText source r))
      as [u|log] eqn:Hc.
    + destruct (linkProgram vs _) as [active|log] eqn:Hl.
      * left. eauto.
      * right. exists log. eexists. split; [|done].
        eapply LinkFails; eauto.
    + right. exists log. eexists. split; [|done].
      eapply FragmentCompileFails; eauto.
  - destruct Ho as (log & Hlog & Hnone & Ho). right. exists log. eexists.
    split; [|done]. by apply VertexCompileFails.
Qed.

(** C4, as the code has it: a build that fails - in the vertex compile, the
    fragment compile or the link - returns [false] to its caller and reports
    the driver's log, as it is, through [compileError]: a log that is not
    empty whenever the driver's logs are not, and an empty one otherwise.
    The current program, hence its active uniforms, the uniform lambdas, the
    current fragment shader and the time origin are what they were. *)
Theorem failed_build_keeps_program (now : float) (source : QString)
  (r : ShadertoyRenderer) (log : string) :
  BuildFails source r log ->
  exists r',
    setShaderSourceInternal now source r = (false, compileError log, r')
    /\ (driverLogsNonEmpty -> log <> "")
    /\ shadertoyProgram r' = shadertoyProgram r
    /\ activeUniforms <$> shadertoyProgram r'
       = activeUniforms <$> shadertoyProgram r
    /\ uniformLambdas r' = uniformLambdas r
    /\ fragmentShader r' = fragmentShader r
    /\ startTime r' = startTime r.
Proof.
  intros Hfail.
  pose proof (setShaderSourceInternal_outcome now source r) as Ho. cbn in Ho.
  pose proof (failed_build_state source r) as Hst. cbn in Hst.
  assert (Hgoal : exists r',
             setShaderSourceInternal now source r
             = (false, compileError log, r')
             /\ (driverLogsNonEmpty -> log <> "")
             /\ (r' = (ensureVertexShader (set_position vec3_zero r)).1
                 \/ r' = set_vrMode (contains "#pragma vr" source)
                           (ensureVertexShader (set_position vec3_zero r)).1)).
  { destruct Hfail as [Hnone Hlog | vs Hvs Hlog | vs u Hvs Hc Hlog].
    - assert (Hv : vertexShaderFor r = None).
      { unfold vertexShaderFor. by rewrite Hnone, Hlog. }
      rewrite Hv in Ho. destruct Ho as (log' & Hlog' & _ & Ho).
      assert (log' = log) as -> by congruence.
      eexists. split; [exact Ho|].
      split; [intros [Hclog _]; by eapply Hclog | by left].
    - rewrite Hvs, Hlog in Ho.
      eexists. split; [exact Ho|].
      split; [intros [Hclog _]; by eapply Hclog | by right].
    - rewrite Hvs, Hc, Hlog in Ho.
      eexists. split; [exact Ho|].
      split; [intros [_ Hllog]; by eapply Hllog | by right]. }
  destruct Hgoal as (r' & Hres & Hne & Hr').
  exists r'. destruct (Hst r' Hr') as (Hp & Hu & Hf & Hs & _).
  split_and!; try done. by rewrite Hp.
Qed.

(** C10, as the code has it: every build - failed or not - leaves
    [position] at the zero vector.  [vrMode] becomes whether the new source
    contains [#pragma vr] in every build that gets past the one-time
    vertex-shader step - the vertex shader is there, or the bundled one
    compiles in this call - whether the fragment compile and the link then
    succeed or fail; in the one build in which the bundled vertex shader fails
    to compile, the exception leaves the function before [vrMode] is written,
    and it keeps its value.  When the build fails the program is still the
    previous one, so the failure path changes state. *)
Theorem build_resets_position_and_vrMode (now : float) (source : QString)
  (r : ShadertoyRenderer) :
  let result := setShaderSourceInternal now source r in
  position result.2 = vec3_zero
  /\ vrMode result.2
     = match vertexShaderFor r with
       | Some _ => contains "#pragma vr" source
       | None => vrMode r
       end
  /\ (vertexShaderFor r = None ->
      vertexShader r = None
      /\ result.1.1 = false
      /\ exists log,
           compileShader VertexKind SHADERTOY_SHADERS_DEFAULT_VS
           = BuildError log
           /\ result.1.2 = compileError log)
  /\ (result.1.1 = false ->
      shadertoyProgram result.2 = shadertoyProgram r
      /\ exists log, BuildFails source r log
                     /\ result.1.2 = compileError log).
Proof.
  intros result.
  pose proof (setShaderSourceInternal_outcome now source r) as Ho. cbn in Ho.
  pose proof (failed_build_state source r) as Hst. cbn in Hst.
  pose proof (ensureVertexShader_keeps (set_position vec3_zero r)) as Hk.
  cbn in Hk. destruct Hk as (_ & _ & _ & _ & _ & _ & Hvr0).
  destruct (vertexShaderFor r) as [vs|] eqn:Hv.
  - set (r1 := set_vrMode (contains "#pragma vr" source)
                 (ensureVertexShader (set_position vec3_zero r)).1) in *.
    assert (Hr1 : vrMode r1 = contains "#pragma vr" source).
    { subst r1. by destruct (ensureVertexShader (set_position vec3_zero r)).1. }
    destruct (Hst r1 (or_intror eq_refl)) as (Hp & _ & _ & _ & Hpos).
    destruct (compileShader FragmentKind (fragmentText source r))
      as [u|log] eqn:Hc.
    + destruct (linkProgram vs _) as [active|log] eqn:Hl.
      * subst result. rewrite Ho. cbn. split_and!; [| |done|done].
        -- unfold updateUniformsOf. destruct r1; cbn in *. done.
        -- unfold updateUniformsOf. destruct r1; cbn in *. done.
      * subst result. rewrite Ho. cbn. split_and!; try done.
        intros _. split; [done|]. exists log. split; [|done].
        eapply LinkFails; eauto.
    + subst result. rewrite Ho. cbn. split_and!; try done.
      intros _. split; [done|]. exists log. split; [|done].
      eapply FragmentCompileFails; eauto.
  - destruct Ho as (log & Hlog & Hnone & Ho).
    destruct (Hst _ (or_introl eq_refl)) as (Hp & _ & _ & _ & Hpos).
    subst result. rewrite Ho. cbn. split; [done|]. split.
    { rewrite Hvr0. by destruct r. }
    split.
    { intros _. split; [done|]. split; [done|]. by exists log. }
    intros _. split; [done|]. exists log. split; [|done].
    by apply VertexCompileFails.
Qed.



End Build.

Section Uniforms.
Context {P : Platform}.

Lemma updateUniformsOf_lambdas p r :
  uniformLambdas (updateUniformsOf p r)
  = buildLambdas (activeUniforms p) (channels r).
Proof. unfold updateUniformsOf. by destruct r. Qed.

Lemma channelLambdas_unfold active chans :
  channelLambdas active chans
  = (if isActive active (UNIFORM_CHANNELS 0) && hasTexture chans 0
     then [LambdaChannel 0] else [])
    ++ (if isActive active (UNIFORM_CHANNELS 1) && hasTexture chans 1
        then [LambdaChannel 1] else [])
    ++ (if isActive active (UNIFORM_CHANNELS 2) && hasTexture chans 2
        then [LambdaChannel 2] else [])
    ++ (if isActive active (UNIFORM_CHANNELS 3) && hasTexture chans 3
        then [LambdaChannel 3] else []).
Proof. unfold channelLambdas. cbn. by rewrite app_nil_r. Qed.

Lemma hasTexture_lookup chans i :
  hasTexture chans i = true
  <-> exists tgt t, chans !! i = Some (mkChannel tgt (Some t)).
Proof.
  unfold hasTexture. destruct (chans !! i) as [[tgt [t|]]|]; split;
    try done; try (intros (? & ? & ?); done). eauto.
Qed.

(** C6, as the code has it: after a rebuild the lambda list holds one time
    lambda iff the time uniform is active, one resolution lambda iff the
    resolution uniform is active, one position lambda iff the file is built
    with [USE_RIFT] and the position uniform is active, and one channel
    lambda for slot [i] iff [i < 4], the sampler of slot [i] is active and
    slot [i] holds a texture; nothing else, in the order time, resolution,
    position, channels 0 to 3.  So the number of channel lambdas is the
    number of slots with an active sampler and a texture. *)
Theorem rebuild_pushes_one_lambda_per_bound_uniform (p : Program)
  (r : ShadertoyRenderer) :
  let active := activeUniforms p in
  let ls := uniformLambdas (updateUniformsOf p r) in
  countOf LambdaGlobalTime ls = oneIf (isActive active UNIFORM_GLOBALTIME)
  /\ countOf LambdaResolution ls = oneIf (isActive active UNIFORM_RESOLUTION)
  /\ countOf LambdaPosition ls
     = oneIf (USE_RIFT && isActive active UNIFORM_POSITION)
  /\ (forall i,
        countOf (LambdaChannel i) ls
        = oneIf ((i <? 4)%nat && isActive active (UNIFORM_CHANNELS i)
                 && hasTexture (channels r) i))
  /\ sublist ls allLambdas
  /\ length (List.filter isChannelLambda ls)
     = length (List.filter
                 (fun i => isActive active (UNIFORM_CHANNELS i)
                           && hasTexture (channels r) i) (seq 0 4)).
Proof.
  intros active ls. subst ls. rewrite updateUniformsOf_lambdas. fold active.
  unfold buildLambdas. rewrite channelLambdas_unfold.
  generalize (isActive active UNIFORM_GLOBALTIME) as bt.
  generalize (isActive active UNIFORM_RESOLUTION) as br.
  generalize (USE_RIFT && isActive active UNIFORM_POSITION) as bp.
  intros bp br bt.
  split_and!.
  - unfold countOf. rewrite !count_occ_app.
    destruct bt, br, bp; cbn; repeat case_match; done.
  - unfold countOf. rewrite !count_occ_app.
    destruct bt, br, bp; cbn; repeat case_match; done.
  - unfold countOf. rewrite !count_occ_app.
    destruct bt, br, bp; cbn; repeat case_match; done.
  - intros i. unfold countOf. rewrite !count_occ_app.
    assert (Hfront : forall b x, x <> LambdaChannel i ->
              count_occ UniformLambda_eq_dec (if b : bool then [x] else [])
                (LambdaChannel i) = 0%nat).
    { intros [] x Hx; [|done]. by rewrite count_occ_cons_neq. }
    rewrite !Hfront by done. cbn.
    assert (Hslot : forall (b : bool) j,
              count_occ UniformLambda_eq_dec
                (if b then [LambdaChannel j] else []) (LambdaChannel i)
              = oneIf (bool_decide (j = i) && b)).
    { intros [] j; [|by rewrite andb_false_r].
      destruct (decide (j = i)) as [->|Hne].
      - rewrite bool_decide_true by done.
        by rewrite count_occ_cons_eq.
      - rewrite bool_decide_false by done.
        rewrite count_occ_cons_neq; [done|congruence]. }
    rewrite !Hslot.
    destruct i as [|[|[|[|i]]]]; cbn;
      repeat (rewrite ?bool_decide_true, ?bool_decide_false by lia; cbn);
      repeat (destruct (_ && _); cbn); done.
  - repeat apply sublist_app; repeat case_match;
      try apply sublist_nil_l; try reflexivity.
    all: change allLambdas with
           ([LambdaGlobalTime] ++ [LambdaResolution] ++ [LambdaPosition]
            ++ [LambdaChannel 0] ++ [LambdaChannel 1] ++ [LambdaChannel 2]
            ++ [LambdaChannel 3]).
    all: repeat apply sublist_app; try apply sublist_nil_l; reflexivity.
  - rewrite !List.filter_app. cbn.
    destruct bt, br, bp; cbn;
      repeat (destruct (_ && _); cbn); done.
Qed.

End Uniforms.

Section Channels.
Context {P : Platform}.

Lemma loadTexture_effect fuel source r t r' :
  loadTexture fuel source r = Some (t, r') ->
  exists url,
    resolveAlias fuel (canonicalUrlMap r) source = Some url
    /\ uploads (gl r')
       = (uploads (gl r)
          + match textureCache r !! url with
            | Some _ => 0
            | None => if decodes (readAll (toLocalFile source)) then 1 else 0
            end)%nat
    /\ (textureCache r !! url = None ->
        decodes (readAll (toLocalFile source)) = false -> t = None)
    /\ channels r' = channels r
    /\ channelSources r' = channelSources r
    /\ uniformLambdas r' = uniformLambdas r.
Proof.
  unfold loadTexture, load2dTexture. intros Hl.
  destruct (resolveAlias fuel (canonicalUrlMap r) source) as [url|]; [|done].
  exists url. split; [done|].
  destruct (textureCache r !! url) as [d|] eqn:Hc.
  - injection Hl as <- <-. split_and!; try done; lia.
  - destruct (decodes (readAll (toLocalFile source))) eqn:Hd;
      destruct r; cbn in *; injection Hl as <- <-; cbn;
      split_and!; try done; lia.
Qed.

Lemma setChannelTextureInternal_lambdas fuel channel type src r r' :
  setChannelTextureInternal fuel channel type src r = Some r' ->
  uniformLambdas r' = uniformLambdas r.
Proof.
  unfold setChannelTextureInternal. intros Hs.
  repeat case_match; simplify_eq;
    repeat match goal with
      | Hl : loadTexture _ _ _ = Some _ |- _ =>
          apply loadTexture_effect in Hl as (? & _ & _ & _ & _ & _ & Hl);
          revert Hl
      end;
    repeat match goal with
      | x : ShadertoyRenderer |- _ => destruct x
      end; cbn; done.
Qed.

(** C7, as the code has it: a channel lambda of the rebuilt list is
    [LambdaChannel i] for a slot [i < 4] that held a texture at the rebuild;
    [i] is fixed in the lambda, but the texture and the target it binds are
    read from slot [i] each time it runs, so it binds whatever the slot holds
    then (nothing when the slot holds no texture).  Changing a slot with
    [setChannelTextureInternal] leaves the lambda list itself as it is. *)
Theorem channel_lambda_reads_slot_when_run (p : Program)
  (r : ShadertoyRenderer) (l : UniformLambda) :
  l ∈ uniformLambdas (updateUniformsOf p r) ->
  isChannelLambda l = true ->
  exists i : nat,
    l = LambdaChannel i /\ (i < 4)%nat
    /\ hasTexture (channels r) i = true
    /\ (forall env r2 ch,
          channels r2 !! i = Some ch ->
          runLambda env r2 l
          = Some (match texture ch with
                  | Some t => [GlActiveTexture i; GlBindTexture (target ch) t]
                  | None => []
                  end))
    /\ (forall fuel channel type src r2 r3,
          setChannelTextureInternal fuel channel type src r2 = Some r3 ->
          uniformLambdas r3 = uniformLambdas r2).
Proof.
  rewrite updateUniformsOf_lambdas. unfold buildLambdas.
  rewrite channelLambdas_unfold, !elem_of_app. intros Hin Hch.
  assert (Hi : exists i, l = LambdaChannel i /\ (i < 4)%nat
                         /\ hasTexture (channels r) i = true).
  { destruct Hin as [Hin|[Hin|[Hin|[Hin|[Hin|[Hin|Hin]]]]]];
      match type of Hin with
      | _ ∈ (if ?b then _ else _) => destruct b eqn:Hb
      end;
      try (by apply elem_of_nil in Hin);
      apply list_elem_of_singleton in Hin; subst l; try done.
    all: apply andb_true_iff in Hb as [_ Hb]; eexists; split; [done|];
      split; [lia|done]. }
  destruct Hi as (i & -> & Hlt & Htex). exists i. split_and!; try done.
  - intros env r2 ch Hlk. cbn. rewrite Hlk. by destruct (texture ch).
  - intros. by eapply setChannelTextureInternal_lambdas.
Qed.

Lemma setChannelTextureInternal_source fuel channel type src r r' :
  setChannelTextureInternal fuel channel type src r = Some r' ->
  channelSources r' !! channel = Some src
  /\ is_Some (channels r' !! channel).
Proof.
  unfold setChannelTextureInternal. intros Hs.
  destruct (channelSources r !! channel) as [cur|] eqn:Hcur; [|done].
  destruct (channels r !! channel) as [old|] eqn:Hold; [|done].
  apply lookup_lt_Some in Hcur as Hlen1.
  apply lookup_lt_Some in Hold as Hlen2.
  destruct (decide (src = cur)) as [->|Hne]; [by simplify_eq|].
  assert (Hsrc : forall (x : ShadertoyRenderer),
            channelSources x = <[channel := src]> (channelSources r) ->
            channelSources x !! channel = Some src).
  { intros x ->. by apply list_lookup_insert_eq. }
  assert (Hchan : forall (l : list Channel) c,
            length l = length (channels r) ->
            is_Some (<[channel := c]> l !! channel)).
  { intros l c Hl. apply lookup_lt_is_Some. rewrite length_insert. lia. }
  repeat case_match; simplify_eq;
    repeat match goal with
      | Hl : loadTexture _ _ _ = Some _ |- _ =>
          apply loadTexture_effect in Hl as (? & _ & _ & _ & Hl1 & Hl2 & _);
          revert Hl1 Hl2
      end;
    repeat match goal with
      | x : ShadertoyRenderer |- _ => destruct x
      end; cbn in *; intros; subst;
    (split; [by apply list_lookup_insert_eq | by apply Hchan]).
Qed.


End Channels.

Section TexRes.
Context {P : Platform}.

Lemma SFltb_SFleb a b : SFltb a b = true -> SFleb a b = true.
Proof.
  unfold SFltb, SFleb. destruct (SFcompare a b) as [[]|]; congruence.
Qed.

Lemma clampRes_in_range x : resInRange (clampRes x).
Proof.
  unfold clampRes, std_min, std_max, resInRange, f_lt, f_le.
  destruct (SFltb x f32_1_0) eqn:Hhi.
  - destruct (SFltb f32_0_1 x) eqn:Hlo.
    + split; apply SFltb_SFleb; assumption.
    + split; reflexivity.
  - split; reflexivity.
Qed.

Lemma ensureVertexShader_texRes r :
  texRes (ensureVertexShader r).1 = texRes r.
Proof.
  unfold ensureVertexShader. destruct r; cbn.
  repeat case_match; cbn; done.
Qed.

Lemma updateUniformsOf_texRes p r : texRes (updateUniformsOf p r) = texRes r.
Proof. unfold updateUniformsOf. by destruct r. Qed.

Lemma updateUniforms_texRes r r' :
  updateUniforms r = Some r' -> texRes r' = texRes r.
Proof.
  unfold updateUniforms. destruct (shadertoyProgram r); intros; simplify_eq.
  apply updateUniformsOf_texRes.
Qed.

Lemma setShaderSourceInternal_texRes now source r :
  texRes (setShaderSourceInternal now source r).2 = texRes r.
Proof.
  unfold setShaderSourceInternal.
  pose proof (ensureVertexShader_texRes (set_position vec3_zero r)) as Ht.
  destruct (ensureVertexShader (set_position vec3_zero r)) as [r1 [vs|log]];
    cbn in Ht.
  - repeat case_match; cbn; rewrite ?updateUniformsOf_texRes;
      destruct r1, r; cbn in *; done.
  - destruct r1, r; cbn in *; done.
Qed.

Lemma loadTexture_texRes fuel source r t r' :
  loadTexture fuel source r = Some (t, r') -> texRes r' = texRes r.
Proof.
  unfold loadTexture, load2dTexture. destruct r; cbn. intros Hl.
  repeat case_match; simplify_eq; done.
Qed.

Lemma setChannelTextureInternal_texRes fuel channel type src r r' :
  setChannelTextureInternal fuel channel type src r = Some r' ->
  texRes r' = texRes r.
Proof.
  unfold setChannelTextureInternal. intros Hs.
  repeat case_match; simplify_eq;
    repeat match goal with
      | Hl : loadTexture _ _ _ = Some _ |- _ =>
          apply loadTexture_texRes in Hl; revert Hl
      end;
    repeat match goal with
      | x : ShadertoyRenderer |- _ => destruct x
      end; cbn; done.
Qed.

Lemma setShaderChannels_texRes fuel idx shader r r' :
  setShaderChannels fuel idx shader r = Some r' -> texRes r' = texRes r.
Proof.
  revert r. induction idx as [|i idx IH]; intros r; cbn.
  - by intros; simplify_eq.
  - intros Hs. repeat case_match; simplify_eq.
    rewrite (IH _ Hs). eapply setChannelTextureInternal_texRes; eauto.
Qed.

Lemma setShaderInternal_texRes fuel now shader r res :
  setShaderInternal fuel now shader r = Some res -> texRes res.2 = texRes r.
Proof.
  unfold setShaderInternal. intros Hs. case_match; simplify_eq.
  rewrite setShaderSourceInternal_texRes.
  eapply setShaderChannels_texRes; eauto.
Qed.

Lemma runTask_texRes fuel now t w w' :
  runTask fuel now t w = Some w' ->
  tasks w' = tasks w /\
  texRes (renderer w') =
    match t with
    | TaskSetTexRes v => v
    | _ => texRes (renderer w)
    end.
Proof.
  unfold runTask. intros Hr.
  destruct t; repeat case_match; simplify_eq;
    (split; [by destruct w|]).
  all: repeat match goal with
         | Hu : updateUniforms _ = Some _ |- _ =>
             apply updateUniforms_texRes in Hu
         | Hs : setChannelTextureInternal _ _ _ _ _ = Some _ |- _ =>
             apply setChannelTextureInternal_texRes in Hs
         | Hs : setShaderInternal _ _ _ _ = Some _ |- _ =>
             apply setShaderInternal_texRes in Hs; cbn in Hs
         | Hs : setShaderSourceInternal ?n ?s ?r = _ |- _ =>
             pose proof (setShaderSourceInternal_texRes n s r) as Hx;
             rewrite Hs in Hx; cbn in Hx; clear Hs
         end.
  all: destruct w; cbn in *; try congruence.
  all: try by match goal with r : ShadertoyRenderer |- _ => destruct r end.
Qed.

Lemma runTasks_texResInv fuel now ts w w' :
  resInRange (texRes (renderer w)) -> Forall texResTask ts ->
  runTasks fuel now ts w = Some w' ->
  resInRange (texRes (renderer w')) /\ tasks w' = tasks w.
Proof.
  revert w. induction ts as [|t ts IH]; intros w Hw Hts; cbn.
  - by intros; simplify_eq.
  - destruct (runTask fuel now t w) as [w1|] eqn:Ht; [|done].
    apply runTask_texRes in Ht as [Htk Hres].
    inversion Hts as [|? ? Ht1 Hts1]; subst.
    intros Hr. apply IH in Hr as [? ?]; [split; congruence| |done].
    rewrite Hres. by destruct t.
Qed.

Lemma onModifyTextureResolution_texResInv scale w :
  texResInv w -> texResInv (onModifyTextureResolution scale w).
Proof.
  intros [Hres Htasks]. unfold onModifyTextureResolution.
  destruct (f_ne _ _); [|by split].
  destruct w; cbn in *. split; [done|].
  apply Forall_app; split; [done|]. constructor; [|done].
  apply clampRes_in_range.
Qed.

Lemma runTasks_app fuel now ts1 ts2 w :
  runTasks fuel now (ts1 ++ ts2) w
  = match runTasks fuel now ts1 w with
    | Some w1 => runTasks fuel now ts2 w1
    | None => None
    end.
Proof.
  revert w. induction ts1 as [|t ts1 IH]; intros w; [done|].
  cbn [app runTasks]. destruct (runTask fuel now t w); [apply IH | done].
Qed.

(** C9: the resolution scale stays within [0.1, 1.0].  A scale-change event
    multiplies the requested factor by the current scale (in [double],
    narrowed to [float]) and clamps the product to [0.1f, 1.0f]: the product
    itself when it is above 0.1 and below 1.0, 0.1 when it is not above 0.1,
    1.0 when it is not below 1.0.  The handler queues the new value for the
    render thread only when it differs from the current scale, and leaves
    [texRes] alone; once the queue has run, [texRes] is the new value if one
    was queued, and with nothing else queued the window is otherwise as it
    was - unchanged altogether when the clamped product equals the scale. *)
Theorem texRes_stays_in_range (scale : double) (w : ShadertoyWindow) :
  texResInv w ->
  let product :=
    f64_to_f32 (f64_mul scale (f32_to_f64 (texRes (renderer w)))) in
  let newRes := std_max f32_0_1 (std_min f32_1_0 product) in
  let w' := onModifyTextureResolution scale w in
  resInRange newRes
  /\ newRes = (if f_lt product f32_1_0
               then if f_lt f32_0_1 product then product else f32_0_1
               else f32_1_0)
  /\ renderer w' = renderer w
  /\ tasks w' = (if f_ne newRes (texRes (renderer w))
                 then (tasks w ++ [TaskSetTexRes newRes])%list else tasks w)
  /\ texResInv w'
  /\ (forall fuel now w'',
        drainTasks fuel now w' = Some w'' ->
        texResInv w'' /\ tasks w'' = []
        /\ (f_ne newRes (texRes (renderer w)) = true ->
            texRes (renderer w'') = newRes))
  /\ (tasks w = [] ->
      forall fuel now,
        drainTasks fuel now w'
        = Some (if f_ne newRes (texRes (renderer w))
                then set_renderer (set_texRes newRes (renderer w)) w
                else w)).
Proof.
  intros [Hres Htasks] product newRes w'.
  assert (Hnew : resInRange newRes) by apply clampRes_in_range.
  assert (Hw' : texResInv w')
    by (by apply onModifyTextureResolution_texResInv).
  assert (Htk : tasks w' = (if f_ne newRes (texRes (renderer w))
                            then (tasks w ++ [TaskSetTexRes newRes])%list
                            else tasks w)).
  { subst w'. unfold onModifyTextureResolution.
    change (clampRes (scaledRes scale (texRes (renderer w)))) with newRes.
    destruct (f_ne newRes _); by destruct w. }
  assert (Hrd : renderer w' = renderer w).
  { subst w'. unfold onModifyTextureResolution.
    change (clampRes (scaledRes scale (texRes (renderer w)))) with newRes.
    destruct (f_ne newRes _); by destruct w. }
  split; [done|]. split.
  { subst newRes. unfold std_max, std_min.
    destruct (f_lt product f32_1_0) eqn:Hp; [done|].
    assert (Hlt : f_lt f32_0_1 f32_1_0 = true) by reflexivity.
    by rewrite Hlt. }
  split; [done|]. split; [done|]. split; [done|]. split.
  - intros fuel now w'' Hd. unfold drainTasks in Hd.
    pose proof Hd as Hd0.
    destruct Hw' as [Hr' Ht'].
    apply runTasks_texResInv in Hd as [Hr'' Ht'']; [| by destruct w' | done].
    split; [split; [done|]; rewrite Ht''; destruct w'; cbn; done|].
    split; [rewrite Ht''; by destruct w'|].
    intros Hne. rewrite Htk, Hne, runTasks_app in Hd0.
    destruct (runTasks fuel now (tasks w) (set_tasks [] w')) as [w1|];
      [|done].
    cbn in Hd0. injection Hd0 as <-. destruct w1 as [r1]. by destruct r1.
  - intros Hempty fuel now. unfold drainTasks. rewrite Htk, Hempty.
    subst w'. unfold onModifyTextureResolution.
    change (clampRes (scaledRes scale (texRes (renderer w)))) with newRes.
    destruct (f_ne newRes (texRes (renderer w))).
    + cbn. f_equal. destruct w; cbn in *. by subst.
    + cbn. f_equal. destruct w; cbn in *. by subst.
Qed.

Lemma newWindow_texResInv : texResInv newWindow.
Proof. split; [split; reflexivity | constructor]. Qed.

(** From the initial window, whatever scale-change events and task-queue runs
    follow, the resolution scale is in range. *)
Lemma texRes_in_range_always fuel steps w :
  runResolutionSteps fuel steps newWindow = Some w ->
  resInRange (texRes (renderer w)).
Proof.
  assert (Hgen : forall w0, texResInv w0 ->
             runResolutionSteps fuel steps w0 = Some w -> texResInv w).
  { induction steps as [|[scale|now] steps IH]; intros w0 Hinv; cbn.
    - by intros [= <-].
    - apply IH. by apply onModifyTextureResolution_texResInv.
    - destruct (drainTasks fuel now w0) as [w1|] eqn:Hd; [|done].
      apply IH. unfold drainTasks in Hd. destruct Hinv as [Hr Ht].
      apply runTasks_texResInv in Hd as [Hr1 Ht1]; [|by destruct w0|done].
      split; [done|]. rewrite Ht1. destruct w0; cbn. constructor. }
  intros Hrun. by destruct (Hgen _ newWindow_texResInv Hrun).
Qed.

End TexRes.

(** ** The texture hand-off: conservation and order of retirement *)

Ltac ms_solver :=
  repeat match goal with H : _ |- _ => clear H end; multiset_solver.

Section HandoffMore.

Lemma list_to_set_disj_fst_singleton (a b : N) :
  list_to_set_disj ([(a, b)].*1) =@{gmultiset N} {[+ a +]}.
Proof.
  cbn [fmap list_fmap fst].
  rewrite list_to_set_disj_cons, list_to_set_disj_nil. multiset_solver.
Qed.

Lemma drainTrash_partition wait trash :
  exists emitted,
    trash = emitted ++ (drainTrash wait trash).2
    /\ (drainTrash wait trash).1 = emitted.*1
    /\ Forall (fun q => signaled (wait q.2) = true) emitted.
Proof.
  induction trash as [|[t s] rest IH]; cbn.
  - by exists [].
  - destruct (signaled (wait s)) eqn:Hs.
    + destruct IH as (em & Heq & Hout & Hall).
      destruct (drainTrash wait rest) as [d k]; cbn in *.
      exists ((t, s) :: em). split_and!.
      * cbn. by rewrite <- Heq.
      * cbn. by rewrite Hout.
      * by constructor.
    + by exists [].
Qed.

Lemma collectTrash_fields wait w :
  let w' := collectTrash wait w in
  textureTrash w' = (drainTrash wait (textureTrash w)).2
  /\ textureDeleteQueue w'
     = textureDeleteQueue w ++ (drainTrash wait (textureTrash w)).1
  /\ uiTexture w' = uiTexture w /\ lastUiTexture w' = lastUiTexture w
  /\ lastUiSync w' = lastUiSync w /\ nextSync w' = nextSync w
  /\ uiReleased w' = uiReleased w /\ uiVisible w' = uiVisible w
  /\ renderer w' = renderer w /\ tasks w' = tasks w.
Proof.
  unfold collectTrash. destruct (drainTrash wait (textureTrash w)).
  by destruct w.
Qed.

(** X3: one collection pass of [perFrameRender] moves a prefix of the
    retirement queue to the delete queue, in queue order, and every texture it
    moves had its fence reported signaled by [glClientWaitSync] during that
    pass; what it leaves is the rest of the queue, untouched.  A texture
    whose fence has not signaled is never handed back to the UI. *)
Theorem collected_textures_have_signaled_fences (wait : N -> WaitResult)
  (w : ShadertoyWindow) :
  exists emitted : list (N * N),
    textureTrash w = emitted ++ textureTrash (collectTrash wait w)
    /\ textureDeleteQueue (collectTrash wait w)
       = textureDeleteQueue w ++ emitted.*1
    /\ Forall (fun q => signaled (wait q.2) = true) emitted.
Proof.
  destruct (drainTrash_partition wait (textureTrash w)) as (em & Heq & Hout & Hall).
  destruct (collectTrash_fields wait w) as (Ht & Hq & _).
  exists em. rewrite Ht, Hq, Hout. done.
Qed.

Lemma named_zero : named 0 = ∅.
Proof. done. Qed.

(** The [if (uiVisible)] block, field by field. *)
Lemma consumeUiTexture_fields w :
  let w' := (consumeUiTexture w).2 in
  let drawn := if (uiTexture w =? 0)%N then lastUiTexture w else uiTexture w in
  textureDeleteQueue w' = textureDeleteQueue w
  /\ uiReleased w' = uiReleased w
  /\ (uiVisible w = false -> w' = w)
  /\ (uiVisible w = true ->
      uiTexture w' = 0%N
      /\ lastUiTexture w' = drawn
      /\ textureTrash w'
         = textureTrash w
           ++ (if (uiTexture w =? 0)%N || (lastUiTexture w =? 0)%N then []
               else [(lastUiTexture w, lastUiSync w)])
      /\ lastUiSync w'
         = (if (drawn =? 0)%N then lastUiSync w else nextSync w)
      /\ nextSync w'
         = (if (drawn =? 0)%N then nextSync w else N.succ (nextSync w))).
Proof.
  unfold consumeUiTexture, exchangeUiTexture.
  destruct w as [r vis sav slot kept ls trs dq tk ns rel]; cbn.
  destruct vis; cbn; [|done].
  destruct (slot =? 0)%N eqn:Hslot, (kept =? 0)%N eqn:Hkept; cbn;
    rewrite ?Hslot, ?Hkept; cbn; rewrite ?Hslot, ?Hkept, ?app_nil_r; cbn;
    split_and!; done.
Qed.

Lemma consumeUiTexture_held w :
  heldTextures (consumeUiTexture w).2 = heldTextures w.
Proof.
  destruct (consumeUiTexture_fields w) as (Hq & Hr & Hhid & Hvis).
  destruct (uiVisible w) eqn:Hv; [|by rewrite Hhid].
  destruct (Hvis eq_refl) as (Hu & Hl & Ht & _).
  unfold heldTextures. rewrite Hq, Hr, Hu, Hl, Ht.
  rewrite fmap_app, list_to_set_disj_app. unfold named.
  rewrite (proj2 (N.eqb_eq 0 0) eq_refl).
  destruct (uiTexture w =? 0)%N eqn:Hslot,
           (lastUiTexture w =? 0)%N eqn:Hkept;
    cbn [orb fmap list_fmap fst]; rewrite ?Hslot, ?Hkept;
    rewrite ?list_to_set_disj_cons, ?list_to_set_disj_nil; ms_solver.
Qed.

Lemma collectTrash_held wait w :
  heldTextures (collectTrash wait w) = heldTextures w.
Proof.
  destruct (collectTrash_fields wait w)
    as (Ht & Hq & Hu & Hl & _ & _ & Hr & _).
  unfold heldTextures. rewrite Ht, Hq, Hu, Hl, Hr.
  rewrite (drainTrash_prefix wait (textureTrash w)).
  rewrite !list_to_set_disj_app. ms_solver.
Qed.

Lemma onTextureUpdated_fields h w :
  let w' := onTextureUpdated h w in
  uiTexture w' = h
  /\ uiReleased w'
     = uiReleased w ++ (if (uiTexture w =? 0)%N then [] else [uiTexture w])
  /\ lastUiTexture w' = lastUiTexture w /\ textureTrash w' = textureTrash w
  /\ textureDeleteQueue w' = textureDeleteQueue w
  /\ lastUiSync w' = lastUiSync w /\ nextSync w' = nextSync w
  /\ uiVisible w' = uiVisible w.
Proof.
  unfold onTextureUpdated, exchangeUiTexture.
  destruct w as [r vis sav slot kept ls trs dq tk ns rel]; cbn.
  destruct (slot =? 0)%N; cbn; rewrite ?app_nil_r; done.
Qed.

Lemma onToggleUi_fields w :
  let w' := onToggleUi w in
  uiTexture w' = uiTexture w /\ uiReleased w' = uiReleased w
  /\ lastUiTexture w' = lastUiTexture w /\ textureTrash w' = textureTrash w
  /\ textureDeleteQueue w' = textureDeleteQueue w
  /\ lastUiSync w' = lastUiSync w /\ nextSync w' = nextSync w
  /\ uiVisible w' = negb (uiVisible w).
Proof.
  unfold onToggleUi.
  destruct w as [r vis sav slot kept ls trs dq tk ns rel]; cbn.
  destruct vis; done.
Qed.

Lemma onTimer_fields w :
  let w' := onTimer w in
  uiTexture w' = uiTexture w
  /\ uiReleased w' = uiReleased w ++ textureDeleteQueue w
  /\ lastUiTexture w' = lastUiTexture w /\ textureTrash w' = textureTrash w
  /\ textureDeleteQueue w' = []
  /\ lastUiSync w' = lastUiSync w /\ nextSync w' = nextSync w
  /\ uiVisible w' = uiVisible w.
Proof. unfold onTimer. by destruct w. Qed.

Lemma step_held e w :
  heldTextures (step e w) = heldTextures w ⊎ publishedBy [e].
Proof.
  destruct e as [h|wait| |].
  - change (step (EvTextureUpdated h) w) with (onTextureUpdated h w).
    destruct (onTextureUpdated_fields h w) as (Hu & Hr & Hl & Ht & Hq & _).
    unfold heldTextures. rewrite Hu, Hr, Hl, Ht, Hq, list_to_set_disj_app.
    change (publishedBy [EvTextureUpdated h]) with (named h ⊎ ∅).
    unfold named at 3. destruct (uiTexture w =? 0)%N.
    + ms_solver.
    + rewrite list_to_set_disj_cons, list_to_set_disj_nil. ms_solver.
  - change (step (EvFrame wait) w) with (perFrameRender wait w).2.
    unfold perFrameRender.
    pose proof (consumeUiTexture_held w) as Hc.
    destruct (consumeUiTexture w) as [rep w1].
    change (publishedBy [EvFrame wait]) with (∅ : gmultiset N).
    change ((rep, collectTrash wait w1).2) with (collectTrash wait w1).
    rewrite collectTrash_held. change ((rep, w1).2) with w1 in Hc.
    rewrite Hc. ms_solver.
  - change (step EvToggleUi w) with (onToggleUi w).
    destruct (onToggleUi_fields w) as (Hu & Hr & Hl & Ht & Hq & _).
    unfold heldTextures. rewrite Hu, Hr, Hl, Ht, Hq.
    change (publishedBy [EvToggleUi]) with (∅ : gmultiset N).
    ms_solver.
  - change (step EvTimer w) with (onTimer w).
    destruct (onTimer_fields w) as (Hu & Hr & Hl & Ht & Hq & _).
    unfold heldTextures. rewrite Hu, Hr, Hl, Ht, Hq, list_to_set_disj_app.
    change (publishedBy [EvTimer]) with (∅ : gmultiset N).
    rewrite list_to_set_disj_nil. ms_solver.
Qed.

(** X1: along any interleaving of publishes, frames, UI toggles and timer
    ticks no texture handle is lost and none is duplicated: the handles the
    window holds - in the exchange slot, as the texture last drawn, in the
    retirement queue, in the delete queue, or already released to the UI -
    are, as a multiset, the handles it held before together with the
    non-null handles published since. *)
Theorem published_textures_are_conserved (evs : list Event)
  (w : ShadertoyWindow) :
  heldTextures (run evs w) = heldTextures w ⊎ publishedBy evs.
Proof.
  revert w. induction evs as [|e evs IH]; intros w.
  - change (run [] w) with w. change (publishedBy []) with (∅ : gmultiset N).
    ms_solver.
  - change (run (e :: evs) w) with (run evs (step e w)).
    rewrite IH, step_held.
    assert (publishedBy (e :: evs) = publishedBy [e] ⊎ publishedBy evs) as ->.
    { destruct e;
        [change (publishedBy (EvTextureUpdated textureId :: evs))
           with (named textureId ⊎ publishedBy evs);
         change (publishedBy [EvTextureUpdated textureId])
           with (named textureId ⊎ ∅)
        | change (publishedBy [EvFrame wait]) with (∅ : gmultiset N);
          change (publishedBy (EvFrame wait :: evs)) with (publishedBy evs)
        | change (publishedBy [EvToggleUi]) with (∅ : gmultiset N);
          change (publishedBy (EvToggleUi :: evs)) with (publishedBy evs)
        | change (publishedBy [EvTimer]) with (∅ : gmultiset N);
          change (publishedBy (EvTimer :: evs)) with (publishedBy evs)];
        ms_solver. }
    ms_solver.
Qed.

Lemma consumeUiTexture_fencesInOrder w :
  fencesInOrder w -> fencesInOrder (consumeUiTexture w).2.
Proof.
  intros (Hns & Hsorted & Hbound & Hkept).
  destruct (consumeUiTexture_fields w) as (_ & _ & Hhid & Hvis).
  destruct (uiVisible w) eqn:Hv; [|by rewrite Hhid].
  destruct (Hvis eq_refl) as (_ & Hl & Ht & Hls & Hnext). clear Hhid Hvis.
  unfold fencesInOrder. rewrite Hl, Ht, Hls, Hnext. clear Hl Ht Hls Hnext.
  assert (Hlt : Forall (fun s => (s < nextSync w)%N) (textureTrash w).*2).
  { eapply Forall_impl; [exact Hbound|]. cbn. intros; lia. }
  rewrite fmap_app.
  destruct (uiTexture w =? 0)%N eqn:Hslot; cbn [orb].
  - rewrite app_nil_r.
    destruct (lastUiTexture w =? 0)%N eqn:Hk.
    + split_and!; done.
    + apply N.eqb_neq in Hk. destruct (Hkept Hk) as [Hls Hall].
      split_and!; [lia|done| |].
      * eapply Forall_impl; [exact Hbound|]. cbn. intros; lia.
      * intros _. split; [lia|exact Hlt].
  - apply N.eqb_neq in Hslot.
    rewrite (proj2 (N.eqb_neq _ _) Hslot).
    destruct (lastUiTexture w =? 0)%N eqn:Hk; cbn [fmap list_fmap snd].
    + rewrite app_nil_r. split_and!; [lia|done| |].
      * eapply Forall_impl; [exact Hbound|]. cbn. intros; lia.
      * intros _. split; [lia|exact Hlt].
    + apply N.eqb_neq in Hk. destruct (Hkept Hk) as [Hls Hall].
      split_and!; [lia| | |].
      * apply StronglySorted_app_2; [|done|repeat constructor].
        intros x1 x2 Hx1 Hx2. apply list_elem_of_singleton in Hx2 as ->.
        by apply (proj1 (Forall_forall _ _) Hall).
      * apply Forall_app. split.
        -- eapply Forall_impl; [exact Hbound|]. cbn. intros; lia.
        -- repeat constructor; lia.
      * intros _. split; [lia|]. apply Forall_app. split; [exact Hlt|].
        repeat constructor; lia.
Qed.

Lemma collectTrash_fencesInOrder wait w :
  fencesInOrder w -> fencesInOrder (collectTrash wait w).
Proof.
  intros (Hns & Hsorted & Hbound & Hkept).
  destruct (collectTrash_fields wait w)
    as (Ht & _ & _ & Hl & Hls & Hnext & _).
  destruct (drainTrash_partition wait (textureTrash w)) as (em & Heq & _).
  unfold fencesInOrder. rewrite Ht, Hl, Hls, Hnext.
  rewrite Heq, fmap_app in Hsorted, Hbound, Hkept.
  split_and!; [done| | |].
  - by apply StronglySorted_app_1_r in Hsorted.
  - by apply Forall_app in Hbound as [_ ?].
  - intros Hne. destruct (Hkept Hne) as [? Hall].
    split; [done|]. by apply Forall_app in Hall as [_ ?].
Qed.

Lemma step_fencesInOrder e w : fencesInOrder w -> fencesInOrder (step e w).
Proof.
  intros Hinv. destruct e as [h|wait| |].
  - change (step (EvTextureUpdated h) w) with (onTextureUpdated h w).
    destruct (onTextureUpdated_fields h w)
      as (_ & _ & Hl & Ht & _ & Hls & Hnext & _).
    unfold fencesInOrder in *. by rewrite Hl, Ht, Hls, Hnext.
  - change (step (EvFrame wait) w) with (perFrameRender wait w).2.
    unfold perFrameRender.
    pose proof (consumeUiTexture_fencesInOrder w Hinv) as Hc.
    destruct (consumeUiTexture w) as [rep w1].
    by apply collectTrash_fencesInOrder.
  - change (step EvToggleUi w) with (onToggleUi w).
    destruct (onToggleUi_fields w) as (_ & _ & Hl & Ht & _ & Hls & Hnext & _).
    unfold fencesInOrder in *. by rewrite Hl, Ht, Hls, Hnext.
  - change (step EvTimer w) with (onTimer w).
    destruct (onTimer_fields w) as (_ & _ & Hl & Ht & _ & Hls & Hnext & _).
    unfold fencesInOrder in *. by rewrite Hl, Ht, Hls, Hnext.
Qed.

Lemma run_fencesInOrder evs w : fencesInOrder w -> fencesInOrder (run evs w).
Proof.
  revert w. induction evs as [|e evs IH]; intros w Hinv; [done|].
  change (run (e :: evs) w) with (run evs (step e w)).
  by apply IH, step_fencesInOrder.
Qed.

Lemma sorted_fences_complete_in_order wait trash :
  StronglySorted N.lt trash.*2 -> signalsInOrder wait ->
  completesInOrder wait trash.
Proof.
  intros Hsorted Hwait pre p post -> Hp.
  rewrite fmap_app, fmap_cons in Hsorted.
  apply Forall_forall. intros q Hq.
  apply (Hwait q.2 p.2); [|done].
  apply N.lt_le_incl.
  apply (StronglySorted_app_1_elem_of _ _ _ _ _ Hsorted).
  - by apply list_elem_of_fmap_2.
  - apply list_elem_of_here.
Qed.

(** X2: the retirement queue is kept in the order in which its fences were
    issued.  From a window whose fences are in order (the freshly constructed
    window is one), after any events the fences in [textureTrash] are strictly
    increasing, were all issued, and none is the null fence; so whenever the
    driver signals fences in the order they were issued, the fences of the
    queue complete in queue order. *)
Theorem retirement_queue_is_in_fence_order (evs : list Event)
  (w : ShadertoyWindow) (wait : N -> WaitResult) :
  fencesInOrder w ->
  fencesInOrder (run evs w)
  /\ (0%N ∉ (textureTrash (run evs w)).*2)
  /\ (signalsInOrder wait ->
      completesInOrder wait (textureTrash (run evs w))).
Proof.
  intros Hinv. pose proof (run_fencesInOrder evs w Hinv) as Hrun.
  split; [done|]. destruct Hrun as (_ & Hsorted & Hbound & _). split.
  - intros Hin. apply (proj1 (Forall_forall _ _) Hbound) in Hin. lia.
  - intros Hwait. by apply sorted_fences_complete_in_order.
Qed.

(** X4: [onToggleUi] on a hidden UI shows it and sets [eyePosScale] to
    zero; toggling once more gives back the window as it was, the head
    position scale included, except that [savedEyePosScale] now holds that
    scale. *)
Theorem showing_then_hiding_the_ui_restores_the_scale (w : ShadertoyWindow) :
  uiVisible w = false ->
  eyePosScale (renderer (onToggleUi w)) = f32_zero
  /\ uiVisible (onToggleUi w) = true
  /\ onToggleUi (onToggleUi w)
     = set_savedEyePosScale (eyePosScale (renderer w)) w.
Proof.
  intros Hv. unfold onToggleUi.
  destruct w as [r vis sav slot kept ls trs dq tk ns rel]; cbn in *. subst vis.
  cbn. by destruct r.
Qed.

End HandoffMore.

(** ** Channels and the texture cache *)

Section RendererMore.
Context {P : Platform}.

Lemma sameBuild_refl r : sameBuild r r.
Proof. by repeat split. Qed.

Lemma sameBuild_trans r1 r2 r3 :
  sameBuild r1 r2 -> sameBuild r2 r3 -> sameBuild r1 r3.
Proof.
  intros (a1 & a2 & a3 & a4 & a5 & a6 & a7 & a8 & a9 & a10 & a11)
         (b1 & b2 & b3 & b4 & b5 & b6 & b7 & b8 & b9 & b10 & b11).
  unfold sameBuild. split_and!; congruence.
Qed.

(** What [loadTexture] changes: the cache, by at most one new entry, and the
    upload counter. *)
Lemma loadTexture_frame fuel source r t r' :
  loadTexture fuel source r = Some (t, r') ->
  sameBuild r r'
  /\ channels r' = channels r /\ channelSources r' = channelSources r
  /\ textureCache r ⊆ textureCache r'
  /\ exists url,
       resolveAlias fuel (canonicalUrlMap r) source = Some url
       /\ (exists d, textureCache r' !! url = Some d /\ tex d = t)
       /\ match textureCache r !! url with
          | Some _ => r' = r
          | None =>
              textureCache r' = <[url := mkTextureData t (0%N, 0%N)]> (textureCache r)
              /\ (uploads (gl r') <= S (uploads (gl r)))%nat
          end.
Proof.
  unfold loadTexture, load2dTexture. intros Hl.
  destruct (resolveAlias fuel (canonicalUrlMap r) source) as [url|]; [|done].
  destruct (textureCache r !! url) as [d|] eqn:Hc.
  - injection Hl as <- <-.
    split; [apply sameBuild_refl|]. split; [done|]. split; [done|].
    split; [done|]. exists url. rewrite Hc. eauto.
  - destruct (decodes (readAll (toLocalFile source)));
      injection Hl as <- <-; destruct r; cbn in *;
      (split; [by repeat split|]); (split; [done|]); (split; [done|]);
      (split; [by apply insert_subseteq|]);
      exists url; rewrite Hc; (split; [done|]); (split;
        [eexists; by rewrite lookup_insert_eq | split; [done|lia]]).
Qed.

Lemma set_channelSources_frame v r :
  sameBuild r (set_channelSources v r)
  /\ channels (set_channelSources v r) = channels r
  /\ channelSources (set_channelSources v r) = v
  /\ textureCache (set_channelSources v r) = textureCache r
  /\ gl (set_channelSources v r) = gl r.
Proof. destruct r. by repeat split. Qed.

Lemma set_channels_frame v r :
  sameBuild r (set_channels v r)
  /\ channels (set_channels v r) = v
  /\ channelSources (set_channels v r) = channelSources r
  /\ textureCache (set_channels v r) = textureCache r
  /\ gl (set_channels v r) = gl r.
Proof. destruct r. by repeat split. Qed.

(** Every way a call of [setChannelTextureInternal] can return. *)
Lemma setChannelTextureInternal_cases fuel channel type src r r' :
  setChannelTextureInternal fuel channel type src r = Some r' ->
  exists current old,
    channelSources r !! channel = Some current
    /\ channels r !! channel = Some old
    /\ ((src = current /\ r' = r)
        \/ (src <> current
            /\ sameBuild r r'
            /\ channelSources r' = <[channel := src]> (channelSources r)
            /\ textureCache r ⊆ textureCache r'
            /\ exists c,
                 channels r' = <[channel := c]> (channels r)
                 /\ ((src = QUrl_empty /\ c = mkChannel Target_2D None
                      /\ textureCache r' = textureCache r /\ gl r' = gl r)
                     \/ (src <> QUrl_empty
                         /\ (type = VIDEO \/ type = AUDIO)
                         /\ c = mkChannel indeterminate None
                         /\ textureCache r' = textureCache r /\ gl r' = gl r)
                     \/ (src <> QUrl_empty
                         /\ (type = TEXTURE /\ target c = Target_2D
                             \/ type = CUBEMAP /\ target c = Target_CubeMap)
                         /\ exists url d,
                              resolveAlias fuel (canonicalUrlMap r) src
                              = Some url
                              /\ textureCache r' !! url = Some d
                              /\ tex d = texture c
                              /\ match textureCache r !! url with
                                 | Some _ =>
                                     textureCache r' = textureCache r
                                     /\ gl r' = gl r
                                 | None =>
                                     (uploads (gl r')
                                      <= S (uploads (gl r)))%nat
                                 end)))).
Proof.
  unfold setChannelTextureInternal. intros Hs.
  destruct (channelSources r !! channel) as [cur|] eqn:Hcur; [|done].
  destruct (channels r !! channel) as [old|] eqn:Hold; [|done].
  exists cur, old. split; [done|]. split; [done|].
  destruct (decide (src = cur)) as [->|Hne]; [left; by simplify_eq|].
  right. split; [done|].
  set (rm := set_channelSources (<[channel:=src]> (channelSources r)) r) in *.
  destruct (set_channelSources_frame (<[channel:=src]> (channelSources r)) r)
    as (Hb & Hch & Hcs & Hca & Hgl). fold rm in Hb, Hch, Hcs, Hca, Hgl.
  assert (Hfin : forall c, sameBuild r (set_channels c rm)
                 /\ channelSources (set_channels c rm)
                    = <[channel:=src]> (channelSources r)
                 /\ channels (set_channels c rm) = c
                 /\ textureCache (set_channels c rm) = textureCache r
                 /\ gl (set_channels c rm) = gl r).
  { intros c. destruct (set_channels_frame c rm) as (Hb' & ? & ? & ? & ?).
    split; [by eapply sameBuild_trans|]. split_and!; congruence. }
  assert (Hload : forall tgt,
            match loadTexture fuel src rm with
            | Some (t, r0) =>
                Some (set_channels (<[channel:=mkChannel tgt t]> (channels r0)) r0)
            | None => None
            end = Some r' ->
            sameBuild r r'
            /\ channelSources r' = <[channel:=src]> (channelSources r)
            /\ textureCache r ⊆ textureCache r'
            /\ exists c, channels r' = <[channel:=c]> (channels r)
                 /\ target c = tgt
                 /\ exists url d,
                      resolveAlias fuel (canonicalUrlMap r) src = Some url
                      /\ textureCache r' !! url = Some d
                      /\ tex d = texture c
                      /\ match textureCache r !! url with
                         | Some _ =>
                             textureCache r' = textureCache r /\ gl r' = gl r
                         | None => (uploads (gl r') <= S (uploads (gl r)))%nat
                         end).
  { intros tgt Hl.
    destruct (loadTexture fuel src rm) as [[t r0]|] eqn:Hlt; [|done].
    injection Hl as <-.
    apply loadTexture_frame in Hlt
      as (Hb0 & Hch0 & Hcs0 & Hsub & url & Hurl & (d & Hd & Htex) & Hcase).
    destruct (set_channels_frame (<[channel:=mkChannel tgt t]> (channels r0)) r0)
      as (Hb1 & Hc1 & Hs1 & Ha1 & Hg1).
    split; [eapply sameBuild_trans; [|exact Hb1];
            eapply sameBuild_trans; [exact Hb|exact Hb0]|].
    split; [congruence|]. split; [rewrite Ha1, <- Hca; exact Hsub|].
    exists (mkChannel tgt t). split; [congruence|]. split; [done|].
    exists url, d. destruct Hb as (Hm & _). rewrite Hm in Hurl.
    split; [done|]. split; [by rewrite Ha1|]. split; [done|].
    rewrite Hca in Hcase. destruct (textureCache r !! url).
    - subst r0. split; congruence.
    - destruct Hcase as (_ & Hup). by rewrite Hg1, <- Hgl. }
  destruct (decide (QUrl_empty = src)) as [<-|Hnempty].
  - injection Hs as <-.
    destruct (Hfin (<[channel:=mkChannel Target_2D None]> (channels rm)))
      as (? & ? & Hc & Hca' & ?).
    split; [done|]. split; [done|]. split; [by rewrite Hca'|].
    exists (mkChannel Target_2D None). split; [congruence|]. left. done.
  - destruct type.
    + destruct (Hload Target_2D Hs) as (? & ? & ? & c & ? & Htg & Hrest).
      split; [done|]. split; [done|]. split; [done|].
      exists c. split; [done|]. right; right. split; [done|].
      split; [by left|]. done.
    + destruct (Hload Target_CubeMap Hs) as (? & ? & ? & c & ? & Htg & Hrest).
      split; [done|]. split; [done|]. split; [done|].
      exists c. split; [done|]. right; right. split; [done|].
      split; [by right|]. done.
    + injection Hs as <-.
      destruct (Hfin (<[channel:=mkChannel indeterminate None]> (channels rm)))
        as (? & ? & Hc & Hca' & ?).
      split; [done|]. split; [done|]. split; [by rewrite Hca'|].
      exists (mkChannel indeterminate None). split; [congruence|].
      right; left. split_and!; auto.
    + injection Hs as <-.
      destruct (Hfin (<[channel:=mkChannel indeterminate None]> (channels rm)))
        as (? & ? & Hc & Hca' & ?).
      split; [done|]. split; [done|]. split; [by rewrite Hca'|].
      exists (mkChannel indeterminate None). split; [congruence|].
      right; left. split_and!; auto.
Qed.

(** X5: a call of [setChannelTextureInternal] that returns changes nothing
    but slot [channel] of [channels] and of [channelSources], the texture
    cache, which can only grow, and the GL context: the alias table, the
    shaders, the program, the uniform lambdas, the skybox, [vrMode],
    [position], the start time and both scales are what they were, the two
    arrays keep their length, and every other slot is untouched. *)
Theorem setChannel_changes_only_its_slot (fuel channel : nat)
  (type : ChannelInputType) (src : QUrl) (r r' : ShadertoyRenderer) :
  setChannelTextureInternal fuel channel type src r = Some r' ->
  sameBuild r r'
  /\ textureCache r ⊆ textureCache r'
  /\ length (channels r') = length (channels r)
  /\ length (channelSources r') = length (channelSources r)
  /\ (forall j, j <> channel ->
        channels r' !! j = channels r !! j
        /\ channelSources r' !! j = channelSources r !! j).
Proof.
  intros Hs.
  destruct (setChannelTextureInternal_cases _ _ _ _ _ _ Hs)
    as (cur & old & Hcur & Hold & [[-> ->] | (Hne & Hb & Hcs & Hsub & c & Hc & _)]).
  - split; [apply sameBuild_refl|]. by repeat split.
  - split; [done|]. split; [done|]. rewrite Hc, Hcs, !length_insert.
    split; [done|]. split; [done|]. intros j Hj.
    by rewrite !list_lookup_insert_ne.
Qed.

(** X6: changing a channel to the empty identifier, or to a VIDEO or
    AUDIO input, never loads anything: whatever the alias table (no alias walk
    is made, so any fuel will do), the call returns, records the identifier
    and leaves the slot without a texture - with target 2D when the channel is
    cleared, with the target of a default-constructed [Channel] otherwise -
    and neither the texture cache nor the GL context is touched. *)
Theorem clearing_or_unsupported_kind_loads_nothing (channel : nat)
  (type : ChannelInputType) (src current : QUrl) (old : Channel)
  (r : ShadertoyRenderer) :
  channelSources r !! channel = Some current ->
  channels r !! channel = Some old ->
  src <> current ->
  src = QUrl_empty \/ type = VIDEO \/ type = AUDIO ->
  exists r',
    (forall fuel, setChannelTextureInternal fuel channel type src r = Some r')
    /\ channelSources r' !! channel = Some src
    /\ channels r' !! channel
       = Some (mkChannel (if decide (src = QUrl_empty) then Target_2D
                          else indeterminate) None)
    /\ textureCache r' = textureCache r
    /\ gl r' = gl r.
Proof.
  intros Hcur Hold Hne Hkind.
  apply lookup_lt_Some in Hcur as Hlen1. apply lookup_lt_Some in Hold as Hlen2.
  set (c := mkChannel (if decide (src = QUrl_empty) then Target_2D
                       else indeterminate) None).
  exists (set_channels (<[channel := c]> (channels r))
            (set_channelSources (<[channel := src]> (channelSources r)) r)).
  split.
  - intros fuel. unfold setChannelTextureInternal. rewrite Hcur, Hold.
    rewrite decide_False by done. subst c.
    destruct (decide (src = QUrl_empty)) as [->|Hnempty].
    + rewrite decide_True by done. by destruct r.
    + rewrite decide_False by done.
      destruct Hkind as [?|[-> | ->]]; [done| |]; by destruct r.
  - destruct r; cbn in *. split_and!; try done.
    + by apply list_lookup_insert_eq.
    + by apply list_lookup_insert_eq.
Qed.

(** X7: after a TEXTURE or CUBEMAP change to a new, non-empty identifier
    the slot holds exactly the texture the cache has under the canonical URL
    of that identifier - whether it was cached before or has just been
    loaded - with the target of the requested kind, and the identifier is
    recorded. *)
Theorem channel_holds_the_cached_texture (fuel channel : nat)
  (type : ChannelInputType) (src : QUrl) (r r' : ShadertoyRenderer) :
  setChannelTextureInternal fuel channel type src r = Some r' ->
  channelSources r !! channel <> Some src ->
  src <> QUrl_empty ->
  type = TEXTURE \/ type = CUBEMAP ->
  exists url d,
    resolveAlias fuel (canonicalUrlMap r) src = Some url
    /\ textureCache r' !! url = Some d
    /\ channels r' !! channel
       = Some (mkChannel (match type with
                          | CUBEMAP => Target_CubeMap
                          | _ => Target_2D
                          end) (tex d))
    /\ channelSources r' !! channel = Some src.
Proof.
  intros Hs Hcur Hnempty Hty.
  destruct (setChannelTextureInternal_cases _ _ _ _ _ _ Hs)
    as (cur & old & Hcur' & Hold & [[-> ->] | (Hne & Hb & Hcs & Hsub & c & Hc & Hk)]);
    [done|].
  apply lookup_lt_Some in Hcur' as Hlen1. apply lookup_lt_Some in Hold as Hlen2.
  destruct Hk as [(? & _) | [(_ & Hv & _) | (_ & Htg & url & d & Hurl & Hd & Htex & _)]].
  - done.
  - destruct Hty as [-> | ->], Hv; done.
  - exists url, d. split; [done|]. split; [done|]. split.
    + rewrite Hc, list_lookup_insert_eq by done. f_equal.
      destruct c as [tg tx]; cbn in *. subst tx.
      destruct Htg as [[-> ->] | [-> ->]]; done.
    + rewrite Hcs. by apply list_lookup_insert_eq.
Qed.

(** X8: once [loadTexture] has returned for an identifier, loading any
    identifier with the same canonical URL returns the same texture and
    changes nothing; and one call uploads at most one texture. *)
Theorem aliases_share_one_cache_entry (fuel : nat) (source source' : QUrl)
  (r r1 : ShadertoyRenderer) (t : option N) :
  loadTexture fuel source r = Some (t, r1) ->
  resolveAlias fuel (canonicalUrlMap r) source'
  = resolveAlias fuel (canonicalUrlMap r) source ->
  loadTexture fuel source' r1 = Some (t, r1)
  /\ (uploads (gl r1) <= S (uploads (gl r)))%nat.
Proof.
  intros Hl Heq.
  apply loadTexture_frame in Hl
    as (Hb & _ & _ & _ & url & Hurl & (d & Hd & Htex) & Hcase).
  destruct Hb as (Hm & _). split.
  - unfold loadTexture. rewrite Hm, Heq, Hurl, Hd. by rewrite Htex.
  - destruct (textureCache r !! url).
    + subst r1. lia.
    + by destruct Hcase as (_ & Hup).
Qed.



Lemma addAliases_targetsCached scheme i fileName url alias
  (cache : gmap string TextureData) t size_ :
  (forall k v, alias !! k = Some v ->
     exists d n, cache !! v = Some d /\ tex d = Some n) ->
  forall k v,
    addAliases scheme i fileName url alias !! k = Some v ->
    exists d n, <[url := mkTextureData (Some t) size_]> cache !! v = Some d
                /\ tex d = Some n.
Proof.
  intros Hold k v. unfold addAliases. rewrite !lookup_insert_Some.
  assert (Hnew : exists d n,
            <[url := mkTextureData (Some t) size_]> cache !! url = Some d
            /\ tex d = Some n).
  { eexists _, t. by rewrite lookup_insert_eq. }
  intros [[_ <-]|[_ [[_ <-]|[_ [[_ <-]|[_ Hkv]]]]]]; try done.
  destruct (decide (url = v)) as [<-|Hne]; [done|].
  rewrite lookup_insert_ne by done. by eapply Hold.
Qed.

Lemma initTexture_targetsCached i res r :
  aliasTargetsCached r -> aliasTargetsCached (initTexture i res r).
Proof.
  intros Hr. unfold initTexture, load2dTextureOfResource.
  destruct res as [path|]; [|done].
  unfold aliasTargetsCached. destruct r; cbn in *.
  by apply addAliases_targetsCached.
Qed.

Lemma initCubemap_targetsCached i res r :
  aliasTargetsCached r -> aliasTargetsCached (initCubemap i res r).
Proof.
  intros Hr. unfold initCubemap, loadCubemapTexture.
  destruct res as [path|]; [|done].
  unfold aliasTargetsCached. destruct r; cbn in *.
  by apply addAliases_targetsCached.
Qed.

Lemma initLoop_targetsCached body i table r :
  (forall i res r, aliasTargetsCached r -> aliasTargetsCached (body i res r)) ->
  aliasTargetsCached r -> aliasTargetsCached (initLoop body i table r).
Proof.
  intros Hbody. revert i r. induction table as [|res rest IH]; intros i r Hr.
  - done.
  - cbn. apply IH, Hbody, Hr.
Qed.

(** X9: after [initTextureCache] on an empty alias table every alias it
    has registered is backed by a cached texture: loading the alias and
    loading the bundled URL it stands for return the same texture, and
    neither call changes the renderer (no file is read, nothing is
    uploaded). *)
Theorem legacy_identifiers_load_without_upload (r0 : ShadertoyRenderer)
  (fuel : nat) (legacy url : QUrl) :
  canonicalUrlMap r0 = ∅ ->
  (1 <= fuel)%nat ->
  canonicalUrlMap (initTextureCache r0) !! legacy = Some url ->
  exists t,
    loadTexture fuel legacy (initTextureCache r0)
    = Some (Some t, initTextureCache r0)
    /\ loadTexture fuel url (initTextureCache r0)
       = Some (Some t, initTextureCache r0).
Proof.
  intros Hempty Hfuel Hk.
  assert (Hq : aliasesPointToQrc (canonicalUrlMap (initTextureCache r0))).
  { unfold initTextureCache.
    apply initLoop_pointToQrc; [apply initCubemap_pointToQrc|].
    apply initLoop_pointToQrc; [apply initTexture_pointToQrc|].
    intros k v. by rewrite Hempty, lookup_empty. }
  assert (Hc : aliasTargetsCached (initTextureCache r0)).
  { unfold initTextureCache.
    apply initLoop_targetsCached; [apply initCubemap_targetsCached|].
    apply initLoop_targetsCached; [apply initTexture_targetsCached|].
    intros k v. by rewrite Hempty, lookup_empty. }
  apply aliasesPointToQrc_flat in Hq.
  destruct (Hc _ _ Hk) as (d & t & Hd & Ht). exists t.
  assert (Hv : canonicalUrlMap (initTextureCache r0) !! url = None)
    by by eapply Hq.
  assert (Hr1 : resolveAlias fuel (canonicalUrlMap (initTextureCache r0)) legacy
                = Some url).
  { apply (resolveAlias_mono 1); [|done]. cbn. by rewrite Hk, Hv. }
  assert (Hr2 : resolveAlias fuel (canonicalUrlMap (initTextureCache r0)) url
                = Some url).
  { apply (resolveAlias_mono 0); [|lia]. cbn. by rewrite Hv. }
  unfold loadTexture. by rewrite Hr1, Hr2, Hd, Ht.
Qed.

Lemma setShaderChannels_other fuel idx shader r r' :
  setShaderChannels fuel idx shader r = Some r' ->
  forall j, j ∉ idx ->
    channelSources r' !! j = channelSources r !! j
    /\ channels r' !! j = channels r !! j.
Proof.
  revert r. induction idx as [|i idx IH]; intros r; cbn.
  - by intros [= <-].
  - intros Hs j Hj. apply not_elem_of_cons in Hj as [Hji Hj].
    destruct (channelTypes shader !! i) as [ty|]; [|done].
    destruct (channelTextures shader !! i) as [src|]; [|done].
    destruct (setChannelTextureInternal fuel i ty src r) as [r1|] eqn:Hset;
      [|done].
    destruct (IH _ Hs j Hj) as [-> ->].
    destruct (setChannelTextureInternal_cases _ _ _ _ _ _ Hset)
      as (cur & old & _ & _ & [[_ ->] | (_ & _ & Hcs & _ & c & Hc & _)]);
      [done|].
    rewrite Hcs, Hc. by rewrite !list_lookup_insert_ne.
Qed.

Lemma setShaderChannels_sources fuel idx shader r r' :
  NoDup idx ->
  setShaderChannels fuel idx shader r = Some r' ->
  forall i, i ∈ idx ->
    channelSources r' !! i = channelTextures shader !! i
    /\ is_Some (channelSources r' !! i).
Proof.
  intros Hnd. revert r. induction Hnd as [|i idx Hi Hnd IH]; intros r; cbn.
  - intros _ i Hin. by apply elem_of_nil in Hin.
  - intros Hs j Hj.
    destruct (channelTypes shader !! i) as [ty|]; [|done].
    destruct (channelTextures shader !! i) as [src|] eqn:Hsrc; [|done].
    destruct (setChannelTextureInternal fuel i ty src r) as [r1|] eqn:Hset;
      [|done].
    apply elem_of_cons in Hj as [->|Hj]; [|by eapply IH].
    destruct (setShaderChannels_other _ _ _ _ _ Hs i Hi) as [-> _].
    destruct (setChannelTextureInternal_source _ _ _ _ _ _ Hset) as [-> _].
    by rewrite Hsrc.
Qed.

(** What a build leaves alone. *)
Lemma setShaderSourceInternal_frame now source r :
  let r' := (setShaderSourceInternal now source r).2 in
  channels r' = channels r /\ channelSources r' = channelSources r
  /\ textureCache r' = textureCache r
  /\ canonicalUrlMap r' = canonicalUrlMap r
  /\ gl r' = gl r /\ eyePosScale r' = eyePosScale r
  /\ is_Some (vertexShader r')
  /\ (forall vs, vertexShader r = Some vs -> vertexShader r' = Some vs)
  /\ (is_Some (shadertoyProgram r) -> is_Some (shadertoyProgram r')).
Proof.
  unfold setShaderSourceInternal, ensureVertexShader, updateUniformsOf.
  destruct r as [cm tc ch cs vr tr es st ul po sk vs fs pr g]; cbn.
  destruct vs as [vs|]; cbn.
  - destruct (compileShader FragmentKind _); cbn;
      [destruct (linkProgram _ _); cbn|]; split_and!; eauto.
  - destruct (compileShader VertexKind _); cbn;
      [destruct (compileShader FragmentKind _); cbn;
       [destruct (linkProgram _ _); cbn|]|]; split_and!; eauto; done.
Qed.

(** X10: when [setShaderInternal] returns, [channelSources] holds, for
    every channel below [MAX_CHANNELS], the identifier the shader names for
    it - also for the channels whose identifier was the current one, for which
    [setChannelTextureInternal] returns early - and the build that follows
    leaves these records alone. *)
Theorem setShaderInternal_records_every_identifier (fuel : nat) (now : float)
  (shader : Shader) (r : ShadertoyRenderer)
  (result : bool * Signal * ShadertoyRenderer) :
  setShaderInternal fuel now shader r = Some result ->
  forall i, (i < MAX_CHANNELS)%nat ->
    is_Some (channelTextures shader !! i)
    /\ channelSources result.2 !! i = channelTextures shader !! i.
Proof.
  unfold setShaderInternal. intros Hs i Hi.
  destruct (setShaderChannels fuel (seq 0 MAX_CHANNELS) shader r)
    as [r1|] eqn:Hc; [|done].
  injection Hs as <-.
  destruct (setShaderSourceInternal_frame now (fragmentSource shader) r1)
    as (_ & Hcs & _). cbn in Hcs. rewrite Hcs.
  destruct (setShaderChannels_sources _ _ _ _ _ (NoDup_seq 0 MAX_CHANNELS) Hc i)
    as [Heq Hsome].
  { apply elem_of_seq. lia. }
  split; [by rewrite <- Heq | done].
Qed.

End RendererMore.

(** ** Uniforms, queued tasks and start-up *)

Section BuildMore.
Context {P : Platform}.

(** The unit written last at location [k], or what was there. *)
Lemma bindSamplerUnits_fold (active : gmap string N) (k : N) l
  (ints : gmap N Z) :
  foldl (fun acc i =>
           match active !! UNIFORM_CHANNELS i with
           | Some loc => <[loc := Z.of_nat i]> acc
           | None => acc
           end) ints l !! k
  = foldl (fun acc i =>
             if decide (active !! UNIFORM_CHANNELS i = Some k)
             then Some (Z.of_nat i) else acc) (ints !! k) l.
Proof.
  revert ints. induction l as [|i l IH]; intros ints; [done|].
  cbn [foldl]. rewrite IH. f_equal.
  destruct (active !! UNIFORM_CHANNELS i) as [loc|] eqn:Hloc.
  - destruct (decide (loc = k)) as [->|Hne].
    + rewrite lookup_insert_eq. by rewrite decide_True.
    + rewrite lookup_insert_ne by done. rewrite decide_False; congruence.
  - by rewrite decide_False.
Qed.

Lemma bindSamplerUnits_lookup active ints k :
  bindSamplerUnits active ints !! k
  = foldl (fun acc i =>
             if decide (active !! UNIFORM_CHANNELS i = Some k)
             then Some (Z.of_nat i) else acc) (ints !! k) (seq 0 4).
Proof. apply bindSamplerUnits_fold. Qed.

Lemma last_unit_fold (active : gmap string N) (k : N) l :
  let g := fun (acc : option Z) i =>
             if decide (active !! UNIFORM_CHANNELS i = Some k)
             then Some (Z.of_nat i) else acc in
  (forall o, foldl g o l = o) \/ (exists z, forall o, foldl g o l = Some z).
Proof.
  intros g. induction l as [|i l IH]; [by left|].
  cbn [foldl]. destruct IH as [Hid|[z Hz]].
  - subst g. cbn. destruct (decide (active !! UNIFORM_CHANNELS i = Some k)).
    + right. eexists. intros o. by rewrite Hid.
    + left. intros o. by rewrite Hid.
  - right. exists z. intros o. apply Hz.
Qed.

Lemma bindSamplerUnits_idem active ints :
  bindSamplerUnits active (bindSamplerUnits active ints)
  = bindSamplerUnits active ints.
Proof.
  apply map_eq. intros k. rewrite !bindSamplerUnits_lookup.
  destruct (last_unit_fold active k (seq 0 4)) as [Hid|[z Hz]].
  - by rewrite !Hid.
  - by rewrite !Hz.
Qed.

Lemma updateUniformsOf_idem p r :
  updateUniforms (updateUniformsOf p r) = Some (updateUniformsOf p r).
Proof.
  unfold updateUniforms, updateUniformsOf.
  destruct r; cbn -[bindSamplerUnits buildLambdas].
  by rewrite bindSamplerUnits_idem.
Qed.

Lemma updateUniforms_set_startTime now r :
  updateUniforms (set_startTime now r)
  = set_startTime now <$> updateUniforms r.
Proof.
  unfold updateUniforms. destruct r as [? ? ? ? ? ? ? ? ? ? ? ? ? [p|] ?]; done.
Qed.

(** X11: [updateUniforms] is idempotent: the sampler units it writes and
    the lambda list it builds depend only on the active uniforms of the program
    and on the channel slots, so a second call right after the first leaves
    the renderer as it is. *)
Theorem updateUniforms_twice_is_once (r r1 : ShadertoyRenderer) :
  updateUniforms r = Some r1 ->
  updateUniforms r1 = Some r1.
Proof.
  unfold updateUniforms. destruct (shadertoyProgram r) as [p|]; [|done].
  intros [= <-]. apply updateUniformsOf_idem.
Qed.

(** X12: the task queued by [onShaderSourceChanged], by the outcome of its
    build.  After a successful build the trailing [updateUniforms] changes
    nothing, the build having called it already; after a failed build it
    rebuilds the lambda list from the program that is still in place; and with
    no program in place and a failed build it dereferences a null program. *)
Theorem source_task_outcome (fuel : nat) (now : float) (source : QString)
  (w : ShadertoyWindow) :
  runTask fuel now (TaskShaderSourceChanged source) w
  = match setShaderSourceInternal now source (renderer w),
          shadertoyProgram (renderer w) with
    | (true, _, r1), _ => Some (set_renderer r1 w)
    | (false, _, r1), Some p => Some (set_renderer (updateUniformsOf p r1) w)
    | (false, _, _), None => None
    end.
Proof.
  unfold runTask.
  pose proof (setShaderSourceInternal_outcome now source (renderer w)) as Ho.
  cbn zeta in Ho.
  pose proof (failed_build_state source (renderer w)) as Hf. cbn zeta in Hf.
  destruct (vertexShaderFor (renderer w)) as [vs|].
  - destruct (compileShader FragmentKind _) as [u|log].
    + destruct (linkProgram vs _) as [active|log].
      * rewrite Ho. rewrite updateUniforms_set_startTime.
        by rewrite updateUniformsOf_idem.
      * rewrite Ho. destruct (Hf _ (or_intror eq_refl)) as (Hp & _).
        unfold updateUniforms. rewrite Hp.
        by destruct (shadertoyProgram (renderer w)).
    + rewrite Ho. destruct (Hf _ (or_intror eq_refl)) as (Hp & _).
      unfold updateUniforms. rewrite Hp.
      by destruct (shadertoyProgram (renderer w)).
  - destruct Ho as (log & _ & _ & ->).
    destruct (Hf _ (or_introl eq_refl)) as (Hp & _).
    unfold updateUniforms. rewrite Hp.
    by destruct (shadertoyProgram (renderer w)).
Qed.

(** X13: after [updateUniforms] the sampler uniform of channel [i], when
    active, holds texture unit [i] - the unit the channel lambda of [i] makes
    active before it binds - provided no other channel sampler was given the
    same location; the active uniforms themselves are not changed. *)
Theorem sampler_uniform_holds_its_channel_index (p : Program)
  (r : ShadertoyRenderer) (i : nat) (loc : N) :
  (i < 4)%nat ->
  activeUniforms p !! UNIFORM_CHANNELS i = Some loc ->
  (forall j, (j < 4)%nat ->
     activeUniforms p !! UNIFORM_CHANNELS j = Some loc -> j = i) ->
  exists p',
    shadertoyProgram (updateUniformsOf p r) = Some p'
    /\ activeUniforms p' = activeUniforms p
    /\ uniformInts p' !! loc = Some (Z.of_nat i).
Proof.
  intros Hi Hloc Huniq.
  exists (mkProgram (prog_vertex p) (prog_fragment p) (activeUniforms p)
            (bindSamplerUnits (activeUniforms p) (uniformInts p))).
  split; [by destruct r|]. cbn -[bindSamplerUnits].
  split; [done|]. rewrite bindSamplerUnits_lookup. cbn [seq foldl].
  assert (H0 := Huniq 0%nat). assert (H1 := Huniq 1%nat).
  assert (H2 := Huniq 2%nat). assert (H3 := Huniq 3%nat).
  repeat case_decide;
    repeat match goal with
           | H : (_ < 4)%nat -> ?A -> _, H' : ?A |- _ =>
               specialize (H ltac:(lia) H')
           end; subst; try done;
    destruct i as [|[|[|[|]]]]; try lia; congruence.
Qed.

Lemma keptByTasks_refl r : keptByTasks r r.
Proof. by repeat split. Qed.

Lemma keptByTasks_trans r1 r2 r3 :
  keptByTasks r1 r2 -> keptByTasks r2 r3 -> keptByTasks r1 r3.
Proof.
  intros (Ha & Hc & Hv & Hp & Hl & Hs) (Ha' & Hc' & Hv' & Hp' & Hl' & Hs').
  split_and!; [congruence| by etrans | eauto | eauto | congruence | congruence].
Qed.

Lemma setChannelTextureInternal_kept fuel channel type src r r' :
  setChannelTextureInternal fuel channel type src r = Some r' ->
  keptByTasks r r'.
Proof.
  intros Hs.
  destruct (setChannelTextureInternal_cases _ _ _ _ _ _ Hs)
    as (cur & old & _ & _ & [[_ ->] | (_ & Hb & Hcs & Hsub & c & Hc & _)]).
  - apply keptByTasks_refl.
  - destruct Hb as (Ha & Hv & _ & Hp & _).
    split_and!; [done | done | congruence | congruence | |].
    + by rewrite Hc, length_insert.
    + by rewrite Hcs, length_insert.
Qed.

Lemma setShaderChannels_kept fuel idx shader r r' :
  setShaderChannels fuel idx shader r = Some r' -> keptByTasks r r'.
Proof.
  revert r. induction idx as [|i idx IH]; intros r; cbn.
  - intros [= <-]. apply keptByTasks_refl.
  - destruct (channelTypes shader !! i) as [ty|]; [|done].
    destruct (channelTextures shader !! i) as [src|]; [|done].
    destruct (setChannelTextureInternal fuel i ty src r) as [r1|] eqn:Hset;
      [|done].
    intros Hs. eapply keptByTasks_trans; [|by apply IH].
    by eapply setChannelTextureInternal_kept.
Qed.

Lemma setShaderSourceInternal_kept now source r :
  keptByTasks r (setShaderSourceInternal now source r).2.
Proof.
  destruct (setShaderSourceInternal_frame now source r)
    as (Hc & Hcs & Htc & Ha & _ & _ & _ & Hv & Hp).
  split_and!; [done | by rewrite Htc | done | done | by rewrite Hc
               | by rewrite Hcs].
Qed.

Lemma updateUniforms_kept r r' :
  updateUniforms r = Some r' -> keptByTasks r r'.
Proof.
  unfold updateUniforms. destruct (shadertoyProgram r) as [p|]; [|done].
  intros [= <-]. unfold updateUniformsOf.
  destruct r; cbn -[bindSamplerUnits buildLambdas]. by repeat split.
Qed.

Lemma runTask_kept fuel now t w w' :
  runTask fuel now t w = Some w' -> keptByTasks (renderer w) (renderer w').
Proof.
  destruct t; cbn [runTask].
  - destruct (setChannelTextureInternal _ _ _ _ _) as [r1|] eqn:Hs; [|done].
    destruct (updateUniforms r1) as [r2|] eqn:Hu; [|done].
    intros [= <-]. replace (renderer (set_renderer r2 w)) with r2
      by by destruct w.
    eapply keptByTasks_trans; [by eapply setChannelTextureInternal_kept|].
    by apply updateUniforms_kept.
  - pose proof (setShaderSourceInternal_kept now shaderSource (renderer w))
      as Hk.
    destruct (setShaderSourceInternal _ _ _) as [[ok sig] r1]. cbn in Hk.
    destruct (updateUniforms r1) as [r2|] eqn:Hu; [|done].
    intros [= <-]. replace (renderer (set_renderer r2 w)) with r2
      by by destruct w.
    eapply keptByTasks_trans; [done|]. by apply updateUniforms_kept.
  - unfold setShaderInternal.
    destruct (setShaderChannels _ _ _ _) as [r1|] eqn:Hc; [|done].
    pose proof (setShaderSourceInternal_kept now (fragmentSource shader) r1)
      as Hk.
    destruct (setShaderSourceInternal _ _ _) as [[ok sig] r2]. cbn in Hk.
    destruct (updateUniforms r2) as [r3|] eqn:Hu; [|done].
    intros [= <-]. replace (renderer (set_renderer r3 w)) with r3
      by by destruct w.
    eapply keptByTasks_trans; [by eapply setShaderChannels_kept|].
    eapply keptByTasks_trans; [done|]. by apply updateUniforms_kept.
  - intros [= <-]. destruct w as [r]; destruct r; cbn. by repeat split.
  - intros [= <-]. destruct w as [r]; destruct r; cbn. by repeat split.
  - intros [= <-]. destruct w as [r]; destruct r; cbn. by repeat split.
  - intros [= <-]. destruct w as [r]; destruct r; cbn. by repeat split.
  - intros [= <-]. destruct w as [r]; destruct r; cbn. by repeat split.
Qed.

(** X14: no task of the render thread - channel change, source change,
    shader load, or one of the scalar updates - changes the alias table,
    removes or replaces an entry of the texture cache, replaces a vertex shader
    that is there, or leaves the renderer without a program when it had one;
    [channels] and [channelSources] keep their length. *)
Theorem tasks_never_undo_the_start_up (fuel : nat) (now : float)
  (ts : list Task) (w w' : ShadertoyWindow) :
  runTasks fuel now ts w = Some w' ->
  keptByTasks (renderer w) (renderer w').
Proof.
  revert w. induction ts as [|t ts IH]; intros w; cbn.
  - intros [= <-]. apply keptByTasks_refl.
  - destruct (runTask fuel now t w) as [w1|] eqn:Ht; [|done].
    intros Hs. eapply keptByTasks_trans; [by eapply runTask_kept|by apply IH].
Qed.







Lemma initLoop_frame body i table r :
  (forall i res r,
     channels (body i res r) = channels r
     /\ channelSources (body i res r) = channelSources r
     /\ shadertoyProgram (body i res r) = shadertoyProgram r
     /\ vertexShader (body i res r) = vertexShader r) ->
  channels (initLoop body i table r) = channels r
  /\ channelSources (initLoop body i table r) = channelSources r
  /\ shadertoyProgram (initLoop body i table r) = shadertoyProgram r
  /\ vertexShader (initLoop body i table r) = vertexShader r.
Proof.
  intros Hbody. revert i r. induction table as [|res rest IH]; intros i r.
  - done.
  - cbn. destruct (IH (S i) (body i res r)) as (-> & -> & -> & ->).
    apply Hbody.
Qed.

Lemma initTextureCache_frame r :
  channels (initTextureCache r) = channels r
  /\ channelSources (initTextureCache r) = channelSources r
  /\ shadertoyProgram (initTextureCache r) = shadertoyProgram r
  /\ vertexShader (initTextureCache r) = vertexShader r.
Proof.
  unfold initTextureCache.
  destruct (initLoop_frame initCubemap 0 CUBEMAPS
              (initLoop initTexture 0 TEXTURES r)) as (-> & -> & -> & ->).
  { intros i [path|] r0; [|done]. by destruct r0. }
  apply initLoop_frame. intros i [path|] r0; [|done]. by destruct r0.
Qed.

(** X16: [setup] on the freshly constructed renderer passes its assertion
    exactly when the build of the default fragment shader succeeds; the
    renderer it then leaves is the built one with a skybox, its alias table
    is flat, it has a program, the arrays have four slots, every alias
    target is in the texture cache with a texture, and the vertex shader is
    there. *)
Theorem setup_outcome (now : float) (defaultFs : QString) :
  let built := setShaderSourceInternal now defaultFs
                 (initTextureCache newRenderer) in
  match setup now defaultFs newRenderer with
  | Some r =>
      built.1.1 = true
      /\ r = set_skybox true built.2
      /\ rendererReady r
      /\ aliasTargetsCached r
      /\ is_Some (vertexShader r)
  | None => built.1.1 = false
  end.
Proof.
  intros built. unfold setup. fold built.
  pose proof (setShaderSourceInternal_outcome now defaultFs
                (initTextureCache newRenderer)) as Ho. cbn zeta in Ho.
  pose proof (failed_build_state defaultFs (initTextureCache newRenderer))
    as Hf. cbn zeta in Hf.
  pose proof (setShaderSourceInternal_frame now defaultFs
                (initTextureCache newRenderer))
    as (Hc & Hcs & Htc & Ha & _ & _ & Hv & _ & _). cbn zeta in *.
  fold built in Ho, Hc, Hcs, Htc, Ha, Hv.
  destruct (initTextureCache_frame newRenderer) as (Hc0 & Hcs0 & Hp0 & _).
  assert (Hok : built.1.1 = bool_decide (is_Some (shadertoyProgram built.2))).
  { destruct (vertexShaderFor _) as [vs|].
    - destruct (compileShader FragmentKind _) as [u|log].
      + destruct (linkProgram vs _) as [active|log].
        * rewrite Ho. cbn -[updateUniformsOf]. symmetry.
          apply bool_decide_eq_true. unfold updateUniformsOf.
          destruct (ensureVertexShader _).1. by eexists.
        * rewrite Ho. cbn. destruct (Hf _ (or_intror eq_refl)) as (-> & _).
          rewrite Hp0. symmetry. apply bool_decide_eq_false. by intros [? ?].
      + rewrite Ho. cbn. destruct (Hf _ (or_intror eq_refl)) as (-> & _).
        rewrite Hp0. symmetry. apply bool_decide_eq_false. by intros [? ?].
    - destruct Ho as (log & _ & _ & ->). cbn.
      destruct (Hf _ (or_introl eq_refl)) as (-> & _).
      rewrite Hp0. symmetry. apply bool_decide_eq_false. by intros [? ?]. }
  destruct built as [[ok sig] r1] eqn:Hb. cbn in *.
  destruct (shadertoyProgram r1) as [p|] eqn:Hp.
  - split; [rewrite Hok; by apply bool_decide_eq_true|]. split; [done|].
    assert (Hflat := initTextureCache_flat).
    split_and!.
    + split_and!.
      * replace (canonicalUrlMap (set_skybox true r1)) with (canonicalUrlMap r1)
          by by destruct r1. by rewrite Ha.
      * replace (shadertoyProgram (set_skybox true r1))
          with (shadertoyProgram r1) by by destruct r1. by rewrite Hp.
      * replace (channels (set_skybox true r1)) with (channels r1)
          by by destruct r1. by rewrite Hc, Hc0.
      * replace (channelSources (set_skybox true r1))
          with (channelSources r1) by by destruct r1. by rewrite Hcs, Hcs0.
    + assert (Hcached : aliasTargetsCached (initTextureCache newRenderer)).
      { unfold initTextureCache.
        apply initLoop_targetsCached; [apply initCubemap_targetsCached|].
        apply initLoop_targetsCached; [apply initTexture_targetsCached|].
        intros k v. cbn. by rewrite lookup_empty. }
      unfold aliasTargetsCached in *.
      replace (canonicalUrlMap (set_skybox true r1)) with (canonicalUrlMap r1)
        by by destruct r1.
      replace (textureCache (set_skybox true r1)) with (textureCache r1)
        by by destruct r1.
      by rewrite Ha, Htc.
    + replace (vertexShader (set_skybox true r1)) with (vertexShader r1)
        by by destruct r1. done.
  - rewrite Hok. apply bool_decide_eq_false. by intros [? ?].
Qed.

(** X19: the signal a build emits agrees with the value it returns, so the
    error panel driven by the handlers of [compileSuccess] and [compileError]
    shows the outcome of the last build whatever it showed before: hidden,
    of height 0, without margin and with an empty text after [true]; visible,
    of height 128, with margin 8 and the log of the failing driver step as
    text after [false]. *)
Theorem error_panel_shows_the_last_build (now : float) (source : QString)
  (r : ShadertoyRenderer) (panel : ErrorPanel) :
  let '(ok, sig, _) := setShaderSourceInternal now source r in
  let panel' := onCompileSignal sig panel in
  errorFrameVisible panel' = negb ok
  /\ errorFrameHeight panel' = (if ok then 0 else 128)
  /\ errorMargin panel' = (if ok then 0 else 8)
  /\ if ok then compileErrorsText panel' = ""
     else exists log, BuildFails source r log /\ compileErrorsText panel' = log.
Proof.
  destruct (build_succeeds_or_fails now source r)
    as [(r' & ->) | (log & r' & Hfail & ->)]; cbn.
  - done.
  - split_and!; try done. by exists log.
Qed.

End BuildMore.

Lemma lineBreaks_app (a b : string) :
  lineBreaks (a ++ b) = (lineBreaks a + lineBreaks b)%nat.
Proof.
  induction a as [|c a IH]; [done|].
  change (String c a ++ b)%string with (String c (a ++ b)).
  cbn [lineBreaks]. rewrite IH. lia.
Qed.

Lemma lineBreaks_prefix (word s : string) :
  String.prefix word s = true ->
  lineBreaks s
  = (lineBreaks word + lineBreaks (string_drop (String.length word) s))%nat.
Proof.
  revert s. induction word as [|c word IH]; intros s; [done|]. cbn.
  destruct s as [|d s]; [done|].
  cbn [String.prefix]. destruct (Ascii.ascii_dec c d) as [->|]; [|done].
  intros Hp. cbn [lineBreaks]. rewrite (IH _ Hp). lia.
Qed.

Lemma replace_word_from_lineBreaks (word by_ : string) :
  word <> "" -> lineBreaks word = 0%nat -> lineBreaks by_ = 0%nat ->
  forall s skip prev,
    lineBreaks (replace_word_from skip prev word by_ s)
    = lineBreaks (string_drop skip s).
Proof.
  intros Hne Hw Hb. induction s as [|c rest IH]; intros skip prev.
  - by destruct skip.
  - destruct skip as [|k]; cbn [replace_word_from string_drop]; [|apply IH].
    destruct (negb prev && String.prefix word (String c rest)
              && negb (starts_with_word_char
                         (string_drop (String.length word) (String c rest))))
      eqn:Hm.
    + apply andb_prop in Hm as [Hm _]. apply andb_prop in Hm as [_ Hp].
      rewrite lineBreaks_app, Hb, IH. rewrite (lineBreaks_prefix _ _ Hp), Hw.
      destruct word as [|w0 word]; [done|]. cbn. by rewrite Nat.sub_0_r.
    + cbn. by rewrite IH.
Qed.

(** X17: the three replacements of [setShaderSourceInternal] replace words
    within a line: the rewritten text has as many line breaks as the text the
    user wrote, so the line numbers the driver counts from the [#line] header
    are those of the user's text. *)
Theorem rewriting_keeps_the_line_count (source : QString) :
  lineBreaks (rewriteSource source) = lineBreaks source.
Proof.
  unfold rewriteSource, replace_word.
  do 3 (rewrite replace_word_from_lineBreaks
          by (done || (vm_compute; reflexivity)); cbn [string_drop]).
  done.
Qed.

Section ResolutionMore.
Context {P : Platform}.

Lemma presses_queue (scales : list double) w :
  let w' := foldl (fun w scale => onModifyTextureResolution scale w) w scales in
  renderer w' = renderer w
  /\ tasks w' = tasks w
                ++ map TaskSetTexRes (queuedRes (texRes (renderer w)) scales).
Proof.
  revert w. induction scales as [|s scales IH]; intros w; cbn zeta.
  - split; [done|]. unfold queuedRes. cbn. by rewrite app_nil_r.
  - cbn [foldl]. destruct (IH (onModifyTextureResolution s w)) as [Hr Ht].
    cbn zeta in Hr, Ht. rewrite Hr, Ht. clear Hr Ht.
    unfold queuedRes. cbn [map List.filter]. unfold requestedRes at 2.
    unfold onModifyTextureResolution, queueRenderThreadTask.
    destruct (f_ne (clampRes (scaledRes s (texRes (renderer w))))
                (texRes (renderer w))).
    + destruct w; cbn. split; [done|]. by rewrite <- app_assoc.
    + done.
Qed.

Lemma last_cons_default {A} (x : A) l d d' :
  List.last (x :: l) d = List.last (x :: l) d'.
Proof.
  revert x. induction l as [|y l IH]; intros x; [done|].
  change (List.last (y :: l) d = List.last (y :: l) d'). apply IH.
Qed.

Lemma runTasks_setTexRes fuel now (vs : list float) w :
  exists w',
    runTasks fuel now (map TaskSetTexRes vs) w = Some w'
    /\ texRes (renderer w') = List.last vs (texRes (renderer w))
    /\ tasks w' = tasks w.
Proof.
  revert w. induction vs as [|v vs IH]; intros w.
  - by exists w.
  - cbn [map runTasks runTask].
    destruct (IH (set_renderer (set_texRes v (renderer w)) w))
      as (w' & Hrun & Hres & Ht).
    exists w'. split; [done|]. rewrite Hres, Ht.
    split; [|by destruct w].
    replace (texRes (renderer (set_renderer (set_texRes v (renderer w)) w)))
      with v by (destruct w as [r]; by destruct r).
    destruct vs as [|v' vs]; [done|].
    change (List.last (v :: v' :: vs) (texRes (renderer w)))
      with (List.last (v' :: vs) (texRes (renderer w))).
    apply last_cons_default.
Qed.

(** X18: resolution changes requested before the render thread next runs
    its tasks do not compound.  [onModifyTextureResolution] reads [texRes],
    which only the queued task writes; so after any number of requests and one
    run of the queue, [texRes] is the clamped product of one factor - the last
    one whose request differed from the scale in force - with the scale there
    was before the first request, or that scale if no request differed. *)
Theorem resolution_presses_before_a_frame_do_not_compound (fuel : nat)
  (now : float) (scales : list double) (w : ShadertoyWindow) :
  tasks w = [] ->
  exists w',
    drainTasks fuel now
      (foldl (fun w scale => onModifyTextureResolution scale w) w scales)
    = Some w'
    /\ tasks w' = []
    /\ texRes (renderer w')
       = List.last (queuedRes (texRes (renderer w)) scales)
           (texRes (renderer w)).
Proof.
  intros Hempty. unfold drainTasks.
  destruct (presses_queue scales w) as [Hr Ht]. cbn zeta in Hr, Ht.
  rewrite Ht, Hempty, app_nil_l.
  destruct (runTasks_setTexRes fuel now
              (queuedRes (texRes (renderer w)) scales)
              (set_tasks [] (foldl (fun w scale =>
                                      onModifyTextureResolution scale w)
                               w scales))) as (w' & Hrun & Hres & Htasks).
  exists w'. split; [done|]. split.
  - rewrite Htasks. by destruct (foldl _ _ _).
  - rewrite Hres. f_equal.
    replace (renderer (set_tasks [] (foldl (fun w scale =>
                                      onModifyTextureResolution scale w)
                               w scales)))
      with (renderer (foldl (fun w scale =>
                               onModifyTextureResolution scale w) w scales))
      by by destruct (foldl _ _ _).
    by rewrite Hr.
Qed.

End ResolutionMore.

(** ** The fetcher *)

Section FetcherProps.
Context {E : FetchEnv}.

Lemma fetchUrl_Some url f s :
  currentNetworkRequests s < INT_MAX ->
  fetchUrl url f s
  = Some (mkFetcher (shadersToFetch s) (currentNetworkRequests s + 1)
            (timerActive s) (replies s ++ [mkReply url f]) (files s)).
Proof.
  intros Hlt. unfold fetchUrl. rewrite decide_False by lia. by destruct s.
Qed.

Lemma fetchShader_Some key nextShaderId s :
  currentNetworkRequests s <= 4 ->
  fetchShader key nextShaderId s
  = Some (mkFetcher (shadersToFetch s)
            (currentNetworkRequests s
             + Z.of_nat (length (requestsFor key (files s) nextShaderId)))
            (timerActive s)
            (replies s ++ requestsFor key (files s) nextShaderId) (files s)).
Proof.
  intros Hle. unfold fetchShader, fetchFile, requestsFor, fileExists, fetchUrl.
  destruct s as [q n t rs fs]. cbn [files currentNetworkRequests] in *.
  destruct (bool_decide (is_Some (fs !! shaderFileOf nextShaderId))) eqn:Ha;
    destruct (bool_decide (is_Some (fs !! shaderPreviewFileOf nextShaderId)))
      eqn:Hb;
    repeat first [ rewrite decide_False by (unfold INT_MAX; lia)
                 | rewrite Hb
                 | progress cbn [andb negb files currentNetworkRequests
                                 set_currentNetworkRequests set_replies
                                 replies shadersToFetch timerActive app
                                 length] ];
    rewrite ?app_nil_r, ?Z.add_0_r, <- ?app_assoc;
    do 2 f_equal; lia.
Qed.

Lemma requestsFor_length key fs nextShaderId :
  (length (requestsFor key fs nextShaderId) <= 2)%nat.
Proof. unfold requestsFor. repeat case_bool_decide; cbn; lia. Qed.

(** The loop, by the ids it pops. *)
Lemma fetchLoop_spec key queue s :
  shadersToFetch s = queue ->
  exists popped rest,
    queue = popped ++ rest
    /\ fetchLoop key queue s
       = Some (mkFetcher rest
                 (currentNetworkRequests s
                  + Z.of_nat (length (flat_map (requestsFor key (files s))
                                        popped)))
                 (timerActive s)
                 (replies s ++ flat_map (requestsFor key (files s)) popped)
                 (files s))
    /\ (rest = []
        \/ 4 < currentNetworkRequests s
               + Z.of_nat (length (flat_map (requestsFor key (files s))
                                     popped)))
    /\ (forall pre nextShaderId post,
          popped = pre ++ nextShaderId :: post ->
          currentNetworkRequests s
          + Z.of_nat (length (flat_map (requestsFor key (files s)) pre)) <= 4)
    /\ currentNetworkRequests s
       + Z.of_nat (length (flat_map (requestsFor key (files s)) popped))
       <= Z.max (currentNetworkRequests s) 6.
Proof.
  revert s. induction queue as [|x queue IH]; intros s Hq.
  - exists [], []. cbn. rewrite app_nil_r, Z.add_0_r.
    split; [done|]. split; [destruct s; cbn in *; by subst|].
    split; [by left|]. split; [|lia].
    intros pre y post Hp. by destruct pre.
  - cbn [fetchLoop]. destruct (Z.leb_spec (currentNetworkRequests s) 4) as [Hle|Hgt].
    + rewrite fetchShader_Some by (by destruct s).
      set (s1 := mkFetcher _ _ _ _ _).
      assert (Hq1 : shadersToFetch s1 = queue) by (subst s1; by destruct s).
      destruct (IH s1 Hq1)
        as (popped & rest & Hqueue & Hrun & Hstop & Hpre & Hmax).
      assert (Hfiles : files s1 = files s) by (subst s1; by destruct s).
      assert (Hrep : replies s1 = replies s ++ requestsFor key (files s) x)
        by (subst s1; by destruct s).
      assert (Hcnt : currentNetworkRequests s1
                     = currentNetworkRequests s
                       + Z.of_nat (length (requestsFor key (files s) x)))
        by (subst s1; by destruct s).
      assert (Htim : timerActive s1 = timerActive s)
        by (subst s1; by destruct s).
      rewrite Hfiles, Hrep, Hcnt, Htim in *. clear Hfiles Hrep Hcnt Htim.
      pose proof (requestsFor_length key (files s) x) as Hlen.
      exists (x :: popped), rest. cbn [flat_map]. rewrite length_app.
      split; [by rewrite Hqueue|]. split.
      { rewrite Hrun. f_equal. f_equal; [lia | by rewrite app_assoc]. }
      split; [destruct Hstop as [->|Hstop]; [by left | right; lia]|].
      split.
      * intros pre y post Hp. destruct pre as [|z pre].
        { cbn. lia. }
        injection Hp as <- Hp. cbn [flat_map]. rewrite length_app.
        specialize (Hpre _ _ _ Hp). lia.
      * lia.
    + exists [], (x :: queue). cbn. rewrite app_nil_r, Z.add_0_r.
      split; [done|]. split; [destruct s; cbn in *; by subst|].
      split; [right; lia|]. split; [|lia].
      intros pre y post Hp. by destruct pre.
Qed.

(** X20: what one call of [fetchNextShader] does when an API key is
    compiled in.  It never overflows the request counter; it pops ids from the
    front of [shadersToFetch], each popped while at most 4 requests were in
    flight, and stops when the queue is empty or more than 4 are in flight;
    for every popped id it issues one request per missing file, the shader
    before its preview, and none when both files exist; it stops the timer
    exactly when the queue is left empty; the files are not touched, and the
    number of requests in flight ends at no more than the larger of 6 and
    what it was. *)
Theorem fetchNextShader_postcondition (key : string) (s : ShadertoyFetcher) :
  SHADERTOY_API_KEY = Some key ->
  exists popped rest,
    let issued := flat_map (requestsFor key (files s)) popped in
    let inFlight := currentNetworkRequests s + Z.of_nat (length issued) in
    shadersToFetch s = popped ++ rest
    /\ fetchNextShader s
       = Some (mkFetcher rest inFlight
                 (match rest with [] => false | _ :: _ => timerActive s end)
                 (replies s ++ issued) (files s))
    /\ (rest = [] \/ 4 < inFlight)
    /\ (forall pre nextShaderId post,
          popped = pre ++ nextShaderId :: post ->
          currentNetworkRequests s
          + Z.of_nat (length (flat_map (requestsFor key (files s)) pre)) <= 4)
    /\ inFlight <= Z.max (currentNetworkRequests s) 6.
Proof.
  intros Hkey. unfold fetchNextShader. rewrite Hkey.
  destruct (fetchLoop_spec key (shadersToFetch s) s eq_refl)
    as (popped & rest & Hq & Hrun & Hstop & Hpre & Hmax).
  exists popped, rest. cbn zeta. rewrite Hrun. cbn [shadersToFetch].
  split; [done|]. split; [by destruct rest|]. done.
Qed.

Lemma fetchNextShader_cases s :
  fetchNextShader s = Some s
  \/ exists key popped rest,
       let issued := flat_map (requestsFor key (files s)) popped in
       let inFlight := currentNetworkRequests s + Z.of_nat (length issued) in
       fetchNextShader s
       = Some (mkFetcher rest inFlight
                 (match rest with [] => false | _ :: _ => timerActive s end)
                 (replies s ++ issued) (files s))
       /\ inFlight <= Z.max (currentNetworkRequests s) 6.
Proof.
  destruct SHADERTOY_API_KEY as [key|] eqn:Hkey.
  - right. destruct (fetchLoop_spec key (shadersToFetch s) s eq_refl)
      as (popped & rest & Hq & Hrun & Hstop & Hpre & Hmax).
    exists key, popped, rest. cbn zeta. unfold fetchNextShader.
    rewrite Hkey, Hrun. cbn [shadersToFetch]. split; [by destruct rest|done].
  - left. unfold fetchNextShader. by rewrite Hkey.
Qed.

Lemma runHandler_counter f replyBuffer s :
  currentNetworkRequests (runHandler f replyBuffer s) = currentNetworkRequests s
  /\ replies (runHandler f replyBuffer s) = replies s.
Proof.
  destruct f as [path|]; cbn; [destruct (opensForWriting path)|];
    by destruct s.
Qed.

Lemma runHandler_files f replyBuffer s path :
  is_Some (files s !! path) ->
  is_Some (files (runHandler f replyBuffer s) !! path).
Proof.
  intros Hp. destruct f as [p|]; cbn; [destruct (opensForWriting p)|];
    destruct s; cbn in *; try done.
  destruct (decide (p = path)) as [->|Hne].
  - rewrite lookup_insert_eq. by eexists.
  - by rewrite lookup_insert_ne.
Qed.

Lemma fetcherStep_counter e s bound :
  counterMatches s ->
  6 <= bound ->
  currentNetworkRequests s <= bound ->
  bound + listRequests [e] <= INT_MAX ->
  exists s',
    fetcherStep e s = Some s'
    /\ counterMatches s'
    /\ currentNetworkRequests s' <= bound + listRequests [e].
Proof.
  unfold counterMatches. intros Hm Hb Hle Hmax. destruct e as [| |i buf]; cbn.
  - unfold fetchNetworkShaders.
    unfold listRequests in *; cbn in *.
    destruct SHADERTOY_API_KEY as [key|].
    + rewrite fetchUrl_Some by lia. eexists. split; [done|]. cbn.
      rewrite length_app. cbn. lia.
    + exists s. split; [done|]. lia.
  - unfold listRequests in *; cbn in *.
    destruct (timerActive s); [|exists s; split; [done|lia]].
    destruct (fetchNextShader_cases s)
      as [->|(key & popped & rest & -> & Hbound)]; cbn zeta in *.
    + exists s. split; [done|lia].
    + eexists. split; [done|]. cbn. rewrite length_app. lia.
  - unfold listRequests in *; cbn in *. unfold onFinished.
    destruct (replies s !! i) as [reply|] eqn:Hi;
      [|exists s; split; [done|lia]].
    pose proof (lookup_lt_Some _ _ _ Hi) as Hlt.
    rewrite decide_False by (unfold INT_MIN; lia).
    eexists. split; [done|].
    destruct (runHandler_counter (reply_handler reply) buf
                (set_replies (delete i (replies
                   (set_currentNetworkRequests (currentNetworkRequests s - 1) s)))
                   (set_currentNetworkRequests (currentNetworkRequests s - 1) s)))
      as [-> ->].
    destruct s as [q n t rs fs]; cbn in *.
    rewrite length_delete by eauto. lia.
Qed.

(** X21: [currentNetworkRequests] counts the requests in flight.  From a
    fetcher where the two agree, every sequence of calls of
    [fetchNetworkShaders], timeouts and finished replies is defined as long as
    the counter has room for the list requests, keeps the two equal - so the
    counter never goes negative - and keeps the counter within 6 (or its
    initial value) plus the number of list requests. *)
Theorem request_counter_counts_requests_in_flight (evs : list FetcherEvent)
  (s : ShadertoyFetcher) :
  counterMatches s ->
  Z.max (currentNetworkRequests s) 6 + listRequests evs <= INT_MAX ->
  exists s',
    fetcherRun evs s = Some s'
    /\ counterMatches s'
    /\ currentNetworkRequests s'
       <= Z.max (currentNetworkRequests s) 6 + listRequests evs.
Proof.
  intros Hm Hmax.
  assert (Hgen : forall bound,
            6 <= bound -> currentNetworkRequests s <= bound ->
            bound + listRequests evs <= INT_MAX ->
            exists s', fetcherRun evs s = Some s' /\ counterMatches s'
                       /\ currentNetworkRequests s' <= bound + listRequests evs).
  { clear Hmax. revert s Hm. induction evs as [|e evs IH]; intros s Hm bound Hb Hle Hmax.
    - exists s. unfold listRequests. cbn. split; [done|]. split; [done|lia].
    - assert (Hsplit : listRequests (e :: evs)
                       = listRequests [e] + listRequests evs).
      { unfold listRequests. cbn. destruct e; cbn; lia. }
      assert (Hnn : 0 <= listRequests evs) by (unfold listRequests; lia).
      assert (Hnn1 : 0 <= listRequests [e]) by (unfold listRequests; lia).
      destruct (fetcherStep_counter e s bound) as (s1 & Hs1 & Hm1 & Hle1);
        try done; [lia|].
      cbn [fetcherRun]. rewrite Hs1.
      destruct (IH s1 Hm1 (bound + listRequests [e])) as (s' & Hrun & Hm' & Hle');
        [lia | done | lia |].
      exists s'. split; [done|]. split; [done|lia]. }
  apply Hgen; lia.
Qed.

Lemma fetcherStep_existing_file e s s' path :
  is_Some (files s !! path) ->
  fetcherStep e s = Some s' ->
  is_Some (files s' !! path)
  /\ forall reply, reply ∈ replies s' -> reply_handler reply = SaveTo path ->
                   reply ∈ replies s.
Proof.
  intros Hp. destruct e as [| |i buf]; cbn.
  - unfold fetchNetworkShaders. destruct SHADERTOY_API_KEY as [key|].
    + unfold fetchUrl. case_decide; [done|]. intros [= <-].
      destruct s; cbn in *. split; [done|].
      intros reply [Hin|Hin%list_elem_of_singleton]%elem_of_app Hh; [done|].
      by subst.
    + by intros [= <-].
  - destruct (timerActive s); [|by intros [= <-]].
    destruct (fetchNextShader_cases s)
      as [->|(key & popped & rest & -> & _)]; cbn zeta.
    + by intros [= <-].
    + intros [= <-]. cbn. split; [done|].
      intros reply [Hin|Hin]%elem_of_app Hh; [done|]. exfalso.
      apply list_elem_of_In, in_flat_map in Hin as (x & _ & Hin).
      apply list_elem_of_In in Hin. unfold requestsFor in Hin.
      apply elem_of_app in Hin as [Hin|Hin]; case_bool_decide;
        try (by apply elem_of_nil in Hin);
        apply list_elem_of_singleton in Hin; subst reply; cbn in Hh;
        injection Hh as <-; done.
  - unfold onFinished. destruct (replies s !! i) as [reply|] eqn:Hi;
      [|by intros [= <-]].
    case_decide; [done|]. intros [= <-]. split.
    + apply runHandler_files. by destruct s.
    + intros r Hin _.
      destruct (runHandler_counter (reply_handler reply) buf
                (set_replies (delete i (replies
                   (set_currentNetworkRequests (currentNetworkRequests s - 1) s)))
                   (set_currentNetworkRequests (currentNetworkRequests s - 1) s)))
        as [_ Hr].
      rewrite Hr in Hin. destruct s as [q n t rs fs]; cbn in *.
      by eapply list_elem_of_delete_inv.
Qed.

(** X22: a file that exists is never requested again: along any run of
    the fetcher the file stays, and every request in flight at the end that
    would write it was already in flight at the start. *)
Theorem existing_file_is_never_requested_again (evs : list FetcherEvent)
  (s s' : ShadertoyFetcher) (path : QString) :
  is_Some (files s !! path) ->
  fetcherRun evs s = Some s' ->
  is_Some (files s' !! path)
  /\ forall reply, reply ∈ replies s' -> reply_handler reply = SaveTo path ->
                   reply ∈ replies s.
Proof.
  revert s. induction evs as [|e evs IH]; intros s Hp; cbn.
  - by intros [= <-].
  - destruct (fetcherStep e s) as [s1|] eqn:Hs; [|done]. intros Hrun.
    destruct (fetcherStep_existing_file _ _ _ _ Hp Hs) as [Hp1 Hr1].
    destruct (IH _ Hp1 Hrun) as [Hp' Hr']. split; [done|].
    intros reply Hin Hh. apply Hr1; [|done]. by apply Hr'.
Qed.

End FetcherProps.

(** ** Examples, witnesses and counterexamples on the concrete platform *)

Ltac in_list := repeat first [apply list_elem_of_here | apply list_elem_of_further].
Ltac not_in_list :=
  let H := fresh in
  intros H;
  repeat (apply elem_of_cons in H as [H|H]; [discriminate H|]);
  by apply elem_of_nil in H.

Example demoStartup_aliases :
  canonicalUrlMap demoStartup !! "preset://tex/00"
  = Some "qrc:/textures/tex00.png".
Proof. vm_compute. reflexivity. Qed.

(** Two events with factor 0.5 compound: 1.0, then 0.5, then 0.25. *)
Example resolution_scale_compounds :
  texRes <$> (renderer <$>
    (w1 ← @drainTasks demoPlatform 1 demoNow
            (onModifyTextureResolution demoHalf (@newWindow demoPlatform));
     @drainTasks demoPlatform 1 demoNow
       (onModifyTextureResolution demoHalf w1)))
  = Some (S754_finite false 8388608 (-25)).
Proof. vm_compute. reflexivity. Qed.

Lemma ui_texture_handoff_witness :
  uiTexture (@newWindow demoPlatform) = 0%N
  /\ consumed (perFrameRender (waitUpTo 0)
                 (run demoPre (@newWindow demoPlatform))).1 = Some 7%N
  /\ consumed (perFrameRender (waitUpTo 0)
                 (run (demoPre ++ EvFrame (waitUpTo 0) :: demoMid)
                    (@newWindow demoPlatform))).1 = Some 7%N
  /\ (7%N = 0%N \/ EvTextureUpdated 7%N ∈ demoPre)
  /\ EvTextureUpdated 7%N ∈ demoMid
  /\ (lastUiTexture (perFrameRender (waitUpTo 0)
                       (run demoPre (@newWindow demoPlatform))).2 = 7%N
      /\ composited (perFrameRender (waitUpTo 0)
                       (run demoPre (@newWindow demoPlatform))).1 = Some 7%N)
  /\ (lastUiTexture (run (demoPre ++ EvFrame (waitUpTo 0) :: demoQuiet)
                       (@newWindow demoPlatform)) = 7%N
      /\ consumed (perFrameRender (waitUpTo 0)
                     (run (demoPre ++ EvFrame (waitUpTo 0) :: demoQuiet)
                        (@newWindow demoPlatform))).1 = Some 0%N
      /\ composited (perFrameRender (waitUpTo 0)
                       (run (demoPre ++ EvFrame (waitUpTo 0) :: demoQuiet)
                          (@newWindow demoPlatform))).1 = Some 7%N
      /\ lastUiTexture (perFrameRender (waitUpTo 0)
                          (run (demoPre ++ EvFrame (waitUpTo 0) :: demoQuiet)
                             (@newWindow demoPlatform))).2 = 7%N)
  /\ (consumed (perFrameRender (waitUpTo 0)
                  (run (demoPre ++ [EvFrame (waitUpTo 0)])
                     (@newWindow demoPlatform))).1 = Some 0%N
      /\ lastUiTexture (perFrameRender (waitUpTo 0)
                          (run (demoPre ++ [EvFrame (waitUpTo 0)])
                             (@newWindow demoPlatform))).2
         = lastUiTexture (run (demoPre ++ [EvFrame (waitUpTo 0)])
                            (@newWindow demoPlatform))
      /\ composited (perFrameRender (waitUpTo 0)
                       (run (demoPre ++ [EvFrame (waitUpTo 0)])
                          (@newWindow demoPlatform))).1
         = (if (lastUiTexture (run (demoPre ++ [EvFrame (waitUpTo 0)])
                                 (@newWindow demoPlatform)) =? 0)%N
            then None
            else Some (lastUiTexture (run (demoPre ++ [EvFrame (waitUpTo 0)])
                                        (@newWindow demoPlatform))))
      /\ lastUiTexture (run (demoPre ++ [EvFrame (waitUpTo 0)])
                          (@newWindow demoPlatform)) = 7%N).
Proof.
  assert (H1 : consumed (perFrameRender (waitUpTo 0)
                           (run demoPre (@newWindow demoPlatform))).1
               = Some 7%N) by (vm_compute; reflexivity).
  assert (H2 : consumed (perFrameRender (waitUpTo 0)
                 (run (demoPre ++ EvFrame (waitUpTo 0) :: demoMid)
                    (@newWindow demoPlatform))).1 = Some 7%N)
    by (vm_compute; reflexivity).
  assert (Hnz : 7%N <> 0%N) by discriminate.
  assert (Hquiet : forall t, EvTextureUpdated t ∉ demoQuiet)
    by (intros t; unfold demoQuiet; not_in_list).
  assert (Hvis : uiVisible (run (demoPre ++ EvFrame (waitUpTo 0) :: demoQuiet)
                              (@newWindow demoPlatform)) = true)
    by (vm_compute; reflexivity).
  assert (H3 : consumed (perFrameRender (waitUpTo 0)
                  (run (demoPre ++ [EvFrame (waitUpTo 0)])
                     (@newWindow demoPlatform))).1 = Some 0%N)
    by (vm_compute; reflexivity).
  destruct (ui_texture_handoff (@newWindow demoPlatform) demoPre demoMid
              (waitUpTo 0) (waitUpTo 0) 7%N eq_refl)
    as (Ha & Hb & _ & Hd & _).
  destruct (ui_texture_handoff (@newWindow demoPlatform) demoPre demoQuiet
              (waitUpTo 0) (waitUpTo 0) 7%N eq_refl)
    as (_ & _ & _ & _ & He).
  destruct (ui_texture_handoff (@newWindow demoPlatform)
              (demoPre ++ [EvFrame (waitUpTo 0)]) [] (waitUpTo 0) (waitUpTo 0)
              0%N eq_refl) as (_ & _ & Hc & _).
  split; [reflexivity|]. split; [exact H1|]. split; [exact H2|].
  split; [exact (Ha H1)|].
  split; [apply (Hb H1 H2); discriminate|].
  split; [exact (Hd H1 Hnz)|].
  destruct (He H1 Hnz Hquiet) as [Hlast Hframe].
  split; [split; [exact Hlast | exact (Hframe Hvis)]|].
  destruct (Hc H3) as [Hkeep Hcomp].
  split; [exact H3|]. split; [exact Hkeep|]. split; [exact Hcomp|].
  vm_compute. reflexivity.
Defined.

Lemma demoTrash_in_order :
  completesInOrder (waitUpTo 3) (textureTrash demoTrashWindow).
Proof.
  intros pre p post Heq Hsig. cbn in Heq.
  destruct pre as [|a [|b [|c pre]]]; simplify_eq/=;
    repeat constructor; try done.
  all: destruct pre; discriminate.
Qed.

Lemma trash_collection_is_fifo_witness :
  textureTrash demoTrashWindow = [(21%N, 1%N)] ++ (22%N, 2%N) :: [(23%N, 3%N)]
  /\ (22%N ∉ ([(21%N, 1%N)] ++ [(23%N, 3%N)]).*1)
  /\ exists out : list N,
       textureDeleteQueue (collectTrash (waitUpTo 3) demoTrashWindow)
       = textureDeleteQueue demoTrashWindow ++ out
       /\ (textureTrash demoTrashWindow).*1
          = out ++ (textureTrash (collectTrash (waitUpTo 3) demoTrashWindow)).*1
       /\ count_occ N.eq_dec out 22%N = 1%nat
       /\ (22%N ∉ (textureTrash (collectTrash (waitUpTo 3) demoTrashWindow)).*1).
Proof.
  assert (Hfresh : 22%N ∉ ([(21%N, 1%N)] ++ [(23%N, 3%N)]).*1)
    by (cbn; not_in_list).
  split; [reflexivity|]. split; [exact Hfresh|].
  destruct (trash_collection_is_fifo (waitUpTo 3) demoTrashWindow
              [(21%N, 1%N)] [(23%N, 3%N)] 22%N 2%N eq_refl Hfresh)
    as (out & Hq & Hpre & _ & _ & Hsig).
  exists out. split; [exact Hq|]. split; [exact Hpre|].
  destruct (Hsig eq_refl demoTrash_in_order) as (Hcount & Hgone & _).
  split; [exact Hcount | exact Hgone].
Defined.

(** Polled once after all three fences have completed, the pass emits the
    three textures in retirement order. *)
Example three_complete_fences_drain_in_order :
  drainTrash (waitUpTo 4) (textureTrash demoTrashWindow)
  = ([21%N; 22%N; 23%N], []).
Proof. reflexivity. Qed.

(** While fence 2 is pending, texture 22 is not collected, and neither is
    texture 23 behind it, although its fence has signaled. *)
Example pending_fence_blocks_the_queue :
  let wait := fun sync => if (sync =? 2)%N then GL_TIMEOUT_EXPIRED
                          else GL_ALREADY_SIGNALED in
  drainTrash wait (textureTrash demoTrashWindow)
  = ([21%N], [(22%N, 2%N); (23%N, 3%N)]).
Proof. reflexivity. Qed.

Lemma cyclic_walk fuel source :
  source = "preset://a" \/ source = "preset://b" ->
  resolveAlias fuel cyclicAliases source = None.
Proof.
  assert (Ha : cyclicAliases !! "preset://a" = Some "preset://b")
    by (vm_compute; reflexivity).
  assert (Hb : cyclicAliases !! "preset://b" = Some "preset://a")
    by (vm_compute; reflexivity).
  revert source. induction fuel as [|fuel IH]; intros source [-> | ->]; cbn;
    rewrite ?Ha, ?Hb; try done; apply IH; auto.
Qed.

(** C3, counterexample: on the alias table [a -> b -> a] the walk of
    [loadTexture] has not stopped after any number of iterations. *)
Lemma cyclic_alias_table_never_resolves :
  ~ exists fuel result,
      @loadTexture demoPlatform fuel "preset://a" cyclicRenderer = Some result.
Proof.
  intros (fuel & result & Hl). unfold loadTexture in Hl.
  change (canonicalUrlMap cyclicRenderer) with cyclicAliases in Hl.
  rewrite cyclic_walk in Hl by auto. discriminate.
Qed.

Lemma alias_walk_stops_on_flat_table_witness :
  aliasFlat (canonicalUrlMap demoStartup)
  /\ (1 <= 1)%nat
  /\ exists url t r',
       resolveAlias 1 (canonicalUrlMap demoStartup) "preset://tex/00"
       = Some url
       /\ canonicalUrlMap demoStartup !! url = None
       /\ (url = "preset://tex/00"
           \/ canonicalUrlMap demoStartup !! "preset://tex/00" = Some url)
       /\ @loadTexture demoPlatform 1 "preset://tex/00" demoStartup
          = Some (t, r')
       /\ tex <$> textureCache r' !! url = Some t.
Proof.
  assert (Hflat : aliasFlat (canonicalUrlMap demoStartup))
    by apply (@initTextureCache_flat demoPlatform).
  split; [exact Hflat|]. split; [lia|].
  apply (@alias_walk_stops_on_flat_table demoPlatform 1 "preset://tex/00"
           demoStartup Hflat). lia.
Defined.

Lemma demo_driverLogsNonEmpty : @driverLogsNonEmpty demoPlatform.
Proof.
  split.
  - intros k src log. cbn. unfold demoCompile.
    destruct (contains "#error" src); [|done]. by intros [= <-].
  - intros vs fs log. cbn. unfold demoLink.
    destruct (negb (vs_compiled vs)); [by intros [= <-]|].
    destruct (contains _ (fs_source fs)); [|done]. by intros [= <-].
Qed.

Lemma demoBad_fails :
  @BuildFails demoPlatform demoBadSource demoBuilt
    "0(1) : error C0000: #error directive".
Proof.
  eapply (@FragmentCompileFails demoPlatform);
    [vm_compute; reflexivity | vm_compute; reflexivity].
Qed.

Lemma failed_build_keeps_program_witness :
  @BuildFails demoPlatform demoBadSource demoBuilt
    "0(1) : error C0000: #error directive"
  /\ exists r',
       @setShaderSourceInternal demoPlatform demoLater demoBadSource demoBuilt
       = (false, compileError "0(1) : error C0000: #error directive", r')
       /\ "0(1) : error C0000: #error directive" <> ""
       /\ shadertoyProgram r' = shadertoyProgram demoBuilt
       /\ activeUniforms <$> shadertoyProgram r'
          = activeUniforms <$> shadertoyProgram demoBuilt
       /\ uniformLambdas r' = uniformLambdas demoBuilt
       /\ fragmentShader r' = fragmentShader demoBuilt
       /\ startTime r' = startTime demoBuilt.
Proof.
  split; [apply demoBad_fails|].
  destruct (@failed_build_keeps_program demoPlatform demoLater demoBadSource
              demoBuilt _ demoBad_fails)
    as (r' & Hres & Hlog & Hrest).
  exists r'. split; [exact Hres|].
  split; [exact (Hlog demo_driverLogsNonEmpty) | exact Hrest].
Defined.

(** C4, counterexample: a driver whose info log is empty.  The build of a
    source it rejects fails, and the diagnostic reported through
    [compileError] is the empty string. *)
Lemma empty_driver_log_gives_empty_diagnostic :
  @BuildFails silentPlatform demoBadSource silentBuilt ""
  /\ is_Some (shadertoyProgram silentBuilt)
  /\ exists r',
       @setShaderSourceInternal silentPlatform demoLater demoBadSource
         silentBuilt = (false, compileError "", r')
       /\ shadertoyProgram r' = shadertoyProgram silentBuilt.
Proof.
  split.
  { eapply (@FragmentCompileFails silentPlatform);
      [vm_compute; reflexivity | vm_compute; reflexivity]. }
  split; [eexists; vm_compute; reflexivity|].
  eexists. split; [vm_compute; reflexivity | vm_compute; reflexivity].
Qed.


(** C6, counterexample: the program built from [demoGoodSource] has the
    sampler of channel 0 among its active uniforms, yet with slot 0 empty the
    rebuild pushes no lambda for it. *)
Lemma active_sampler_of_empty_slot_gets_no_lambda :
  (exists p, shadertoyProgram demoBuilt = Some p
             /\ @isActive (activeUniforms p)
                  (@UNIFORM_CHANNELS demoPlatform 0) = true
             /\ uniformLambdas demoBuilt
                = uniformLambdas (@updateUniformsOf demoPlatform p demoBuilt))
  /\ hasTexture (channels demoBuilt) 0 = false
  /\ countOf (LambdaChannel 0) (uniformLambdas demoBuilt) = 0%nat.
Proof.
  split; [|split; vm_compute; reflexivity].
  destruct (shadertoyProgram demoBuilt) as [p|] eqn:Hp;
    [|vm_compute in Hp; discriminate].
  exists p. split; [reflexivity|].
  vm_compute in Hp. injection Hp as <-. split; vm_compute; reflexivity.
Qed.

(** C7, counterexample: the lambda pushed for slot 0 while the slot held the
    2D texture 1 binds, once the slot has been switched to the cubemap 3 and
    no rebuild has run, the cubemap 3. *)
Lemma existing_lambda_follows_slot_mutation :
  LambdaChannel 0 ∈ uniformLambdas demoBound
  /\ @setChannelTextureInternal demoPlatform 1 0 CUBEMAP "preset://cube/0"
       demoBound = Some demoSwapped
  /\ uniformLambdas demoSwapped = uniformLambdas demoBound
  /\ @runLambda demoPlatform demoEnv demoBound (LambdaChannel 0)
     = Some [GlActiveTexture 0; GlBindTexture Target_2D 1%N]
  /\ @runLambda demoPlatform demoEnv demoSwapped (LambdaChannel 0)
     = Some [GlActiveTexture 0; GlBindTexture Target_CubeMap 3%N].
Proof.
  split.
  { assert (Hl : uniformLambdas demoBound
                 = [LambdaGlobalTime; LambdaChannel 0])
      by (vm_compute; reflexivity).
    rewrite Hl. in_list. }
  split_and!; vm_compute; reflexivity.
Qed.

Lemma channel_lambda_reads_slot_when_run_witness :
  LambdaChannel 0 ∈ uniformLambdas (@updateUniformsOf demoPlatform
                                      demoProgram demoBound)
  /\ isChannelLambda (LambdaChannel 0) = true
  /\ exists i : nat,
       LambdaChannel 0 = LambdaChannel i /\ (i < 4)%nat
       /\ hasTexture (channels demoBound) i = true
       /\ (forall env r2 ch,
             channels r2 !! i = Some ch ->
             @runLambda demoPlatform env r2 (LambdaChannel 0)
             = Some (match texture ch with
                     | Some t =>
                         [GlActiveTexture i; GlBindTexture (target ch) t]
                     | None => []
                     end))
       /\ (forall fuel channel type src r2 r3,
             @setChannelTextureInternal demoPlatform fuel channel type src r2
             = Some r3 ->
             uniformLambdas r3 = uniformLambdas r2).
Proof.
  assert (Hin : LambdaChannel 0 ∈ uniformLambdas
                  (@updateUniformsOf demoPlatform demoProgram demoBound)).
  { assert (Hl : uniformLambdas
                   (@updateUniformsOf demoPlatform demoProgram demoBound)
                 = [LambdaGlobalTime; LambdaChannel 0])
      by (vm_compute; reflexivity).
    rewrite Hl. in_list. }
  split; [exact Hin|]. split; [reflexivity|].
  exact (@channel_lambda_reads_slot_when_run demoPlatform demoProgram
           demoBound (LambdaChannel 0) Hin eq_refl).
Defined.



Lemma demoHalved_texResInv : texResInv demoHalved.
Proof. split; [split; reflexivity | constructor]. Qed.

Lemma texRes_stays_in_range_witness :
  texResInv (@newWindow demoPlatform)
  /\ tasks (@newWindow demoPlatform) = []
  /\ texRes (renderer (@newWindow demoPlatform)) = f32_1_0
  /\ (@drainTasks demoPlatform 1 demoNow
        (onModifyTextureResolution demoHalf (@newWindow demoPlatform))
      = Some demoHalved
      /\ texRes (renderer demoHalved) = S754_finite false 8388608 (-24)
      /\ texResInv demoHalved)
  /\ exists w2,
       @drainTasks demoPlatform 1 demoNow
         (onModifyTextureResolution demoHalf demoHalved) = Some w2
       /\ texRes (renderer w2) = S754_finite false 8388608 (-25)
       /\ texResInv w2.
Proof.
  assert (Hinv : texResInv (@newWindow demoPlatform)).
  { split; [split; reflexivity | constructor]. }
  destruct (@texRes_stays_in_range demoPlatform demoHalf
              (@newWindow demoPlatform) Hinv)
    as (_ & _ & _ & _ & _ & Hafter & Hdrain).
  destruct (@texRes_stays_in_range demoPlatform demoHalf demoHalved
              demoHalved_texResInv)
    as (_ & _ & _ & _ & _ & Hafter2 & Hdrain2).
  split; [exact Hinv|]. split; [reflexivity|]. split; [reflexivity|].
  assert (H1 : @drainTasks demoPlatform 1 demoNow
                 (onModifyTextureResolution demoHalf (@newWindow demoPlatform))
               = Some demoHalved).
  { rewrite (Hdrain eq_refl 1%nat demoNow). vm_compute. reflexivity. }
  split.
  { split; [exact H1|]. split; [vm_compute; reflexivity|].
    exact (proj1 (Hafter 1%nat demoNow demoHalved H1)). }
  eexists. split; [exact (Hdrain2 eq_refl 1%nat demoNow)|].
  split; [vm_compute; reflexivity|].
  exact (proj1 (Hafter2 1%nat demoNow _ (Hdrain2 eq_refl 1%nat demoNow))).
Defined.

(** A factor of 4 at full resolution is clamped to 1.0 and queues nothing;
    a second halving at 0.125 is clamped to 0.1. *)
Example resolution_scale_is_clamped :
  tasks (onModifyTextureResolution (S754_finite false 4503599627370496 (-50))
           (@newWindow demoPlatform)) = []
  /\ clampRes (scaledRes demoHalf (S754_finite false 8388608 (-26)))
     = f32_0_1.
Proof. split; vm_compute; reflexivity. Qed.

Lemma build_resets_position_and_vrMode_witness :
  position demoMoved <> vec3_zero
  /\ vrMode demoMoved = false
  /\ (@setShaderSourceInternal demoPlatform demoLater demoBadSource
        demoMoved).1.1 = false
  /\ position (@setShaderSourceInternal demoPlatform demoLater demoBadSource
                 demoMoved).2 = vec3_zero
  /\ vrMode (@setShaderSourceInternal demoPlatform demoLater demoBadSource
               demoMoved).2 = true
  /\ shadertoyProgram (@setShaderSourceInternal demoPlatform demoLater
                         demoBadSource demoMoved).2
     = shadertoyProgram demoMoved.
Proof.
  assert (Hf : (@setShaderSourceInternal demoPlatform demoLater demoBadSource
                  demoMoved).1.1 = false) by (vm_compute; reflexivity).
  destruct (@build_resets_position_and_vrMode demoPlatform demoLater
              demoBadSource demoMoved) as (Hpos & Hvr & _ & Hfail).
  split; [vm_compute; discriminate|]. split; [vm_compute; reflexivity|].
  split; [exact Hf|].
  split; [exact Hpos|]. split; [rewrite Hvr; vm_compute; reflexivity|].
  exact (proj1 (Hfail Hf)).
Defined.

(** C10, counterexample: on a driver that does not compile the bundled
    vertex shader, the first build of a source containing [#pragma vr] fails
    in the vertex step and leaves [vrMode] at [false]: the flag has not been
    recomputed from the new source. *)
Lemma vertex_compile_failure_leaves_vrMode :
  contains "#pragma vr" demoVrSource = true
  /\ vertexShader noVertexStartup = None
  /\ vrMode noVertexStartup = false
  /\ (@setShaderSourceInternal noVertexPlatform demoNow demoVrSource
        noVertexStartup).1
     = (false, compileError "0(1) : error C0000: no vertex stage")
  /\ vrMode (@setShaderSourceInternal noVertexPlatform demoNow demoVrSource
               noVertexStartup).2 = false
  /\ vrMode (@setShaderSourceInternal noVertexPlatform demoNow demoVrSource
               noVertexStartup).2
     <> contains "#pragma vr" demoVrSource.
Proof.
  split_and!; try (vm_compute; reflexivity). vm_compute. discriminate.
Qed.

(** ** The further properties on concrete states *)

Lemma newWindow_fencesInOrder : fencesInOrder (@newWindow demoPlatform).
Proof.
  split_and!; [reflexivity | constructor | constructor | done].
Qed.

Lemma waitUpTo_in_order n : signalsInOrder (waitUpTo n).
Proof.
  intros a b Hab. unfold waitUpTo, signaled.
  destruct (N.ltb_spec b n), (N.ltb_spec a n); try done. lia.
Qed.

Lemma retirement_queue_is_in_fence_order_witness :
  fencesInOrder (@newWindow demoPlatform)
  /\ fencesInOrder (run demoFrames (@newWindow demoPlatform))
  /\ (0%N ∉ (textureTrash (run demoFrames (@newWindow demoPlatform))).*2)
  /\ completesInOrder (waitUpTo 2)
       (textureTrash (run demoFrames (@newWindow demoPlatform))).
Proof.
  destruct (retirement_queue_is_in_fence_order demoFrames
              (@newWindow demoPlatform) (waitUpTo 2) newWindow_fencesInOrder)
    as (Hinv & Hzero & Horder).
  split; [exact newWindow_fencesInOrder|]. split; [exact Hinv|].
  split; [exact Hzero|]. exact (Horder (waitUpTo_in_order 2)).
Defined.

Lemma showing_then_hiding_the_ui_restores_the_scale_witness :
  uiVisible (@newWindow demoPlatform) = false
  /\ eyePosScale (renderer (onToggleUi (@newWindow demoPlatform))) = f32_zero
  /\ uiVisible (onToggleUi (@newWindow demoPlatform)) = true
  /\ onToggleUi (onToggleUi (@newWindow demoPlatform))
     = set_savedEyePosScale (eyePosScale (renderer (@newWindow demoPlatform)))
         (@newWindow demoPlatform).
Proof.
  split; [reflexivity|].
  exact (showing_then_hiding_the_ui_restores_the_scale
           (@newWindow demoPlatform) eq_refl).
Defined.

Lemma demoLegacySet_eq :
  @setChannelTextureInternal demoPlatform 1 0 TEXTURE "preset://tex/00"
    demoStartup = Some demoLegacySet.
Proof. vm_compute. reflexivity. Qed.

Lemma setChannel_changes_only_its_slot_witness :
  @setChannelTextureInternal demoPlatform 1 0 TEXTURE "preset://tex/00"
    demoStartup = Some demoLegacySet
  /\ sameBuild demoStartup demoLegacySet
  /\ textureCache demoStartup ⊆ textureCache demoLegacySet
  /\ length (channels demoLegacySet) = length (channels demoStartup)
  /\ length (channelSources demoLegacySet)
     = length (channelSources demoStartup)
  /\ (forall j, j <> 0%nat ->
        channels demoLegacySet !! j = channels demoStartup !! j
        /\ channelSources demoLegacySet !! j = channelSources demoStartup !! j).
Proof.
  split; [exact demoLegacySet_eq|].
  exact (@setChannel_changes_only_its_slot demoPlatform 1 0 TEXTURE
           "preset://tex/00" demoStartup demoLegacySet demoLegacySet_eq).
Defined.

Lemma clearing_or_unsupported_kind_loads_nothing_witness :
  channelSources demoLegacySet !! 0%nat = Some "preset://tex/00"
  /\ channels demoLegacySet !! 0%nat = Some (mkChannel Target_2D (Some 1%N))
  /\ "webcam" <> "preset://tex/00"
  /\ ("webcam" = QUrl_empty \/ VIDEO = VIDEO \/ VIDEO = AUDIO)
  /\ exists r',
       (forall fuel,
          @setChannelTextureInternal demoPlatform fuel 0 VIDEO "webcam"
            demoLegacySet = Some r')
       /\ channelSources r' !! 0%nat = Some "webcam"
       /\ channels r' !! 0%nat
          = Some (mkChannel (if decide ("webcam" = QUrl_empty) then Target_2D
                             else @indeterminate demoPlatform) None)
       /\ textureCache r' = textureCache demoLegacySet
       /\ gl r' = gl demoLegacySet.
Proof.
  assert (Hs : channelSources demoLegacySet !! 0%nat = Some "preset://tex/00")
    by (vm_compute; reflexivity).
  assert (Hc : channels demoLegacySet !! 0%nat
               = Some (mkChannel Target_2D (Some 1%N)))
    by (vm_compute; reflexivity).
  assert (Hne : "webcam" <> "preset://tex/00") by discriminate.
  assert (Hk : "webcam" = QUrl_empty \/ VIDEO = VIDEO \/ VIDEO = AUDIO)
    by (right; left; reflexivity).
  split; [exact Hs|]. split; [exact Hc|]. split; [exact Hne|].
  split; [exact Hk|].
  exact (@clearing_or_unsupported_kind_loads_nothing demoPlatform 0 VIDEO
           "webcam" "preset://tex/00" (mkChannel Target_2D (Some 1%N))
           demoLegacySet Hs Hc Hne Hk).
Defined.

Lemma channel_holds_the_cached_texture_witness :
  @setChannelTextureInternal demoPlatform 1 0 TEXTURE "preset://tex/00"
    demoStartup = Some demoLegacySet
  /\ channelSources demoStartup !! 0%nat <> Some "preset://tex/00"
  /\ "preset://tex/00" <> QUrl_empty
  /\ (TEXTURE = TEXTURE \/ TEXTURE = CUBEMAP)
  /\ exists url d,
       resolveAlias 1 (canonicalUrlMap demoStartup) "preset://tex/00"
       = Some url
       /\ textureCache demoLegacySet !! url = Some d
       /\ channels demoLegacySet !! 0%nat = Some (mkChannel Target_2D (tex d))
       /\ channelSources demoLegacySet !! 0%nat = Some "preset://tex/00".
Proof.
  assert (Hcur : channelSources demoStartup !! 0%nat <> Some "preset://tex/00")
    by (vm_compute; discriminate).
  assert (Hne : "preset://tex/00" <> QUrl_empty) by discriminate.
  assert (Hk : TEXTURE = TEXTURE \/ TEXTURE = CUBEMAP) by (left; reflexivity).
  split; [exact demoLegacySet_eq|]. split; [exact Hcur|].
  split; [exact Hne|]. split; [exact Hk|].
  exact (@channel_holds_the_cached_texture demoPlatform 1 0 TEXTURE
           "preset://tex/00" demoStartup demoLegacySet demoLegacySet_eq
           Hcur Hne Hk).
Defined.

Lemma aliases_share_one_cache_entry_witness :
  @loadTexture demoPlatform 1 "preset://tex/00" demoStartup
  = Some (Some 1%N, demoStartup)
  /\ resolveAlias 1 (canonicalUrlMap demoStartup) "/presets/tex00.png"
     = resolveAlias 1 (canonicalUrlMap demoStartup) "preset://tex/00"
  /\ @loadTexture demoPlatform 1 "/presets/tex00.png" demoStartup
     = Some (Some 1%N, demoStartup)
  /\ (uploads (gl demoStartup) <= S (uploads (gl demoStartup)))%nat.
Proof.
  assert (Hl : @loadTexture demoPlatform 1 "preset://tex/00" demoStartup
               = Some (Some 1%N, demoStartup)) by (vm_compute; reflexivity).
  assert (Hr : resolveAlias 1 (canonicalUrlMap demoStartup)
                 "/presets/tex00.png"
               = resolveAlias 1 (canonicalUrlMap demoStartup)
                   "preset://tex/00") by (vm_compute; reflexivity).
  split; [exact Hl|]. split; [exact Hr|].
  exact (@aliases_share_one_cache_entry demoPlatform 1 "preset://tex/00"
           "/presets/tex00.png" demoStartup demoStartup (Some 1%N) Hl Hr).
Defined.

Lemma legacy_identifiers_load_without_upload_witness :
  canonicalUrlMap (@newRenderer demoPlatform) = ∅
  /\ (1 <= 1)%nat
  /\ canonicalUrlMap (@initTextureCache demoPlatform (@newRenderer demoPlatform))
       !! "preset://cube/00" = Some "qrc:/cubemaps/cube00_0.png"
  /\ exists t,
       @loadTexture demoPlatform 1 "preset://cube/00"
         (@initTextureCache demoPlatform (@newRenderer demoPlatform))
       = Some (Some t,
               @initTextureCache demoPlatform (@newRenderer demoPlatform))
       /\ @loadTexture demoPlatform 1 "qrc:/cubemaps/cube00_0.png"
            (@initTextureCache demoPlatform (@newRenderer demoPlatform))
          = Some (Some t,
                  @initTextureCache demoPlatform (@newRenderer demoPlatform)).
Proof.
  assert (Hk : canonicalUrlMap
                 (@initTextureCache demoPlatform (@newRenderer demoPlatform))
                 !! "preset://cube/00" = Some "qrc:/cubemaps/cube00_0.png")
    by (vm_compute; reflexivity).
  assert (Hfuel : (1 <= 1)%nat) by lia.
  split; [reflexivity|]. split; [exact Hfuel|]. split; [exact Hk|].
  exact (@legacy_identifiers_load_without_upload demoPlatform
           (@newRenderer demoPlatform) 1 "preset://cube/00"
           "qrc:/cubemaps/cube00_0.png" eq_refl Hfuel Hk).
Defined.

Lemma demoLoaded_eq :
  @setShaderInternal demoPlatform 1 demoNow demoShader demoStartup
  = Some demoLoaded.
Proof. vm_compute. reflexivity. Qed.

Lemma setShaderInternal_records_every_identifier_witness :
  @setShaderInternal demoPlatform 1 demoNow demoShader demoStartup
  = Some demoLoaded
  /\ (1 < @MAX_CHANNELS demoPlatform)%nat
  /\ is_Some (channelTextures demoShader !! 1%nat)
  /\ channelSources demoLoaded.2 !! 1%nat = channelTextures demoShader !! 1%nat.
Proof.
  assert (Hi : (1 < @MAX_CHANNELS demoPlatform)%nat) by (cbn; lia).
  split; [exact demoLoaded_eq|]. split; [exact Hi|].
  exact (@setShaderInternal_records_every_identifier demoPlatform 1 demoNow
           demoShader demoStartup demoLoaded demoLoaded_eq 1%nat Hi).
Defined.

Lemma demoRefreshed_eq :
  @updateUniforms demoPlatform demoStale = Some demoRefreshed.
Proof. vm_compute. reflexivity. Qed.

Lemma updateUniforms_twice_is_once_witness :
  @updateUniforms demoPlatform demoStale = Some demoRefreshed
  /\ uniformLambdas demoStale <> uniformLambdas demoRefreshed
  /\ @updateUniforms demoPlatform demoRefreshed = Some demoRefreshed.
Proof.
  split; [exact demoRefreshed_eq|]. split; [vm_compute; discriminate|].
  exact (@updateUniforms_twice_is_once demoPlatform demoStale demoRefreshed
           demoRefreshed_eq).
Defined.

Lemma demoProgram_sampler0 :
  activeUniforms demoProgram !! @UNIFORM_CHANNELS demoPlatform 0 = Some 3%N.
Proof. vm_compute. reflexivity. Qed.

Lemma demoProgram_sampler0_only j :
  (j < 4)%nat ->
  activeUniforms demoProgram !! @UNIFORM_CHANNELS demoPlatform j = Some 3%N ->
  j = 0%nat.
Proof.
  intros Hj. destruct j as [|[|[|[|j]]]]; [done| | | |lia];
    vm_compute; discriminate.
Qed.

Lemma sampler_uniform_holds_its_channel_index_witness :
  (0 < 4)%nat
  /\ activeUniforms demoProgram !! @UNIFORM_CHANNELS demoPlatform 0 = Some 3%N
  /\ exists p',
       shadertoyProgram (@updateUniformsOf demoPlatform demoProgram demoBound)
       = Some p'
       /\ activeUniforms p' = activeUniforms demoProgram
       /\ uniformInts p' !! 3%N = Some 0.
Proof.
  assert (Hi : (0 < 4)%nat) by lia.
  split; [exact Hi|]. split; [exact demoProgram_sampler0|].
  exact (@sampler_uniform_holds_its_channel_index demoPlatform demoProgram
           demoBound 0 3%N Hi demoProgram_sampler0 demoProgram_sampler0_only).
Defined.

Lemma demoAfterTasks_eq :
  @runTasks demoPlatform 1 demoLater demoTasks demoReadyWindow
  = Some demoAfterTasks.
Proof. vm_compute. reflexivity. Qed.

Lemma tasks_never_undo_the_start_up_witness :
  @runTasks demoPlatform 1 demoLater demoTasks demoReadyWindow
  = Some demoAfterTasks
  /\ keptByTasks (renderer demoReadyWindow) (renderer demoAfterTasks).
Proof.
  split; [exact demoAfterTasks_eq|].
  exact (@tasks_never_undo_the_start_up demoPlatform 1 demoLater demoTasks
           demoReadyWindow demoAfterTasks demoAfterTasks_eq).
Defined.




Lemma resolution_presses_before_a_frame_do_not_compound_witness :
  tasks (@newWindow demoPlatform) = []
  /\ exists w',
       @drainTasks demoPlatform 1 demoNow
         (foldl (fun w scale => onModifyTextureResolution scale w)
            (@newWindow demoPlatform) [demoHalf; demoHalf])
       = Some w'
       /\ tasks w' = []
       /\ texRes (renderer w')
          = List.last (queuedRes (texRes (renderer (@newWindow demoPlatform)))
                         [demoHalf; demoHalf])
              (texRes (renderer (@newWindow demoPlatform))).
Proof.
  split; [reflexivity|].
  exact (@resolution_presses_before_a_frame_do_not_compound demoPlatform 1
           demoNow [demoHalf; demoHalf] (@newWindow demoPlatform) eq_refl).
Defined.

(** Two presses of the halving key before a frame leave the scale at one
    half, not at one quarter. *)
Example two_presses_halve_once :
  List.last (queuedRes (texRes (renderer (@newWindow demoPlatform)))
               [demoHalf; demoHalf])
    (texRes (renderer (@newWindow demoPlatform)))
  = S754_finite false 8388608 (-24).
Proof. vm_compute. reflexivity. Qed.

Lemma fetchNextShader_postcondition_witness :
  @SHADERTOY_API_KEY demoFetchEnv = Some "k3y"
  /\ exists popped rest,
       let issued :=
         flat_map (@requestsFor demoFetchEnv "k3y" (files demoFetcher)) popped in
       let inFlight :=
         currentNetworkRequests demoFetcher + Z.of_nat (length issued) in
       shadersToFetch demoFetcher = popped ++ rest
       /\ @fetchNextShader demoFetchEnv demoFetcher
          = Some (mkFetcher rest inFlight
                    (match rest with
                     | [] => false
                     | _ :: _ => timerActive demoFetcher
                     end)
                    (replies demoFetcher ++ issued) (files demoFetcher))
       /\ (rest = [] \/ 4 < inFlight)
       /\ (forall pre nextShaderId post,
             popped = pre ++ nextShaderId :: post ->
             currentNetworkRequests demoFetcher
             + Z.of_nat (length (flat_map (@requestsFor demoFetchEnv "k3y"
                                             (files demoFetcher)) pre)) <= 4)
       /\ inFlight <= Z.max (currentNetworkRequests demoFetcher) 6.
Proof.
  split; [reflexivity|].
  exact (@fetchNextShader_postcondition demoFetchEnv "k3y" demoFetcher eq_refl).
Defined.

Lemma demoFetcher_counterMatches : counterMatches demoFetcher.
Proof. reflexivity. Qed.

Lemma demoFetchEvents_bound :
  Z.max (currentNetworkRequests demoFetcher) 6 + listRequests demoFetchEvents
  <= INT_MAX.
Proof. vm_compute. discriminate. Qed.

Lemma request_counter_counts_requests_in_flight_witness :
  counterMatches demoFetcher
  /\ Z.max (currentNetworkRequests demoFetcher) 6
     + listRequests demoFetchEvents <= INT_MAX
  /\ exists s',
       @fetcherRun demoFetchEnv demoFetchEvents demoFetcher = Some s'
       /\ counterMatches s'
       /\ currentNetworkRequests s'
          <= Z.max (currentNetworkRequests demoFetcher) 6
             + listRequests demoFetchEvents.
Proof.
  split; [exact demoFetcher_counterMatches|].
  split; [exact demoFetchEvents_bound|].
  exact (@request_counter_counts_requests_in_flight demoFetchEnv
           demoFetchEvents demoFetcher demoFetcher_counterMatches
           demoFetchEvents_bound).
Defined.

Lemma demoFetched_eq :
  @fetcherRun demoFetchEnv demoFetchEvents demoFetcher = Some demoFetched.
Proof. vm_compute. reflexivity. Qed.

Lemma demoFetcher_has_shader :
  is_Some (files demoFetcher !! "/cfg/shadertoy/Xs1.json").
Proof. eexists. vm_compute. reflexivity. Qed.

Lemma existing_file_is_never_requested_again_witness :
  is_Some (files demoFetcher !! "/cfg/shadertoy/Xs1.json")
  /\ @fetcherRun demoFetchEnv demoFetchEvents demoFetcher = Some demoFetched
  /\ is_Some (files demoFetched !! "/cfg/shadertoy/Xs1.json")
  /\ forall reply,
       reply ∈ replies demoFetched ->
       reply_handler reply = SaveTo "/cfg/shadertoy/Xs1.json" ->
       reply ∈ replies demoFetcher.
Proof.
  split; [exact demoFetcher_has_shader|]. split; [exact demoFetched_eq|].
  exact (@existing_file_is_never_requested_again demoFetchEnv demoFetchEvents
           demoFetcher demoFetched "/cfg/shadertoy/Xs1.json"
           demoFetcher_has_shader demoFetched_eq).
Defined.
